(** * A shallow embedding of the shell (shell.c, utils.c)

    The development follows the two source files:
    - [Utils]: the escape/quote decoder [unescape], the trimming functions
      and the in-place tokenizer [parse_quoted_tokens] / [getTokens];
    - [Shell]: the history file, the built-ins, the dispatcher
      [processCommand] and the command loop.

    C strings are lists of [ascii] characters.  A character buffer is the
    list of its bytes, terminator included; a pointer into a buffer is an
    index.  Accesses outside an allocation, dereferences of NULL and uses
    of freed blocks are undefined behaviour in C: the embedding stops at
    them with an explicit [fault].  Allocation ([malloc], [realloc]) is
    assumed to succeed. *)

From Stdlib Require Import ZArith Ascii String List Lia Bool.
From stdpp Require Import base list.
Import ListNotations.

Local Open Scope char_scope.
Local Open Scope Z_scope.

(** ** Characters and C strings *)

Definition NUL : ascii := "000".
Definition NEWLINE : ascii := "010".
Definition BACKSLASH : ascii := "\".
Definition SQUOTE : ascii := "'".
Definition DQUOTE : ascii := "034".

(** The numeric value of a character.  The source compares [char] values
    only against ranges inside 0..127, where signed and unsigned [char]
    agree, so the unsigned value is used throughout. *)
Definition zc (c : ascii) : Z := Z.of_N (N_of_ascii c).

(** [(char)tmp]: conversion of an [int] to a character keeps the low 8 bits. *)
Definition char_of_int (z : Z) : ascii := ascii_of_N (Z.to_N (z mod 256)).

(** The characters of a buffer up to (not including) the first NUL: the C
    string that starts at the beginning of the buffer. *)
Fixpoint c_str (bytes : list ascii) : list ascii :=
  match bytes with
  | [] => []
  | c :: rest => if Ascii.eqb c NUL then [] else c :: c_str rest
  end.

Definition strlen (bytes : list ascii) : nat := length (c_str bytes).

(** A string literal as a list of characters. *)
Definition lit (s : string) : list ascii := list_ascii_of_string s.

(** [isspace] in the "C" locale (the program never calls setlocale). *)
Definition isspace (c : ascii) : bool :=
  Ascii.eqb c " " || Ascii.eqb c "009" || Ascii.eqb c "010"
  || Ascii.eqb c "011" || Ascii.eqb c "012" || Ascii.eqb c "013".

(** ** Faults: what the C standard leaves undefined *)

Inductive fault : Type :=
| NullDeref                      (* dereference of a NULL pointer *)
| OutOfBounds (index : Z)        (* access outside an allocation, at this index *)
| UseAfterFree                   (* read through a pointer to a freed block *)
| InvalidFree                    (* free of a block that is not live *)
| BufferOverflow                 (* write past a fixed-size local buffer *)
| UninitRead                     (* use of an indeterminate value *)
| OutOfFuel.                     (* never produced: see the totality lemmas *)

Inductive res (A : Type) : Type :=
| Ok (a : A)
| Fail (f : fault).
Arguments Ok {A} a.
Arguments Fail {A} f.

#[global] Instance res_ret : MRet res := fun A a => Ok a.
#[global] Instance res_bind : MBind res := fun A B k r =>
  match r with
  | Ok a => k a
  | Fail f => Fail f
  end.

Module Utils.

(** ** unescape (utils.c, lines 65-248) *)

(** The [switch(cur)] after a backslash outside quotes, as a table: a
    recognised single-character escape or, by default, the character
    itself; an octal escape; a hex escape. *)
Inductive esc_class : Type :=
| EscByte (b : ascii)
| EscOctal
| EscHex.

Definition escape_case (cur : ascii) : esc_class :=
  match cur with
  | "n" => EscByte "010"
  | "a" => EscByte "007"
  | "b" => EscByte "008"
  | "r" => EscByte "013"
  | "\" => EscByte "\"
  | "f" => EscByte "012"
  | "v" => EscByte "011"
  | "'" => EscByte "'"
  | "034" => EscByte "034"
  | "?" => EscByte "?"
  | "*" => EscByte "*"
  | "$" => EscByte "$"
  | "t" => EscByte "009"
  | " " => EscByte " "
  | "!" => EscByte "!"
  | "0" | "1" | "2" | "3" | "4" | "5" | "6" | "7" => EscOctal
  | "x" | "X" => EscHex
  | _ => EscByte cur
  end.

(** [cur < '0' || cur > '7'] *)
Definition not_octal (cur : ascii) : bool :=
  (zc cur <? zc "0") || (zc cur >? zc "7").

(** The three-way range test of the hex branch; [None] is its final
    [else].  The value is the digit, before any shift. *)
Definition hex_digit (cur : ascii) : option Z :=
  if (zc cur >=? zc "0") && (zc cur <=? zc "9") then Some (zc cur - zc "0")
  else if (zc cur >=? zc "a") && (zc cur <=? zc "f") then Some (zc cur - zc "a" + 10)
  else if (zc cur >=? zc "A") && (zc cur <=? zc "F") then Some (zc cur - zc "A" + 10)
  else None.

(** What [unescape] hands back: the lines it printed on [errf] and the
    returned pointer, [None] for NULL, otherwise the bytes written to the
    new buffer before its terminator. *)
Definition decoded : Type := list string * option (list ascii).

Definition failed (msg : list string) : decoded := (msg, None).

(** [quoted] is a [char] used as a flag: 0 outside quotes, otherwise the
    quote character that opened the span. *)
Definition is_set (quoted : ascii) : bool := negb (Ascii.eqb quoted NUL).

(** The scanning loop.  [str] holds the characters before the terminator,
    so the empty list is [*str == 0]; [unesc] holds the bytes written so
    far.  Each [cur = *str++] is a pattern match on the rest of the
    input. *)
Fixpoint scan (str : list ascii) (quoted : ascii) (unesc : list ascii)
  {struct str} : decoded :=
  match str with
  | [] =>
      if is_set quoted then failed ["shell error: unterminated quote\n"%string]
      else ([], Some unesc)
  | cur :: str =>
      if negb (is_set quoted) && Ascii.eqb cur "\" then
        match str with
        | [] => failed ["shell error: illegal escape sequence\n"%string]
        | cur :: str =>
            match escape_case cur with
            | EscByte b => scan str quoted (unesc ++ [b])
            | EscOctal =>
                let tmp := Z.shiftl (zc cur - zc "0") 6 in
                match str with
                | [] => failed []
                | cur :: str =>
                    if not_octal cur then failed [] else
                    let tmp := Z.lor tmp (Z.shiftl (zc cur - zc "0") 3) in
                    match str with
                    | [] => failed []
                    | cur :: str =>
                        if not_octal cur then failed [] else
                        let tmp := Z.lor tmp (zc cur - zc "0") in
                        scan str quoted (unesc ++ [char_of_int tmp])
                    end
                end
            | EscHex =>
                match str with
                | [] => failed []
                | cur :: str =>
                    match hex_digit cur with
                    | None => failed []
                    | Some d1 =>
                        let tmp := Z.shiftl d1 4 in
                        match str with
                        | [] => failed []
                        | cur :: str =>
                            match hex_digit cur with
                            | None => failed []
                            | Some d2 =>
                                let tmp := Z.lor tmp d2 in
                                scan str quoted (unesc ++ [char_of_int tmp])
                            end
                        end
                    end
                end
            end
        end
      else if is_set quoted && Ascii.eqb cur "\" then
        match str with
        | [] => failed ["shell error: invalid escape sequence\n"%string]
        | cur :: str =>
            let unesc := if negb (Ascii.eqb cur quoted)
                         then unesc ++ ["\"] else unesc in
            scan str quoted (unesc ++ [cur])
        end
      else if negb (is_set quoted) && (Ascii.eqb cur "'" || Ascii.eqb cur "034") then
        scan str cur unesc
      else if is_set quoted && Ascii.eqb cur quoted then
        scan str NUL unesc
      else
        scan str quoted (unesc ++ [cur])
  end.

(** [unescape(str, errf)].  The allocation of [strlen(str) + 1] bytes is
    assumed to succeed. *)
Definition unescape (str : list ascii) : decoded :=
  scan (c_str str) NUL [].

(** ** trimLeading, trimTrailing, trim (utils.c, lines 313-346)

    The functions work in place on the C string at [s]; the embedding
    returns the string the buffer holds afterwards.  A NULL argument is
    dereferenced by the first [s[i]]. *)

(** [s + i] after [while (isspace((unsigned char)s[i])) i++]. *)
Fixpoint skip_space (s : list ascii) : list ascii :=
  match s with
  | [] => []
  | c :: rest => if isspace c then skip_space rest else s
  end.

Definition trimLeading (s : option (list ascii)) : res (list ascii) :=
  match s with
  | None => Fail NullDeref
  | Some bytes => Ok (skip_space (c_str bytes))
  end.

(** The downward loop of [trimTrailing]; [n] stands for [i + 1], so the
    loop runs while [n >= 1] and [s[n - 1]] is a space. *)
Fixpoint last_nonspace (s : list ascii) (n : nat) : nat :=
  match n with
  | O => O
  | S i => if isspace (nth i s NUL) then last_nonspace s i else S i
  end.

Definition trimTrailing (s : option (list ascii)) : res (list ascii) :=
  match s with
  | None => Fail NullDeref
  | Some bytes =>
      let str := c_str bytes in
      Ok (take (last_nonspace str (length str)) str)
  end.

Definition trim (s : option (list ascii)) : res (list ascii) :=
  s1 ← trimLeading s;
  trimTrailing (Some s1).

(** ** parse_quoted_tokens and getTokens (utils.c, lines 356-424)

    The tokenizer writes into the buffer it is given and returns pointers
    into it.  A buffer is the list of its bytes (for a string of length
    [n], [n + 1] bytes ending in NUL); the pointer [p] is an index. *)

Definition buffer_of (str : list ascii) : list ascii := c_str str ++ [NUL].

Definition rd (buf : list ascii) (p : nat) : res ascii :=
  match buf !! p with
  | Some c => Ok c
  | None => Fail (OutOfBounds (Z.of_nat p))
  end.

Definition wr (buf : list ascii) (p : nat) (c : ascii) : res (list ascii) :=
  if decide (p < length buf)%nat then Ok (<[p:=c]> buf)
  else Fail (OutOfBounds (Z.of_nat p)).

(** One slot of a [char **] array. *)
Inductive slot : Type :=
| Uninit              (* as malloc left it *)
| PNull               (* NULL *)
| Ptr (p : nat).      (* a pointer: an index into the buffer, or into the heap *)

Definition store (tokens : list slot) (i : nat) (v : slot) : res (list slot) :=
  if decide (i < length tokens)%nat then Ok (<[i:=v]> tokens)
  else Fail (OutOfBounds (Z.of_nat i)).

(** The test for a space or a tab. *)
Definition is_blank (c : ascii) : bool := Ascii.eqb c " " || Ascii.eqb c "009".

(** The loop [while *p is a space or a tab: p++], started at [p] with
    [rest] the bytes of the buffer from [p] on. *)
Fixpoint skip_blank_from (rest : list ascii) (p : nat) : res nat :=
  match rest with
  | [] => Fail (OutOfBounds (Z.of_nat p))
  | c :: rest =>
      if negb (Ascii.eqb c NUL) && is_blank c then skip_blank_from rest (S p)
      else Ok p
  end.

Definition skip_blank (buf : list ascii) (p : nat) : res nat :=
  skip_blank_from (drop p buf) p.

(** [strchr(buf + p, ch)] *)
Fixpoint strchr_from (rest : list ascii) (p : nat) (ch : ascii) : res (option nat) :=
  match rest with
  | [] => Fail (OutOfBounds (Z.of_nat p))
  | c :: rest =>
      if Ascii.eqb c ch then Ok (Some p)
      else if Ascii.eqb c NUL then Ok None
      else strchr_from rest (S p) ch
  end.

Definition strchr (buf : list ascii) (p : nat) (ch : ascii) : res (option nat) :=
  strchr_from (drop p buf) p ch.

Record tok_state : Type := TokState {
  ts_buf : list ascii;
  ts_tokens : list slot;
  ts_count : nat;          (* token_count *)
  ts_in_quote : bool;
  ts_p : nat
}.

(** The main loop, [while *p != 0 && token_count < max_tokens].  Every
    iteration moves [p] forward, so [S (length buf)] units of fuel are
    enough (lemma [tok_loop_fuel]). *)
Fixpoint tok_loop (fuel : nat) (max_tokens : nat) (st : tok_state) : res tok_state :=
  match fuel with
  | O => Fail OutOfFuel
  | S fuel =>
      let '(TokState buf tokens token_count in_quote p) := st in
      c ← rd buf p;
      if Ascii.eqb c NUL || negb (token_count <? max_tokens)%nat then Ok st
      else
        let '(in_quote, p) :=
          if Ascii.eqb c "034" then (negb in_quote, S p) else (in_quote, p) in
        if in_quote then
          tok_loop fuel max_tokens (TokState buf tokens token_count in_quote (S p))
        else
          c ← rd buf p;
          if is_blank c then
            buf ← wr buf p NUL;
            p ← skip_blank buf (S p);
            c ← rd buf p;
            if negb (Ascii.eqb c NUL) then
              tokens ← store tokens token_count (Ptr p);
              tok_loop fuel max_tokens (TokState buf tokens (S token_count) in_quote p)
            else
              tok_loop fuel max_tokens (TokState buf tokens token_count in_quote p)
          else
            tok_loop fuel max_tokens (TokState buf tokens token_count in_quote (S p))
  end.

(** [tokens[token_count - 1]] *)
Definition last_token (tokens : list slot) (token_count : nat) : res nat :=
  match token_count with
  | O => Fail (OutOfBounds (-1))
  | S i =>
      match tokens !! i with
      | Some (Ptr q) => Ok q
      | Some PNull => Fail NullDeref
      | Some Uninit => Fail UninitRead
      | None => Fail (OutOfBounds (Z.of_nat i))
      end
  end.

(** The result: the token count and the buffer and the array as the call
    leaves them. *)
Definition parse_quoted_tokens (str : list ascii) (tokens : list slot)
    (max_tokens : nat) : res (nat * list ascii * list slot) :=
  p ← skip_blank str 0;
  c ← rd str p;
  '(tokens, token_count) ←
     (if negb (Ascii.eqb c NUL)
      then tokens ← store tokens 0 (Ptr p); Ok (tokens, 1%nat)
      else Ok (tokens, 0%nat));
  st ← tok_loop (S (length str)) max_tokens (TokState str tokens token_count false p);
  let '(TokState buf tokens token_count in_quote _) := st in
  if in_quote then
    q ← last_token tokens token_count;
    end_quote ← strchr buf q "034";
    match end_quote with
    | Some e => buf ← wr buf e NUL; Ok (token_count, buf, tokens)
    | None => Ok (token_count, buf, tokens)
    end
  else Ok (token_count, buf, tokens).

Definition TOKEN_LIMIT : nat := 1000.

(** [getTokens(string, &numTokens)]: the returned array, [*numTokens] and
    the buffer as modified. *)
Definition getTokens (string : list ascii) : res (list slot * nat * list ascii) :=
  let result := replicate TOKEN_LIMIT Uninit in
  '(numTokens, buf, result) ← parse_quoted_tokens string result TOKEN_LIMIT;
  result ← store result numTokens PNull;
  Ok (result, numTokens, buf).

(** The text of the token a slot points to: the C string at that index. *)
Definition token_text (buf : list ascii) (s : slot) : option (list ascii) :=
  match s with
  | Ptr p => Some (c_str (drop p buf))
  | _ => None
  end.

(** The texts of the first [n] slots. *)
Definition token_texts (buf : list ascii) (tokens : list slot) (n : nat)
  : list (option (list ascii)) :=
  map (token_text buf) (take n tokens).

(** ** count_spaces and first_unquoted_space (utils.c, lines 42-51 and 250-273)

    Both functions hand a plain [char] to [isspace], which is defined for
    the values of [unsigned char] and for EOF only.  Where plain [char] is
    signed, a byte of 128 or more is a negative [int], and 255 is EOF. *)

Definition EOF : Z := -1.

(** The [int] that a plain [char] is promoted to. *)
Definition int_of_char (char_is_signed : bool) (c : ascii) : Z :=
  if char_is_signed && (128 <=? zc c) then zc c - 256 else zc c.

(** [isspace(v)] for an [int]. *)
Definition isspace_int (v : Z) : res bool :=
  if v =? EOF then Ok false
  else if (0 <=? v) && (v <=? 255) then Ok (isspace (char_of_int v))
  else Fail (OutOfBounds v).

(** The loop of [count_spaces], with [rv] the count so far. *)
Fixpoint count_loop (char_is_signed : bool) (str : list ascii) (rv : nat) : res nat :=
  match str with
  | [] => Ok rv
  | c :: str =>
      sp ← isspace_int (int_of_char char_is_signed c);
      count_loop char_is_signed str (if sp : bool then S rv else rv)
  end.

Definition count_spaces (char_is_signed : bool) (str : list ascii) : res nat :=
  count_loop char_is_signed (c_str str) 0.

(** The loop of [first_unquoted_space]; [cur] is the character of the
    previous iteration. *)
Fixpoint unquoted_loop (char_is_signed : bool) (tmp : list ascii) (pos : Z)
    (quoted cur : ascii) : res Z :=
  match tmp with
  | [] => Ok (-1)
  | c :: tmp =>
      let last := cur in
      let cur := c in
      if negb (Ascii.eqb last BACKSLASH) then
        let quoted :=
          if negb (is_set quoted) && (Ascii.eqb cur SQUOTE || Ascii.eqb cur DQUOTE)
          then cur
          else if is_set quoted && Ascii.eqb cur quoted then NUL
          else quoted in
        if negb (is_set quoted) then
          sp ← isspace_int (int_of_char char_is_signed cur);
          if sp : bool then Ok pos
          else unquoted_loop char_is_signed tmp (pos + 1) quoted cur
        else unquoted_loop char_is_signed tmp (pos + 1) quoted cur
      else unquoted_loop char_is_signed tmp (pos + 1) quoted cur
  end.

Definition first_unquoted_space (char_is_signed : bool) (str : list ascii) : res Z :=
  unquoted_loop char_is_signed (c_str str) 0 NUL NUL.

End Utils.

(** ** The process and its environment (shell.c)

    The shell talks to standard output and standard error, forks, execs,
    waits, and reads and writes files.  What it does is recorded as a trace
    of [event]s; what the operating system answers is an [OS] record. *)

Inductive arg : Type :=
| AInt (z : Z)
| AStr (s : list ascii).

Inductive event : Type :=
| Printf (fmt : string) (args : list arg)      (* printf on stdout *)
| Eprintf (fmt : string) (args : list arg)     (* fprintf(stderr, ...) *)
| Perror (msg : string)                        (* perror(msg) *)
| Fork (ret : Z)                               (* fork() returned ret *)
| Execvp (program : list ascii) (argv : list (option (list ascii))) (ok : bool)
| Wait.                                        (* wait(NULL) returned *)

Record OS : Type := {
  os_fork : nat -> Z;            (* the value the n-th fork() returns to the process followed *)
  os_child_pid : nat -> Z;       (* getpid() in the child made by the n-th fork() *)
  os_execvp : list ascii -> list (option (list ascii)) -> bool;
                                 (* true: the image is replaced; false: execvp returns -1 *)
  os_strerror : list ascii;      (* strerror(errno) after a failed execvp *)
  os_fopen : list ascii -> option (list ascii)
                                 (* fopen(path, "r"): the contents, or None for NULL *)
}.

(** A heap block made by malloc for one history entry. *)
Inductive heap_block : Type :=
| Live (s : list ascii)
| Freed.

Record world : Type := World {
  w_trace : list event;              (* oldest first *)
  w_history : option (list ascii);   (* the bytes of the history file; None: fopen fails *)
  w_heap : list heap_block;          (* a pointer is an index *)
  w_nforks : nat;                    (* calls of fork() so far *)
  w_pid : Z;                         (* getpid() *)
  w_ppid : Z                         (* getppid() *)
}.

Inductive stop : Type :=
| Faulted (f : fault)     (* undefined behaviour reached *)
| Replaced.               (* execvp succeeded: this code no longer runs *)

Inductive outcome (A : Type) : Type :=
| Done (a : A) (w : world)
| Stopped (why : stop) (w : world).
Arguments Done {A} a w.
Arguments Stopped {A} why w.

Definition M (A : Type) : Type := world -> outcome A.

Definition ret {A} (a : A) : M A := fun w => Done a w.

Definition bind {A B} (c : M A) (k : A -> M B) : M B := fun w =>
  match c w with
  | Done a w' => k a w'
  | Stopped why w' => Stopped why w'
  end.

Notation "'let*' x ':=' c 'in' k" := (bind c (fun x => k))
  (at level 10, x pattern, c at level 100, k at level 200).

Definition halt {A} (why : stop) : M A := fun w => Stopped why w.

Definition lift {A} (r : res A) : M A :=
  match r with
  | Ok a => ret a
  | Fail f => halt (Faulted f)
  end.

Definition emit (e : event) : M unit := fun w =>
  Done tt (World (w_trace w ++ [e]) (w_history w) (w_heap w) (w_nforks w) (w_pid w) (w_ppid w)).

Definition get_heap : M (list heap_block) := fun w => Done (w_heap w) w.

Definition put_heap (h : list heap_block) : M unit := fun w =>
  Done tt (World (w_trace w) (w_history w) h (w_nforks w) (w_pid w) (w_ppid w)).

Definition get_history : M (option (list ascii)) := fun w => Done (w_history w) w.

Definition put_history (f : list ascii) : M unit := fun w =>
  Done tt (World (w_trace w) (Some f) (w_heap w) (w_nforks w) (w_pid w) (w_ppid w)).

Definition getpid : M Z := fun w => Done (w_pid w) w.
Definition getppid : M Z := fun w => Done (w_ppid w) w.

(** [fgets(buffer, size, fp)] called until it returns NULL: the file cut
    into chunks, each ending after a newline or at [size - 1] characters.
    [cur] is the chunk being filled. *)
Fixpoint fgets_all (size : nat) (cur : list ascii) (bytes : list ascii)
  : list (list ascii) :=
  match bytes with
  | [] => match cur with [] => [] | _ => [cur] end
  | c :: rest =>
      let cur := cur ++ [c] in
      if Ascii.eqb c NEWLINE || (S (length cur) =? size)%nat
      then cur :: fgets_all size [] rest
      else fgets_all size cur rest
  end.

Module Shell.

Import Utils.

Definition FILE_BUFFER_SIZE : nat := 8192.
Definition HISTORY_PATH : list ascii := lit ".421history".

(** ** Reading the console (shell.c, lines 55-86) *)

Definition CONSOLE_BUFFER_SIZE : nat := 1024.

(** [fgets(buf, n + 1, stdin)]: the characters stored before the
    terminator, at most [n] and ending after the first newline, and the
    rest of the stream.  Nothing is stored, and NULL is returned, when the
    stream is at its end. *)
Fixpoint fgets (n : nat) (stdin : list ascii) : list ascii * list ascii :=
  match n, stdin with
  | S n, c :: rest =>
      if Ascii.eqb c NEWLINE then ([c], rest)
      else let '(chunk, rest) := fgets n rest in (c :: chunk, rest)
  | _, _ => ([], stdin)
  end.

(** What the buffer of [readInput] holds. *)
Inductive input : Type :=
| Indeterminate             (* no byte of it was written *)
| Text (s : list ascii).    (* the C string [s] *)

Definition text_of (result : input) : list ascii :=
  match result with
  | Indeterminate => []
  | Text s => s
  end.

(** The [do ... while (1)] loop of [readInput].  [bytesRead] is the
    length of the text read so far; the block has
    [resultSize + bufferSize] bytes after the [realloc]. *)
Fixpoint readInput_loop (fuel : nat) (result : input) (resultSize : nat)
    (stdin : list ascii) : res (input * list ascii) :=
  match fuel with
  | O => Fail OutOfFuel
  | S fuel =>
      let bufferSize := CONSOLE_BUFFER_SIZE in
      let bytesRead := length (text_of result) in
      let '(chunk, rest) := fgets (bufferSize - 1) stdin in
      match chunk with
      | [] => Ok (result, rest)
      | _ :: _ =>
          if decide (bytesRead + length chunk + 1 <= resultSize + bufferSize)%nat then
            let text := text_of result ++ c_str chunk in
            if (0 <? length text)%nat && Ascii.eqb (List.last text NUL) NEWLINE
            then Ok (Text text, rest)
            else readInput_loop fuel (Text text) (resultSize + (bufferSize - 1)) rest
          else Fail BufferOverflow
      end
  end.

(** [readInput()]: the buffer returned and what is left of standard
    input.  Every iteration but the last consumes a character, so
    [S (length stdin)] units of fuel are enough. *)
Definition readInput (stdin : list ascii) : res (input * list ascii) :=
  readInput_loop (S (length stdin)) Indeterminate 0 stdin.

(** ** History functions (shell.c, lines 130-278) *)

(** [appendHistory(entry)]; [fputs] writes the string without adding a
    newline (the raw line carries its own). *)
Definition appendHistory (entry : option (list ascii)) : M Z :=
  match entry with
  | None => ret 0
  | Some e =>
      let* fp := get_history in
      match fp with
      | None =>
          let* _ := emit (Eprintf "writeHistory: ERROR: Failed to open command history file '%s'!\n"
                                  [AStr HISTORY_PATH]) in
          ret 0
      | Some file =>
          let* _ := put_history (file ++ c_str e) in
          ret 1
      end
  end.

(** malloc of a block holding the string [s]. *)
Definition malloc_str (s : list ascii) : M nat :=
  let* h := get_heap in
  let* _ := put_heap (h ++ [Live s]) in
  ret (length h).

(** [free(ptr)], for the value held in an array slot. *)
Definition free (ptr : slot) : M unit :=
  match ptr with
  | PNull => ret tt
  | Uninit => halt (Faulted UninitRead)
  | Ptr p =>
      let* h := get_heap in
      match h !! p with
      | Some (Live _) => put_heap (<[p:=Freed]> h)
      | _ => halt (Faulted InvalidFree)
      end
  end.

(** Reading the string a slot points to, as [printf("%s")] does. *)
Definition load (ptr : slot) : M (list ascii) :=
  match ptr with
  | PNull => halt (Faulted NullDeref)
  | Uninit => halt (Faulted UninitRead)
  | Ptr p =>
      let* h := get_heap in
      match h !! p with
      | Some (Live s) => ret s
      | Some Freed => halt (Faulted UseAfterFree)
      | None => halt (Faulted (OutOfBounds (Z.of_nat p)))
      end
  end.

(** [a[i]] and [a[i] = v] on a [char **] array, with [i] an [int]. *)
Definition aget (a : list slot) (i : Z) : res slot :=
  if (0 <=? i) && (i <? Z.of_nat (length a)) then
    match a !! Z.to_nat i with
    | Some v => Ok v
    | None => Fail (OutOfBounds i)
    end
  else Fail (OutOfBounds i).

Definition aset (a : list slot) (i : Z) (v : slot) : res (list slot) :=
  if (0 <=? i) && (i <? Z.of_nat (length a)) then Ok (<[Z.to_nat i:=v]> a)
  else Fail (OutOfBounds i).

(** [realloc(a, sizeof(char* ) * n)]: the old slots are kept, new ones are
    uninitialised. *)
Definition realloc (a : list slot) (n : Z) : list slot :=
  take (Z.to_nat n) (a ++ replicate (Z.to_nat n) Uninit).

(** The [while (fgets(...) != NULL)] loop of [readHistory], one iteration
    per chunk. *)
Fixpoint read_entries (chunks : list (list ascii)) (numEntries : Z)
    (result : list slot) (numAllocated numRead : Z) : M (list slot * Z) :=
  match chunks with
  | [] => ret (result, numRead)
  | buffer :: chunks =>
      let '(result, numAllocated) :=
        if numRead =? numAllocated
        then (realloc result (numAllocated + numEntries), numAllocated + numEntries)
        else (result, numAllocated) in
      let* line := lift (trimTrailing (Some buffer)) in
      let* p := malloc_str line in
      let* result := lift (aset result numRead (Ptr p)) in
      read_entries chunks numEntries result numAllocated (numRead + 1)
  end.

(** The [for (int i = 0; i < numRead; i++)] loop that keeps the last
    [numEntries] entries; [n] counts the iterations left. *)
Fixpoint shift_entries (n : nat) (i : Z) (numEntries adjust : Z)
    (result : list slot) : M (list slot) :=
  match n with
  | O => ret result
  | S n =>
      let* result :=
        if i <? numEntries then
          let* old := lift (aget result i) in
          let* _ := free old in
          let* v := lift (aget result (i + adjust)) in
          lift (aset result i v)
        else lift (aset result i PNull) in
      shift_entries n (i + 1) numEntries adjust result
  end.

(** [readHistory(numEntries, &numReturned)]: the returned pointer ([None]
    for NULL) and the value stored through [numReturned], if any. *)
Definition readHistory (numEntries : Z) : M (option (list slot) * option Z) :=
  let result := replicate (Z.to_nat (numEntries + 1)) Uninit in
  let numAllocated := numEntries in
  let numRead := 0 in
  if numEntries >? 0 then
    let* fp := get_history in
    match fp with
    | None =>
        let* _ := emit (Eprintf "readHistory: ERROR: Failed to open command history file '%s'!\n"
                                [AStr HISTORY_PATH]) in
        ret (None, None)
    | Some file =>
        let* (result, numRead) :=
          read_entries (fgets_all FILE_BUFFER_SIZE [] file) numEntries
                       result numAllocated numRead in
        (* Remove current (last) command from results *)
        let numRead := numRead - 1 in
        let* cur := lift (aget result numRead) in
        let* _ := free cur in
        let* result := lift (aset result numRead PNull) in
        (* Limit result if necessary *)
        let* (result, numRead) :=
          if numRead >? numEntries then
            let adjust := numRead - numEntries in
            let* result := shift_entries (Z.to_nat numRead) 0 numEntries adjust result in
            ret (result, numEntries)
          else ret (result, numRead) in
        ret (Some result, Some numRead)
    end
  else ret (Some result, None).

(** [printHistory(history, numEntries)] *)
Fixpoint print_entries (n : nat) (i : Z) (history : list slot) : M unit :=
  match n with
  | O => ret tt
  | S n =>
      let* ptr := lift (aget history i) in
      let* s := load ptr in
      let* _ := emit (Printf "%s\n" [AStr s]) in
      print_entries n (i + 1) history
  end.

Definition printHistory (history : option (list slot)) (numEntries : Z) : M unit :=
  match history with
  | None => ret tt
  | Some h => print_entries (Z.to_nat numEntries) 0 h
  end.

(** [deallocateHistory(entries, numEntries)] *)
Fixpoint free_entries (n : nat) (i : Z) (entries : list slot) : M unit :=
  match n with
  | O => ret tt
  | S n =>
      let* ptr := lift (aget entries i) in
      let* _ := free ptr in
      free_entries n (i + 1) entries
  end.

Definition deallocateHistory (entries : option (list slot)) (numEntries : Z) : M unit :=
  match entries with
  | None => ret tt
  | Some e => free_entries (Z.to_nat numEntries) 0 e
  end.


(** ** The prompt (shell.c, lines 29-48; utils.c, lines 280-307) *)

(** Where a string that a library call handed out is stored: at the
    start of a heap block that [malloc] returned, or elsewhere - in static
    storage, or further inside a block.  [free] accepts only the first. *)
Inductive strptr : Type :=
| AtBlock (p : nat)             (* the first byte of heap block [p] *)
| Elsewhere (s : list ascii).   (* the string [s], not at the start of a block *)

(** [getUserName()], given the pointer [pw_name] of the entry that
    [getpwuid] finds, if it finds one.  The function returns that pointer
    itself, not a copy of the name. *)
Definition getUserName (pw_name : option strptr) : M (option strptr) :=
  match pw_name with
  | Some username => ret (Some username)
  | None =>
      let* _ := emit (Perror "getUserName: failed to retrieve user name!") in
      ret None
  end.

(** [getHostName()], given the name that [gethostname] stores in the
    new block of 256 bytes, if it succeeds.  When it fails the block is
    neither read nor freed. *)
Definition getHostName (name : option (list ascii)) : M (option strptr) :=
  match name with
  | Some hostname =>
      let* p := malloc_str hostname in
      ret (Some (AtBlock p))
  | None =>
      let* _ := malloc_str [] in
      let* _ := emit (Perror "getHostName: failed to retrieve host name!") in
      ret None
  end.

(** Reading the string at a pointer, as [strlen] and [strcpy] do. *)
Definition load_str (x : option strptr) : M (list ascii) :=
  match x with
  | None => halt (Faulted NullDeref)
  | Some (AtBlock p) => load (Ptr p)
  | Some (Elsewhere s) => ret s
  end.

(** [free(x)] *)
Definition free_str (x : option strptr) : M unit :=
  match x with
  | None => ret tt
  | Some (AtBlock p) => free (Ptr p)
  | Some (Elsewhere _) => halt (Faulted InvalidFree)
  end.

(** [strcpy(dst + off, src)] into a block of [length dst] bytes. *)
Definition strcpy (dst : list ascii) (off : nat) (src : list ascii) : res (list ascii) :=
  let bytes := c_str src ++ [NUL] in
  if decide (off + length bytes <= length dst)%nat
  then Ok (take off dst ++ bytes ++ drop (off + length bytes) dst)
  else Fail BufferOverflow.

(** The part of [initPrompt] that fills the new block for the prompt.
    The block is shown with NUL in the bytes not written yet; no byte is
    read before it is written. *)
Definition format_prompt (userName hostName : list ascii) : res (list ascii) :=
  let userNameLen := strlen userName in
  let hostNameLen := strlen hostName in
  let len := 0%nat in
  let prompt := replicate (userNameLen + hostNameLen + 5) NUL in
  prompt ← strcpy prompt len userName;
  let len := (len + userNameLen)%nat in
  prompt ← strcpy prompt len (lit "@");
  let len := S len in
  prompt ← strcpy prompt len hostName;
  let len := (len + hostNameLen)%nat in
  strcpy prompt len (lit " $ ").

(** [initPrompt()]: the string it leaves in the global [prompt].  Both
    names are passed to [free]: the host name is a block of
    [getHostName]; whether the user name is one depends on where the
    library keeps the entry of [getpwuid]. *)
Definition initPrompt (pw_name : option strptr) (host : option (list ascii))
  : M (list ascii) :=
  let* userName := getUserName pw_name in
  let* hostName := getHostName host in
  let* user := load_str userName in
  let* name := load_str hostName in
  let* prompt := lift (format_prompt user name) in
  let* _ := free_str userName in
  let* _ := free_str hostName in
  ret (c_str prompt).

(** ** Control functions (shell.c, lines 322-609) *)

(** [strcmp(a, b) == 0] *)
Fixpoint list_eqb (a b : list ascii) : bool :=
  match a, b with
  | [], [] => true
  | x :: a, y :: b => Ascii.eqb x y && list_eqb a b
  | _, _ => false
  end.

Definition streq (a b : list ascii) : bool := list_eqb (c_str a) (c_str b).

(** [getProgramName(command)] for a non-NULL command: the characters
    before the first NUL or space character. *)
Fixpoint getProgramName (command : list ascii) : list ascii :=
  match command with
  | [] => []
  | c :: rest =>
      if Ascii.eqb c NUL || isspace c then [] else c :: getProgramName rest
  end.

(** [getArgs(command, &numArgs)] for a non-NULL command: the tokens of a
    fresh copy of the command. *)
Definition getArgs (command : list ascii) : res (list slot * nat * list ascii) :=
  getTokens (buffer_of command).

(** [deallocateArgs(args, numArgs)]: [free(args[0])] is a valid call only
    when the first token starts the copy that [getArgs] allocated. *)
Definition deallocateArgs (args : list slot) (numArgs : nat) : res unit :=
  if (0 <? numArgs)%nat then
    match args !! 0%nat with
    | Some (Ptr 0%nat) => Ok tt
    | Some PNull => Ok tt
    | Some Uninit => Fail UninitRead
    | Some (Ptr _) => Fail InvalidFree
    | None => Fail (OutOfBounds 0)
    end
  else Ok tt.

Section WithOS.

Context (os : OS).

(** The global [prompt], as [initPrompt] left it. *)
Context (prompt : list ascii).

Fixpoint print_chunks (chunks : list (list ascii)) : M unit :=
  match chunks with
  | [] => ret tt
  | buffer :: chunks =>
      let* _ := emit (Printf "%s" [AStr (c_str buffer)]) in
      print_chunks chunks
  end.

(** The path that [processProcread] formats into its local [filename]:
    the argument itself when it starts with proc/ (the [strcpy] branch),
    otherwise the argument after /proc/ (the [sprintf] branch). *)
Definition procread_path (fileName : list ascii) : list ascii :=
  if list_eqb (take 5 fileName) (lit "proc/") then fileName
  else lit "/proc/" ++ fileName.

(** [processProcread(fileName)]; the local [filename] has 256 bytes. *)
Definition processProcread (fileName : option (list ascii)) : M Z :=
  match fileName with
  | None =>
      let* _ := emit (Eprintf "ERROR: file name missing\n" []) in ret 1
  | Some fileName =>
      let fileName := c_str fileName in
      if (length fileName =? 0)%nat then
        let* _ := emit (Eprintf "ERROR: file name missing\n" []) in ret 1
      else if Ascii.eqb (nth 0 fileName NUL) "/" then
        let* _ := emit (Eprintf "ERROR: only relative file paths are supported\n" []) in
        ret 1
      else
        let filename := procread_path fileName in
        if (256 <? S (length filename))%nat then halt (Faulted BufferOverflow)
        else
          match os_fopen os filename with
          | None =>
              let* _ := emit (Perror "ERROR: Process file not found") in ret 1
          | Some contents =>
              let* _ := print_chunks (fgets_all 1024 [] contents) in
              ret 0
          end
  end.

(** [fork()] *)
Definition fork : M Z := fun w =>
  let n := w_nforks w in
  let pid := os_fork os n in
  let trace := w_trace w ++ [Fork pid] in
  if pid =? 0
  then Done pid (World trace (w_history w) (w_heap w) (S n) (os_child_pid os n) (w_pid w))
  else Done pid (World trace (w_history w) (w_heap w) (S n) (w_pid w) (w_ppid w)).

(** [processSystemCommand(command)] *)
Definition processSystemCommand (command : list ascii) : M Z :=
  let* pid := fork in
  if pid =? -1 then
    let* _ := emit (Perror "processSystemCommand: fork failed") in
    ret 1
  else if pid =? 0 then
    let* me := getpid in
    let* parent := getppid in
    let* _ := emit (Printf "Child process: My PID is %d, My parent's PID is %d\n"
                           [AInt me; AInt parent]) in
    let* _ := emit (Printf "Child process: executing '%s'\n" [AStr (c_str command)]) in
    let program := getProgramName command in
    let* (args, numArgs, buf) := lift (getArgs command) in
    let argv := token_texts buf args numArgs in
    let ok := os_execvp os program argv in
    let* _ := emit (Execvp program argv ok) in
    if ok then halt Replaced
    else
      let* _ := emit (Eprintf "processSystemCommand: ERROR - command execution failed with '%s'\n"
                              [AStr (os_strerror os)]) in
      let* _ := lift (deallocateArgs args numArgs) in
      ret 1
  else
    let* me := getpid in
    let* _ := emit (Printf "Parent process: My PID is %d, My child's PID is %d\n"
                           [AInt me; AInt pid]) in
    let* _ := emit (Printf "Parent process: waiting for child to complete...\n" []) in
    let* _ := emit Wait in
    let* _ := emit (Printf "Parent process: child completed\n" []) in
    ret 0.

(** [processCommand(command)] for a non-NULL command. *)
Definition processCommand (command : list ascii) : M Z :=
  if streq command (lit "exit") then ret (-1)
  else
    let firstToken := getProgramName command in
    if streq firstToken (lit "procread") then
      let* (args, numArgs, buf) := lift (getArgs command) in
      let* result :=
        if (numArgs <? 2)%nat then
          let* _ := emit (Eprintf "ERROR: file argument required\n" []) in ret 1
        else if (2 <? numArgs)%nat then
          let* _ := emit (Eprintf "ERROR: only 1 argument is permitted\n" []) in ret 1
        else
          let* a1 := lift (aget args 1) in
          processProcread (token_text buf a1) in
      let* _ := lift (deallocateArgs args numArgs) in
      ret result
    else if streq firstToken (lit "history") then
      let* (history, numRead) := readHistory 10 in
      match history with
      | Some _ =>
          match numRead with
          | Some numRead =>
              let* _ := printHistory history numRead in
              let* _ := deallocateHistory history numRead in
              ret 0
          | None => halt (Faulted UninitRead)
          end
      | None => ret 1
      end
    else if (0 <? strlen command)%nat then
      let* _ :=
        if Ascii.eqb (nth 0 command NUL) "034" || Ascii.eqb (nth 0 command NUL) "'"
        then emit (Eprintf "ERROR: invalid command\n" [])
        else ret tt in
      processSystemCommand command
    else ret 0.

Fixpoint emit_all (lines : list string) : M unit :=
  match lines with
  | [] => ret tt
  | l :: lines => let* _ := emit (Eprintf l []) in emit_all lines
  end.

(** [readCommand()], given the line that [readInput] returned. *)
Definition readCommand (line : list ascii) : M (option (list ascii)) :=
  let* _ := appendHistory (Some line) in
  let '(errf, command) := unescape line in
  let* _ := emit_all errf in
  let* command := lift (trim command) in
  ret (Some command).

(** [writePrompt()]: the prompt is the format string. *)
Definition writePrompt : M unit :=
  emit (Printf (string_of_list_ascii prompt) []).

(** [readCommand()] when standard input is at its end.  [fgets] stores
    nothing and [readInput] returns the block as [realloc] made it, which
    is not NULL, so [readCommand] goes on with it: [appendHistory] opens
    the history file and [fputs] reads the block; when the file does not
    open, [unescape] is the first to read it.  No byte of the block was
    ever written: its contents are indeterminate and using them is
    undefined (a run sees whatever the allocator left there, such as an
    earlier line), so this is where the embedding stops, with
    [UninitRead].  The code has no test for the end of the input. *)
Definition readCommand_at_end : M Empty_set :=
  let* fp := get_history in
  match fp with
  | None =>
      let* _ := emit (Eprintf "writeHistory: ERROR: Failed to open command history file '%s'!\n"
                              [AStr HISTORY_PATH]) in
      halt (Faulted UninitRead)
  | Some _ => halt (Faulted UninitRead)
  end.

(** [commandLoop()].  Standard input is the list of the lines that the
    successive calls of [readInput] return; after the last of them the
    loop goes round once more, as the code does, and reads at the end of
    the input. *)
Fixpoint commandLoop (stdin : list (list ascii)) : M unit :=
  match stdin with
  | [] =>
      let* _ := writePrompt in
      let* never := readCommand_at_end in
      match never with end
  | line :: stdin =>
      let* _ := writePrompt in
      let* command := readCommand line in
      match command with
      | Some command =>
          let* r := processCommand command in
          if r <? 0 then ret tt else commandLoop stdin
      | None => commandLoop stdin
      end
  end.

End WithOS.

End Shell.

(** ** Predicates used in the statements *)

(** A result that is not the exhausted-fuel marker. *)
Definition no_fuel_fault {A} (r : res A) : Prop := r <> Fail OutOfFuel.

(** [buf'] differs from [buf] only where a byte was overwritten with NUL:
    no character is deleted or moved. *)
Definition nul_or_same (buf buf' : list ascii) : Prop :=
  length buf' = length buf /\
  forall (i : nat) (c : ascii), buf' !! i = Some c -> c = NUL \/ buf !! i = Some c.



(** The world with its heap replaced. *)
Definition set_heap (w : world) (h : list heap_block) : world :=
  World (w_trace w) (w_history w) h (w_nforks w) (w_pid w) (w_ppid w).

(** The heap entry that [readHistory] makes of one chunk of the file. *)
Definition entry_of (buffer : list ascii) : list ascii :=
  let str := c_str buffer in
  take (Utils.last_nonspace str (length str)) str.

(** The world after more events. *)
Definition add_trace (w : world) (evs : list event) : world :=
  World (w_trace w ++ evs) (w_history w) (w_heap w) (w_nforks w) (w_pid w) (w_ppid w).

(** The world in which a computation ended. *)
Definition final_world {A} (o : outcome A) : world :=
  match o with
  | Done _ w => w
  | Stopped _ w => w
  end.

(** [w'] continues [w]: more events, the same number of forks. *)
Definition continues (w w' : world) : Prop :=
  (exists evs : list event, w_trace w' = w_trace w ++ evs) /\
  w_nforks w' = w_nforks w.

(** A computation that only adds events. *)
Definition quiet {A} (c : M A) : Prop :=
  forall w : world, continues w (final_world (c w)).


(** ** Proof automation *)

(** Case analysis on every [match] and [if] that a hypothesis contains. *)
Ltac break_scan H :=
  repeat match type of H with
         | context [match ?x with _ => _ end] => destruct x eqn:?
         end.

(** ** Concrete inputs used in examples and counterexamples *)

Module Inputs.


(** A thousand one-letter tokens. *)
Definition thousand_tokens : list ascii :=
  List.concat (repeat (lit "a ") 1000).

(** An operating system seen from the parent: fork succeeds with child
    4242, exec succeeds, and the only file that opens is the one that the
    path /proc/../../etc/passwd reaches. *)
Definition os_parent : OS := {|
  os_fork := fun _ => 4242;
  os_child_pid := fun _ => 4242;
  os_execvp := fun _ _ => true;
  os_strerror := lit "No such file or directory";
  os_fopen := fun path =>
    if Shell.list_eqb path (lit "/proc/../../etc/passwd")
    then Some (lit "root:x:0:0:root:/root:/bin/sh")
    else None
|}.

(** A fresh shell: nothing printed, an empty history file, an empty heap. *)
Definition w0 : world := World [] (Some []) [] 0 100 99.

Definition with_history (file : list ascii) : world :=
  World [] (Some file) [] 0 100 99.

Definition line (s : string) : list ascii := lit s ++ [NEWLINE].

(** Twelve distinct lines, then the line of the history command itself. *)
Definition twelve_lines : list ascii :=
  line "ls" ++ line "pwd" ++ line "date" ++ line "whoami" ++ line "uname"
  ++ line "id" ++ line "uptime" ++ line "df" ++ line "ps" ++ line "env"
  ++ line "hostname" ++ line "groups" ++ line "history".

(** A history file of [n] distinct lines (cmda, cmdb, ...) followed by
    the line of the history command. *)
Definition numbered_history (n : nat) : list ascii :=
  List.concat (map (fun i => lit "cmd" ++ [ascii_of_nat (97 + i); NEWLINE]) (seq 0 n))
  ++ line "history".

(** How a run of the dispatcher ended: its return value or why it stopped. *)
Definition verdict (o : outcome Z) : Z + stop :=
  match o with
  | Done r _ => inl r
  | Stopped why _ => inr why
  end.

End Inputs.

(** ** More predicates used in the statements *)

(** No character of [s] is one of [bad]. *)
Definition none_of (bad : list ascii) (s : list ascii) : bool :=
  forallb (fun c => negb (existsb (Ascii.eqb c) bad)) s.

(** The character of the octal digit [d]. *)
Definition octal_char (d : nat) : ascii := ascii_of_nat (48 + d).

(** The character of the hex digit [d], in upper or lower case. *)
Definition hex_char (upper : bool) (d : nat) : ascii :=
  nth d (lit (if upper then "0123456789ABCDEF" else "0123456789abcdef")) NUL.

(** The words of a command line: its maximal runs of characters other
    than space and tab, in order.  [cur] is the word being read. *)
Fixpoint words_from (cur : list ascii) (s : list ascii) : list (list ascii) :=
  match s with
  | [] => match cur with [] => [] | _ :: _ => [cur] end
  | c :: rest =>
      if Utils.is_blank c then
        match cur with
        | [] => words_from [] rest
        | _ :: _ => cur :: words_from [] rest
        end
      else words_from (cur ++ [c]) rest
  end.

Definition words (s : list ascii) : list (list ascii) := words_from [] s.

(** The double quotes of [s] are ones that the tokenizer treats as
    quotes: no NUL occurs, every double quote is followed by a character
    that is not a double quote, and the quotes come in pairs.
    [in_quote] tells whether [s] starts inside a quoted span. *)
Fixpoint quotes_ok (in_quote : bool) (s : list ascii) : bool :=
  match s with
  | [] => negb in_quote
  | c :: rest =>
      negb (Ascii.eqb c NUL) &&
      if Ascii.eqb c DQUOTE then
        match rest with
        | [] => false
        | d :: _ => negb (Ascii.eqb d DQUOTE) && quotes_ok (negb in_quote) rest
        end
      else quotes_ok in_quote rest
  end.

(** The words of a command line when a space or a tab between double
    quotes does not end a word.  The quotes stay in the word. *)
Fixpoint qwords_from (in_quote : bool) (cur : list ascii) (s : list ascii)
  : list (list ascii) :=
  match s with
  | [] => match cur with [] => [] | _ :: _ => [cur] end
  | c :: rest =>
      if Ascii.eqb c DQUOTE then qwords_from (negb in_quote) (cur ++ [c]) rest
      else if negb in_quote && Utils.is_blank c then
        match cur with
        | [] => qwords_from false [] rest
        | _ :: _ => cur :: qwords_from false [] rest
        end
      else qwords_from in_quote (cur ++ [c]) rest
  end.

Definition qwords (s : list ascii) : list (list ascii) := qwords_from false [] s.

(** [token_rest r in_quote w]: the characters [w], followed by [r], are
    what the main loop of the tokenizer steps over, starting with the flag
    [in_quote], before it ends the token it is in. *)
Inductive token_rest (r : list ascii) : bool -> list ascii -> Prop :=
| tr_nil : token_rest r false []
| tr_plain (c : ascii) (w : list ascii) :
    Ascii.eqb c NUL = false -> Ascii.eqb c DQUOTE = false -> Utils.is_blank c = false ->
    token_rest r false w -> token_rest r false (c :: w)
| tr_inside (c : ascii) (w : list ascii) :
    Ascii.eqb c NUL = false -> Ascii.eqb c DQUOTE = false ->
    token_rest r true w -> token_rest r true (c :: w)
| tr_open (d : ascii) (w : list ascii) :
    Ascii.eqb d NUL = false ->
    token_rest r true w -> token_rest r false (DQUOTE :: d :: w)
| tr_close (d : ascii) (w : list ascii) :
    Ascii.eqb d NUL = false -> Utils.is_blank d = false ->
    token_rest r false w -> token_rest r true (DQUOTE :: d :: w)
| tr_close_end :
    Utils.is_blank (hd NUL r) = true -> token_rest r true [DQUOTE].

(** The text that the body of a quoted span stands for: before the
    quote character [q] of the span a backslash is dropped and the quote
    is kept; before any other character the backslash is kept, followed
    by that character; every other character is copied. *)
Fixpoint quoted_text (q : ascii) (body : list ascii) : list ascii :=
  match body with
  | [] => []
  | c :: rest =>
      if Ascii.eqb c BACKSLASH then
        match rest with
        | [] => [c]
        | d :: rest' =>
            if Ascii.eqb d q then d :: quoted_text q rest'
            else c :: d :: quoted_text q rest'
        end
      else c :: quoted_text q rest
  end.

(** [body] can stand between two quote characters [q]: it holds no NUL,
    no [q] other than after a backslash, and no backslash without a
    character after it. *)
Fixpoint quoted_body (q : ascii) (body : list ascii) : bool :=
  match body with
  | [] => true
  | c :: rest =>
      negb (Ascii.eqb c NUL) &&
      if Ascii.eqb c BACKSLASH then
        match rest with
        | [] => false
        | d :: rest' => negb (Ascii.eqb d NUL) && quoted_body q rest'
        end
      else negb (Ascii.eqb c q) && quoted_body q rest
  end.


(** Every value that the computation returns satisfies [P]. *)
Definition returns {A} (P : A -> Prop) (c : M A) : Prop :=
  forall (w : world) (a : A) (w' : world), c w = Done a w' -> P a.

(** A computation that leaves the history file as it is. *)
Definition keeps_file {A} (c : M A) : Prop :=
  forall w : world, w_history (final_world (c w)) = w_history w.

(** * Properties *)

(** ** C strings *)

Lemma c_str_length (bytes : list ascii) : (length (c_str bytes) <= length bytes)%nat.
Proof.
  induction bytes as [|c rest IH]; simpl; [lia|].
  destruct (Ascii.eqb c NUL); simpl; lia.
Qed.

Lemma c_str_no_nul (bytes : list ascii) : Forall (fun c => c <> NUL) (c_str bytes).
Proof.
  induction bytes as [|c rest IH]; simpl; [constructor|].
  destruct (Ascii.eqb_spec c NUL); constructor; auto.
Qed.

Lemma c_str_id (s : list ascii) : Forall (fun c => c <> NUL) s -> c_str s = s.
Proof.
  induction 1 as [|c rest Hc _ IH]; simpl; [reflexivity|].
  destruct (Ascii.eqb_spec c NUL); [contradiction|]. now rewrite IH.
Qed.

(** ** The decoder never lengthens its input *)

Module UnescapeFacts.
Import Utils.

(** Every byte written is paid for by at least one character read. *)
Lemma scan_length (n : nat) :
  forall str quoted unesc errf out,
    (length str <= n)%nat ->
    scan str quoted unesc = (errf, Some out) ->
    (length out <= length unesc + length str)%nat.
Proof.
  induction n as [|n IH]; intros str quoted unesc errf out Hn Hscan.
  - destruct str; [|simpl in Hn; lia].
    simpl in Hscan. destruct (is_set quoted); inversion Hscan; subst. lia.
  - destruct str as [|c1 [|c2 [|c3 [|c4 s4]]]];
      cbn [scan] in Hscan; cbv zeta in Hscan; unfold failed in Hscan;
      break_scan Hscan; try discriminate;
      try solve [inversion Hscan; subst; rewrite ?length_app; simpl; lia];
      apply IH in Hscan; simpl in *; rewrite ?length_app in *; simpl in *; lia.
Qed.

Lemma unescape_writes_at_most (str : list ascii) (errf : list string) (out : list ascii) :
  unescape str = (errf, Some out) -> (length out <= strlen str)%nat.
Proof.
  unfold unescape, strlen. intros H.
  apply (scan_length (length (c_str str))) in H; simpl in H; lia.
Qed.

End UnescapeFacts.

(** ** The tokenizer *)

Module TokenizerFacts.
Import Utils.

Lemma rd_ok (buf : list ascii) (p : nat) (c : ascii) :
  rd buf p = Ok c -> buf !! p = Some c /\ (p < length buf)%nat.
Proof.
  unfold rd. destruct (buf !! p) eqn:E; intros H; inversion H; subst.
  split; [reflexivity|]. eapply lookup_lt_Some; eauto.
Qed.

Lemma wr_ok (buf buf' : list ascii) (p : nat) (c : ascii) :
  wr buf p c = Ok buf' -> buf' = <[p:=c]> buf /\ (p < length buf)%nat.
Proof. unfold wr. destruct (decide _); intros H; inversion H; auto. Qed.


Lemma skip_blank_from_ge (rest : list ascii) :
  forall p p', skip_blank_from rest p = Ok p' -> (p <= p')%nat.
Proof.
  induction rest as [|c rest IH]; intros p p' H; simpl in H; [discriminate|].
  destruct (negb (Ascii.eqb c NUL) && is_blank c).
  - apply IH in H. lia.
  - inversion H. lia.
Qed.

Lemma skip_blank_ge (buf : list ascii) (p p' : nat) :
  skip_blank buf p = Ok p' -> (p <= p')%nat.
Proof. apply skip_blank_from_ge. Qed.

(** No helper of the tokenizer reports exhausted fuel. *)
Lemma rd_fuel buf p : no_fuel_fault (rd buf p).
Proof. unfold no_fuel_fault, rd. destruct (buf !! p); discriminate. Qed.

Lemma wr_fuel buf p c : no_fuel_fault (wr buf p c).
Proof. unfold no_fuel_fault, wr. destruct (decide _); discriminate. Qed.

Lemma store_fuel tokens i v : no_fuel_fault (store tokens i v).
Proof. unfold no_fuel_fault, store. destruct (decide _); discriminate. Qed.

Lemma skip_blank_from_fuel rest : forall p, no_fuel_fault (skip_blank_from rest p).
Proof.
  induction rest as [|c rest IH]; intros p; simpl; [discriminate|].
  destruct (negb (Ascii.eqb c NUL) && is_blank c); [apply IH|discriminate].
Qed.

Lemma strchr_from_fuel rest ch : forall p, no_fuel_fault (strchr_from rest p ch).
Proof.
  induction rest as [|c rest IH]; intros p; simpl; [discriminate|].
  destruct (Ascii.eqb c ch); [discriminate|].
  destruct (Ascii.eqb c NUL); [discriminate|apply IH].
Qed.

Lemma tok_loop_S fuel max_tokens st :
  tok_loop (S fuel) max_tokens st =
  let '(TokState buf tokens token_count in_quote p) := st in
  c ← rd buf p;
  if Ascii.eqb c NUL || negb (token_count <? max_tokens)%nat then Ok st
  else
    let '(in_quote, p) :=
      if Ascii.eqb c "034" then (negb in_quote, S p) else (in_quote, p) in
    if in_quote then
      tok_loop fuel max_tokens (TokState buf tokens token_count in_quote (S p))
    else
      c ← rd buf p;
      if is_blank c then
        buf ← wr buf p NUL;
        p ← skip_blank buf (S p);
        c ← rd buf p;
        if negb (Ascii.eqb c NUL) then
          tokens ← store tokens token_count (Ptr p);
          tok_loop fuel max_tokens (TokState buf tokens (S token_count) in_quote p)
        else
          tok_loop fuel max_tokens (TokState buf tokens token_count in_quote p)
      else
        tok_loop fuel max_tokens (TokState buf tokens token_count in_quote (S p)).
Proof. reflexivity. Qed.

Lemma bind_fuel {A B} (r : res A) (k : A -> res B) :
  no_fuel_fault r -> (forall a, r = Ok a -> no_fuel_fault (k a)) ->
  no_fuel_fault (r ≫= k).
Proof.
  intros Hr Hk. destruct r as [a|f]; [apply Hk; reflexivity|].
  intros E. inversion E; subst. now apply Hr.
Qed.


Lemma tok_loop_fuel (max_tokens : nat) (fuel : nat) :
  forall st, (length (ts_buf st) - ts_p st < fuel)%nat ->
             no_fuel_fault (tok_loop fuel max_tokens st).
Proof.
  induction fuel as [|fuel IH]; intros [buf tokens n q p] Hlt; simpl in Hlt; [lia|].
  rewrite tok_loop_S.
  apply bind_fuel; [apply rd_fuel|]. intros c [_ Hp]%rd_ok.
  destruct (Ascii.eqb c NUL || negb (n <? max_tokens)%nat); [discriminate|].
  destruct (Ascii.eqb c "034"); cbv zeta.
  - destruct (negb q); [apply IH; simpl; lia|].
    apply bind_fuel; [apply rd_fuel|]. intros c' [_ Hp']%rd_ok.
    destruct (is_blank c'); [|apply IH; simpl; lia].
    apply bind_fuel; [apply wr_fuel|]. intros buf' [-> _]%wr_ok.
    apply bind_fuel; [apply skip_blank_from_fuel|]. intros p' Hsk%skip_blank_ge.
    apply bind_fuel; [apply rd_fuel|]. intros c'' _.
    destruct (negb (Ascii.eqb c'' NUL)).
    + apply bind_fuel; [apply store_fuel|]. intros tokens' _.
      apply IH; simpl; rewrite length_insert; lia.
    + apply IH; simpl; rewrite length_insert; lia.
  - destruct q; [apply IH; simpl; lia|].
    apply bind_fuel; [apply rd_fuel|]. intros c' [_ Hp']%rd_ok.
    destruct (is_blank c'); [|apply IH; simpl; lia].
    apply bind_fuel; [apply wr_fuel|]. intros buf' [-> _]%wr_ok.
    apply bind_fuel; [apply skip_blank_from_fuel|]. intros p' Hsk%skip_blank_ge.
    apply bind_fuel; [apply rd_fuel|]. intros c'' _.
    destruct (negb (Ascii.eqb c'' NUL)).
    + apply bind_fuel; [apply store_fuel|]. intros tokens' _.
      apply IH; simpl; rewrite length_insert; lia.
    + apply IH; simpl; rewrite length_insert; lia.
Qed.

(** [parse_quoted_tokens] never runs out of fuel: whatever it returns is
    what the C loop computes. *)
Lemma parse_quoted_tokens_fuel (str : list ascii) (tokens : list slot) (max_tokens : nat) :
  no_fuel_fault (parse_quoted_tokens str tokens max_tokens).
Proof.
  unfold parse_quoted_tokens.
  apply bind_fuel; [apply skip_blank_from_fuel|]. intros p _.
  apply bind_fuel; [apply rd_fuel|]. intros c _.
  apply bind_fuel.
  { destruct (negb (Ascii.eqb c NUL)); [|discriminate].
    apply bind_fuel; [apply store_fuel|]. discriminate. }
  intros [tokens' n] _.
  apply bind_fuel; [apply tok_loop_fuel; simpl; lia|].
  intros [buf tokens'' n' q p'] _.
  destruct q; [|discriminate].
  apply bind_fuel.
  { unfold last_token. destruct n'; [discriminate|].
    destruct (tokens'' !! n') as [[]|]; discriminate. }
  intros e _.
  apply bind_fuel; [apply strchr_from_fuel|]. intros [e'|] _; [|discriminate].
  apply bind_fuel; [apply wr_fuel|]. discriminate.
Qed.









Lemma c_str_take (l : list ascii) : c_str l = take (strlen l) l.
Proof.
  unfold strlen. induction l as [|c rest IH]; simpl; [reflexivity|].
  destruct (Ascii.eqb c NUL); simpl; congruence.
Qed.

(** The C string read at [p] in the buffer the tokenizer leaves is a
    verbatim slice of the input. *)
Lemma c_str_slice (str buf' : list ascii) (p : nat) :
  nul_or_same str buf' ->
  c_str (drop p buf') = take (strlen (drop p buf')) (drop p str).
Proof.
  intros [_ Hsame]. rewrite c_str_take at 1.
  set (k := strlen (drop p buf')). apply list_eq. intros i.
  destruct (decide (i < k)%nat) as [Hlt|Hge].
  - rewrite !lookup_take_lt by exact Hlt. rewrite !lookup_drop.
    assert (Hc : exists c, c_str (drop p buf') !! i = Some c).
    { apply lookup_lt_is_Some. exact Hlt. }
    destruct Hc as [c Hc].
    assert (Hnn : c <> NUL).
    { pose proof (c_str_no_nul (drop p buf')) as Hall.
      rewrite Forall_lookup in Hall. exact (Hall i c Hc). }
    rewrite c_str_take, lookup_take_lt, lookup_drop in Hc by exact Hlt.
    destruct (Hsame _ _ Hc) as [|Hs]; [contradiction|]. congruence.
  - rewrite !lookup_take_ge by lia. reflexivity.
Qed.

End TokenizerFacts.

(** ** The history file *)

Module HistoryFacts.
Import Utils Shell.

Lemma set_heap_id w : set_heap w (w_heap w) = w.
Proof. now destruct w. Qed.

Lemma aget_ok (a : list slot) (i : nat) (v : slot) :
  a !! i = Some v -> aget a (Z.of_nat i) = Ok v.
Proof.
  intros H. unfold aget. apply lookup_lt_Some in H as Hlt.
  replace ((0 <=? Z.of_nat i) && (Z.of_nat i <? Z.of_nat (length a))) with true
    by (symmetry; apply andb_true_iff; split; [apply Z.leb_le|apply Z.ltb_lt]; lia).
  now rewrite Nat2Z.id, H.
Qed.

Lemma aset_ok (a : list slot) (i : nat) (v : slot) :
  (i < length a)%nat -> aset a (Z.of_nat i) v = Ok (<[i:=v]> a).
Proof.
  intros Hlt. unfold aset.
  replace ((0 <=? Z.of_nat i) && (Z.of_nat i <? Z.of_nat (length a))) with true
    by (symmetry; apply andb_true_iff; split; [apply Z.leb_le|apply Z.ltb_lt]; lia).
  now rewrite Nat2Z.id.
Qed.

Lemma realloc_length (a : list slot) (n : Z) : length (realloc a n) = Z.to_nat n.
Proof.
  unfold realloc. rewrite length_take, length_app, length_replicate. lia.
Qed.

Lemma realloc_lookup (a : list slot) (n : Z) (j : nat) :
  (j < length a)%nat -> (j < Z.to_nat n)%nat -> realloc a n !! j = a !! j.
Proof.
  intros Ha Hn. unfold realloc.
  rewrite lookup_take_lt by exact Hn. now apply lookup_app_l.
Qed.

Lemma malloc_str_spec (s : list ascii) (w : world) :
  malloc_str s w = Done (length (w_heap w)) (set_heap w (w_heap w ++ [Live s])).
Proof. reflexivity. Qed.

Lemma free_live (p : nat) (s : list ascii) (w : world) :
  w_heap w !! p = Some (Live s) ->
  free (Ptr p) w = Done tt (set_heap w (<[p:=Freed]> (w_heap w))).
Proof. intros H. unfold free, bind, get_heap. now rewrite H. Qed.

Lemma trimTrailing_entry (buffer : list ascii) :
  trimTrailing (Some buffer) = Ok (entry_of buffer).
Proof. reflexivity. Qed.

(** The reading loop stores one fresh block per chunk, in order. *)
Lemma read_entries_spec (chunks : list (list ascii)) :
  forall (numEntries : Z) (result : list slot) (numAllocated : Z) (k : nat) (w : world),
    0 < numEntries ->
    Z.of_nat k <= numAllocated -> numAllocated <= Z.of_nat (length result) ->
    exists result' : list slot,
      read_entries chunks numEntries result numAllocated (Z.of_nat k) w
      = Done (result', Z.of_nat (k + length chunks))
             (set_heap w (w_heap w ++ map (fun c => Live (entry_of c)) chunks)) /\
      (k + length chunks <= length result')%nat /\
      (forall j : nat, (j < k)%nat -> result' !! j = result !! j) /\
      (forall j : nat, (j < length chunks)%nat ->
         result' !! (k + j)%nat = Some (Ptr (length (w_heap w) + j))).
Proof.
  induction chunks as [|buffer chunks IH];
    intros numEntries result numAllocated k w Hpos Hk Hlen.
  - exists result. simpl. rewrite app_nil_r, set_heap_id, Nat.add_0_r.
    split; [reflexivity|]. split; [lia|]. split; [auto|]. intros j Hj. lia.
  - cbn [read_entries].
    set (grown := if Z.of_nat k =? numAllocated
                  then (realloc result (numAllocated + numEntries), numAllocated + numEntries)
                  else (result, numAllocated)).
    assert (Hgrown : Z.of_nat k < snd grown /\ snd grown <= Z.of_nat (length (fst grown)) /\
                     forall j : nat, (j < k)%nat -> fst grown !! j = result !! j).
    { unfold grown. destruct (Z.eqb_spec (Z.of_nat k) numAllocated) as [E|E]; simpl.
      - rewrite realloc_length. split; [lia|]. split; [lia|].
        intros j Hj. apply realloc_lookup; lia.
      - split; [lia|]. split; [lia|]. auto. }
    destruct grown as [result1 numAllocated1]. simpl in Hgrown.
    destruct Hgrown as (Hk1 & Hlen1 & Hsame1).
    rewrite trimTrailing_entry. cbn [lift].
    unfold bind at 1. unfold ret at 1.
    unfold bind at 1. rewrite malloc_str_spec.
    rewrite aset_ok by lia. cbn [lift]. unfold bind at 1. unfold ret at 1.
    replace (Z.of_nat k + 1) with (Z.of_nat (S k)) by lia.
    destruct (IH numEntries (<[k:=Ptr (length (w_heap w))]> result1) numAllocated1 (S k)
                 (set_heap w (w_heap w ++ [Live (entry_of buffer)])))
      as (result' & Hrun & Hlen' & Hold & Hnew); [lia|lia|rewrite length_insert; lia|].
    exists result'. split; [|split; [|split]].
    + rewrite Hrun. simpl. rewrite <- app_assoc. simpl.
      replace (S (k + length chunks))%nat with (k + S (length chunks))%nat by lia.
      reflexivity.
    + simpl. lia.
    + intros j Hj. rewrite Hold by lia. rewrite list_lookup_insert_ne by lia. auto.
    + intros [|j] Hj.
      * rewrite Nat.add_0_r. rewrite Hold by lia.
        rewrite list_lookup_insert_eq by lia. now rewrite Nat.add_0_r.
      * simpl in Hj. replace (k + S j)%nat with (S k + j)%nat by lia.
        rewrite Hnew by lia. simpl. rewrite length_app. simpl.
        do 2 f_equal. lia.
Qed.
Lemma fgets_all_nonempty (size : nat) (bytes cur : list ascii) :
  bytes <> [] \/ cur <> [] -> fgets_all size cur bytes <> [].
Proof.
  revert cur. induction bytes as [|c rest IH]; intros cur H; cbn [fgets_all]; cbv zeta.
  - destruct cur; [destruct H; congruence|discriminate].
  - destruct (Ascii.eqb c NEWLINE || (S (length (cur ++ [c])) =? size)%nat);
      [discriminate|].
    apply IH. right. now destruct cur.
Qed.

(** The loop that keeps the last [numEntries] entries, run on the [m]
    entries that are left, with [i] iterations done: the slots from [i] on
    still hold the blocks read from the file, which are live; the slots
    before [i] hold the entries moved down, and the blocks they held have
    been freed.  At the end the first [numEntries] slots hold the last
    [numEntries] of the [m] entries, and the blocks of the first
    [numEntries] entries are freed. *)
Lemma shift_entries_spec (numEntries : Z) (base m : nat) (n : nat) :
  forall (i : nat) (result : list slot) (w : world),
    (i + n = m)%nat -> 0 < numEntries < Z.of_nat m ->
    (forall j : nat, (i <= j < m)%nat -> result !! j = Some (Ptr (base + j))) ->
    (forall j : nat, (i <= j < m)%nat ->
       exists s : list ascii, w_heap w !! (base + j)%nat = Some (Live s)) ->
    (forall j : nat, (j < i)%nat -> (j < Z.to_nat numEntries)%nat ->
       result !! j = Some (Ptr (base + (j + (m - Z.to_nat numEntries))))) ->
    (forall j : nat, (j < i)%nat -> (j < Z.to_nat numEntries)%nat ->
       w_heap w !! (base + j)%nat = Some Freed) ->
    exists (result' : list slot) (w' : world),
      shift_entries n (Z.of_nat i) numEntries (Z.of_nat m - numEntries) result w
      = Done result' w' /\
      (forall j : nat, (j < Z.to_nat numEntries)%nat ->
         result' !! j = Some (Ptr (base + (j + (m - Z.to_nat numEntries))))) /\
      (forall j : nat, (j < Z.to_nat numEntries)%nat ->
         w_heap w' !! (base + j)%nat = Some Freed) /\
      w_trace w' = w_trace w.
Proof.
  induction n as [|n IH]; intros i result w Him Hne Hslots Hlive Hmoved Hfreed.
  - exists result, w. split; [reflexivity|].
    split; [|split; [|reflexivity]]; intros j Hj; [apply Hmoved|apply Hfreed]; lia.
  - assert (Hi : (i < m)%nat) by lia.
    assert (Hilen : (i < length result)%nat).
    { eapply lookup_lt_Some. apply Hslots. lia. }
    cbn [shift_entries].
    destruct (Z.ltb_spec (Z.of_nat i) numEntries) as [Hlt|Hge].
    + destruct (Hlive i) as [s Hs]; [lia|].
      assert (Hblock : (base + i < length (w_heap w))%nat)
        by (eapply lookup_lt_Some; exact Hs).
      set (a := (m - Z.to_nat numEntries)%nat) in *.
      replace (Z.of_nat i + (Z.of_nat m - numEntries)) with (Z.of_nat (i + a)) by lia.
      replace (Z.of_nat i + 1) with (Z.of_nat (S i)) by lia.
      unfold bind.
      rewrite (aget_ok result i (Ptr (base + i))) by (apply Hslots; lia).
      cbn [lift ret]. rewrite (free_live _ s) by exact Hs.
      rewrite (aget_ok result (i + a) (Ptr (base + (i + a)))) by (apply Hslots; lia).
      cbn [lift ret].
      rewrite aset_ok by exact Hilen. cbn [lift ret].
      destruct (IH (S i) (<[i:=Ptr (base + (i + a))]> result)
                   (set_heap w (<[(base + i)%nat:=Freed]> (w_heap w))))
        as (result' & w' & Hrun & Hm' & Hf' & Ht'); [lia|lia| | | | |].
      * intros j Hj. rewrite list_lookup_insert_ne by lia. apply Hslots. lia.
      * intros j Hj. simpl. rewrite list_lookup_insert_ne by lia. apply Hlive. lia.
      * intros j Hj Hjn. destruct (decide (j = i)) as [->|Hji].
        -- now apply list_lookup_insert_eq.
        -- rewrite list_lookup_insert_ne by lia. apply Hmoved; lia.
      * intros j Hj Hjn. simpl. destruct (decide (j = i)) as [->|Hji].
        -- now apply list_lookup_insert_eq.
        -- rewrite list_lookup_insert_ne by lia. apply Hfreed; lia.
      * exists result', w'. repeat split; assumption.
    + replace (Z.of_nat i + 1) with (Z.of_nat (S i)) by lia.
      unfold bind.
      rewrite aset_ok by exact Hilen. cbn [lift ret].
      apply IH; [lia|lia| | | |].
      * intros j Hj. rewrite list_lookup_insert_ne by lia. apply Hslots. lia.
      * intros j Hj. apply Hlive. lia.
      * intros j Hj Hjn. rewrite list_lookup_insert_ne by lia. apply Hmoved; lia.
      * intros j Hj Hjn. apply Hfreed; lia.
Qed.

(** With at least one line in the file, [readHistory] runs to its end: the
    removal of the last line read is inside the array, and the count it
    stores is the number of the other lines, capped at [numEntries].  When
    no more than [numEntries] lines remain, the array holds them in file
    order, followed by NULL in the slot of the removed line, whose block
    has been freed.  When more remain, the array holds the last
    [numEntries] of them, and the blocks of the first [numEntries] lines
    of the file have been freed. *)
Lemma readHistory_nonempty (numEntries : Z) (file : list ascii) (w : world) :
  0 < numEntries -> w_history w = Some file -> file <> [] ->
  let chunks := fgets_all FILE_BUFFER_SIZE [] file in
  let m := Nat.pred (length chunks) in
  exists (result : list slot) (w' : world),
    readHistory numEntries w
    = Done (Some result, Some (Z.min (Z.of_nat (length chunks) - 1) numEntries)) w' /\
    w_trace w' = w_trace w /\
    (Z.of_nat m <= numEntries ->
     (forall j : nat, (j < m)%nat ->
        result !! j = Some (Ptr (length (w_heap w) + j))) /\
     result !! m = Some PNull /\
     w_heap w' = <[(length (w_heap w) + m)%nat:=Freed]>
                   (w_heap w ++ map (fun c => Live (entry_of c)) chunks)) /\
    (numEntries < Z.of_nat m ->
     (forall j : nat, (j < Z.to_nat numEntries)%nat ->
        result !! j
        = Some (Ptr (length (w_heap w) + (j + (m - Z.to_nat numEntries))))) /\
     (forall j : nat, (j < Z.to_nat numEntries)%nat ->
        w_heap w' !! (length (w_heap w) + j)%nat = Some Freed)).
Proof.
  intros Hpos Hfile Hne chunks m0. unfold readHistory.
  replace (numEntries >? 0) with true by (symmetry; apply Z.gtb_lt; lia).
  unfold bind at 1. unfold get_history at 1. rewrite Hfile.
  fold chunks.
  assert (Hchunks : chunks <> []) by (apply fgets_all_nonempty; auto).
  destruct (read_entries_spec chunks numEntries
              (replicate (Z.to_nat (numEntries + 1)) Uninit) numEntries 0%nat w)
    as (result1 & Hrun & Hlen1 & _ & Hnew); [lia|lia|rewrite length_replicate; lia|].
  change (Z.of_nat 0) with 0 in Hrun. unfold bind at 1. rewrite Hrun.
  simpl (0 + length chunks)%nat in *.
  set (heap1 := w_heap w ++ map (fun c => Live (entry_of c)) chunks).
  set (base := length (w_heap w)) in *.
  assert (Hheap1 : forall j : nat, (j < length chunks)%nat ->
            exists s : list ascii, heap1 !! (base + j)%nat = Some (Live s)).
  { intros j Hj. unfold heap1, base. rewrite lookup_app_r by lia.
    replace (length (w_heap w) + j - length (w_heap w))%nat with j by lia.
    rewrite list_lookup_fmap.
    destruct (lookup_lt_is_Some_2 chunks j) as [c Hc]; [lia|].
    rewrite Hc. simpl. eauto. }
  subst m0.
  destruct (length chunks) as [|m] eqn:Hm; [destruct chunks; [congruence|discriminate]|].
  replace (Z.of_nat (S m) - 1) with (Z.of_nat m) by lia. cbn [Nat.pred].
  unfold bind at 1. rewrite (aget_ok result1 m (Ptr (base + m))) by (apply (Hnew m); lia).
  cbn [lift]. unfold ret at 1.
  destruct (Hheap1 m) as [s Hs]; [lia|].
  unfold bind at 1. rewrite (free_live _ s) by exact Hs.
  unfold bind at 1. rewrite aset_ok by lia. cbn [lift]. unfold ret at 1.
  destruct (Z.gtb_spec (Z.of_nat m) numEntries) as [Hgt|Hle].
  - destruct (shift_entries_spec numEntries base m (Z.to_nat (Z.of_nat m)) 0%nat
                (<[m:=PNull]> result1)
                (set_heap (set_heap w heap1) (<[(base + m)%nat:=Freed]> heap1)))
      as (result' & w' & Hshift & Hmoved & Hfreed & Htrace); [lia|lia| | | | |].
    + intros j Hj. rewrite list_lookup_insert_ne by lia. apply (Hnew j). lia.
    + intros j Hj. simpl. rewrite list_lookup_insert_ne by lia. apply Hheap1. lia.
    + intros j Hj. lia.
    + intros j Hj. lia.
    + change (Z.of_nat 0) with 0 in Hshift.
      unfold bind at 1. unfold bind at 1. simpl w_heap. rewrite Hshift.
      unfold ret. exists result', w'. rewrite Z.min_r by lia.
      split; [reflexivity|]. split; [exact Htrace|]. split; [lia|].
      intros _. split; assumption.
  - unfold bind at 1. unfold ret. eexists; eexists. rewrite Z.min_l by lia.
    split; [reflexivity|]. split; [reflexivity|]. split; [|lia].
    intros _. split; [|split].
    + intros j Hj. rewrite list_lookup_insert_ne by lia. apply (Hnew j). lia.
    + apply list_lookup_insert_eq. lia.
    + reflexivity.
Qed.


(** The defect behind C7, for every history file: when 11 to 19 lines
    precede the line of the history command, the first entry that
    [printHistory] reads lies in a block that [readHistory] has freed. *)
Lemma history_use_after_free (os : OS) (file : list ascii) (w : world) :
  w_history w = Some file ->
  (11 < length (fgets_all FILE_BUFFER_SIZE [] file) <= 20)%nat ->
  exists w' : world,
    processCommand os (lit "history") w = Stopped (Faulted UseAfterFree) w' /\
    w_trace w' = w_trace w.
Proof.
  intros Hfile Hlines.
  assert (Hne : file <> []) by (intros ->; simpl in Hlines; lia).
  destruct (readHistory_nonempty 10 file w) as (result & w' & Hrun & Htrace & _ & Hshift);
    [lia|exact Hfile|exact Hne|].
  destruct Hshift as [Hmoved Hfreed]; [lia|].
  set (m := Nat.pred (length (fgets_all FILE_BUFFER_SIZE [] file))) in *.
  rewrite Z.min_r in Hrun by lia.
  exists w'. split; [|exact Htrace].
  unfold processCommand.
  change (streq (lit "history") (lit "exit")) with false.
  change (streq (getProgramName (lit "history")) (lit "procread")) with false.
  change (streq (getProgramName (lit "history")) (lit "history")) with true.
  cbv iota. unfold bind at 1. rewrite Hrun.
  unfold bind at 1. unfold printHistory.
  change (Z.to_nat 10) with 10%nat in *. cbn [print_entries].
  unfold bind at 1. unfold bind at 1.
  pose proof (aget_ok result 0 _ (Hmoved 0%nat ltac:(lia))) as Hfirst.
  change (Z.of_nat 0) with 0 in Hfirst. rewrite Hfirst. cbn [lift]. unfold ret at 1.
  unfold bind at 1. unfold load, bind, get_heap.
  replace (length (w_heap w) + (0 + (m - 10)))%nat
    with (length (w_heap w) + (m - 10))%nat by lia.
  rewrite (Hfreed (m - 10)%nat) by lia. reflexivity.
Qed.

End HistoryFacts.

(** * The claims *)

(** ** Decoder *)

(** C8.  Whenever [unescape] succeeds on a string, the decoded string is
    at most as long as the input: the bytes written, and so also the C
    string they form, number at most [strlen(str)], and with the
    terminator they fit in the single allocation of [strlen(str) + 1]
    bytes. *)
Theorem unescape_never_lengthens (str : list ascii) (errf : list string) (out : list ascii) :
  Utils.unescape str = (errf, Some out) ->
  (strlen out <= strlen str)%nat /\ (length out + 1 <= strlen str + 1)%nat.
Proof.
  intros H. apply UnescapeFacts.unescape_writes_at_most in H.
  pose proof (c_str_length out). unfold strlen in *. lia.
Qed.

Lemma unescape_never_lengthens_witness :
  (strlen (lit "AB") <= strlen (lit "\101\x42"))%nat /\
  (length (lit "AB") + 1 <= strlen (lit "\101\x42") + 1)%nat.
Proof.
  apply (unescape_never_lengthens (lit "\101\x42") [] (lit "AB")).
  reflexivity.
Defined.

(** C5, as stated, fails: inside quotes a backslash-backslash pair is
    copied as two backslashes, not collapsed into one. *)
Lemma quoted_backslash_pair_not_collapsed :
  Utils.unescape (lit "'a\\b'") = ([], Some (lit "a\\b")) /\
  Utils.unescape (lit "'a\\b'") <> ([], Some (lit "a\b")).
Proof. split; [reflexivity|discriminate]. Qed.

(** ** Tokenizer *)


(** ** Command loop and dispatcher *)

Module ShellFacts.
Import Utils Shell.

(** When the decoder returns NULL, [readCommand] hands NULL to [trim],
    whose first read dereferences it. *)
Lemma readCommand_null (line : list ascii) (errf : list string) (w : world) :
  unescape line = (errf, None) ->
  readCommand line w
  = bind (appendHistory (Some line))
         (fun _ => bind (emit_all errf) (fun _ => halt (Faulted NullDeref))) w.
Proof. intros H. unfold readCommand. rewrite H. reflexivity. Qed.

Lemma emit_all_halt {A} (why : stop) (errf : list string) :
  forall w : world,
    exists w' : world,
      bind (emit_all errf) (fun _ => @halt A why) w = Stopped why w'.
Proof.
  induction errf as [|l errf IH]; intros w.
  - eexists. reflexivity.
  - destruct (IH (add_trace w [Eprintf l []])) as [w' Hw']. exists w'.
    rewrite <- Hw'. reflexivity.
Qed.

(** So every line on which decoding fails stops the shell: the command
    loop never reaches the next prompt. *)
Lemma commandLoop_decode_failure (os : OS) (prompt : list ascii)
    (line : list ascii) (stdin : list (list ascii)) (errf : list string) (w : world) :
  unescape line = (errf, None) ->
  exists w' : world,
    commandLoop os prompt (line :: stdin) w = Stopped (Faulted NullDeref) w'.
Proof.
  intros H. cbn [commandLoop]. unfold bind at 1. unfold writePrompt at 1.
  unfold emit at 1. unfold bind at 1.
  rewrite (readCommand_null line errf) by exact H.
  unfold bind at 1.
  destruct (appendHistory (Some line) _) as [z w1|why w1] eqn:Happ.
  - destruct (emit_all_halt (A:=option (list ascii)) (Faulted NullDeref) errf w1)
      as [w' Hw'].
    exists w'. now rewrite Hw'.
  - exfalso. unfold appendHistory, bind, get_history in Happ.
    destruct (w_history _); discriminate.
Qed.

Lemma continues_refl (w : world) : continues w w.
Proof. split; [exists []; now rewrite app_nil_r|reflexivity]. Qed.

Lemma continues_trans (a b c : world) : continues a b -> continues b c -> continues a c.
Proof.
  intros [[e1 H1] N1] [[e2 H2] N2]. split; [|congruence].
  exists (e1 ++ e2). now rewrite H2, H1, app_assoc.
Qed.

Lemma quiet_ret {A} (a : A) : quiet (ret a).
Proof. intros w. apply continues_refl. Qed.

Lemma quiet_halt {A} (why : stop) : quiet (@halt A why).
Proof. intros w. apply continues_refl. Qed.

Lemma quiet_lift {A} (r : res A) : quiet (lift r).
Proof. intros w. destruct r; apply continues_refl. Qed.

Lemma quiet_emit (e : event) : quiet (emit e).
Proof. intros w. split; [now exists [e]|reflexivity]. Qed.

Lemma quiet_getpid : quiet getpid.
Proof. intros w. apply continues_refl. Qed.

Lemma quiet_getppid : quiet getppid.
Proof. intros w. apply continues_refl. Qed.

Lemma quiet_bind {A B} (c : M A) (k : A -> M B) :
  quiet c -> (forall a : A, quiet (k a)) -> quiet (bind c k).
Proof.
  intros Hc Hk w. unfold bind. specialize (Hc w).
  destruct (c w) as [a w1|why w1]; simpl in *; [|exact Hc].
  eapply continues_trans; [exact Hc|apply Hk].
Qed.

(** Whatever the operating system answers, [processSystemCommand] calls
    [fork] first, and nothing afterwards undoes it. *)
Lemma processSystemCommand_forks (os : OS) (command : list ascii) (w : world) :
  let w' := final_world (processSystemCommand os command w) in
  In (Fork (os_fork os (w_nforks w))) (w_trace w') /\
  w_nforks w' = S (w_nforks w).
Proof.
  cbv zeta.
  assert (Hrun : exists (w1 : world) (k : M Z),
            processSystemCommand os command w = k w1 /\ quiet k /\
            w_trace w1 = w_trace w ++ [Fork (os_fork os (w_nforks w))] /\
            w_nforks w1 = S (w_nforks w)).
  { unfold processSystemCommand. unfold bind at 1.
    assert (Hfork : exists w1 : world,
              fork os w = Done (os_fork os (w_nforks w)) w1 /\
              w_trace w1 = w_trace w ++ [Fork (os_fork os (w_nforks w))] /\
              w_nforks w1 = S (w_nforks w)).
    { unfold fork. destruct (os_fork os (w_nforks w) =? 0); eexists; repeat split. }
    destruct Hfork as (w1 & -> & Htrace & Hn).
    set (pid := os_fork os (w_nforks w)) in *. cbv beta iota.
    exists w1. eexists. split; [reflexivity|]. split; [|split; assumption].
    destruct (pid =? -1); [|destruct (pid =? 0)];
      repeat first
        [ apply quiet_bind; [|intros ?]
        | apply quiet_emit | apply quiet_ret | apply quiet_halt | apply quiet_lift
        | apply quiet_getpid | apply quiet_getppid
        | match goal with
          | |- quiet (match ?x with _ => _ end) => destruct x
          end ]. }
  destruct Hrun as (w1 & k & -> & Hq & Htrace & Hn).
  destruct (Hq w1) as [[evs Hevs] Hnf]. split.
  - rewrite Hevs, Htrace, !in_app_iff. simpl. auto.
  - congruence.
Qed.

End ShellFacts.

(** C1 does not hold of the code.  On the line ['abc] (an unterminated
    quote) the shell prints the decoder's diagnostic and then dereferences
    the NULL pointer that [unescape] returned: [readCommand] passes it to
    [trim] unchecked, although [commandLoop] tests the command for NULL
    afterwards.  On the line [\18] (a malformed octal escape) it does the
    same without printing any diagnostic.  In neither case does the loop
    reach the next prompt. *)
Theorem decode_failure_crashes_the_shell (os : OS) (prompt : list ascii)
    (stdin : list (list ascii)) (w : world) :
  Shell.commandLoop os prompt (Inputs.line "'abc" :: stdin) w
  = bind (Shell.writePrompt prompt)
      (fun _ => bind (Shell.appendHistory (Some (Inputs.line "'abc")))
      (fun _ => bind (emit (Eprintf "shell error: unterminated quote\n" []))
      (fun _ => halt (Faulted NullDeref)))) w
  /\
  Shell.commandLoop os prompt (Inputs.line "\18" :: stdin) w
  = bind (Shell.writePrompt prompt)
      (fun _ => bind (Shell.appendHistory (Some (Inputs.line "\18")))
      (fun _ => halt (Faulted NullDeref))) w.
Proof.
  destruct w as [trace [file|] heap nforks pid ppid]; split; reflexivity.
Qed.

(** C3 does not hold of the code.  For a command that starts with a
    quote character the dispatcher prints its invalid-command diagnostic
    and then, having no return there, goes on to [processSystemCommand],
    which forks whatever follows the quote: seen from the parent, the
    command [ls] between double quotes is forked and waited for, and the
    dispatcher returns 0. *)
Theorem leading_quote_still_forks (os : OS) (w : world) (rest : list ascii) :
  Shell.processCommand os (DQUOTE :: rest) w
  = bind (emit (Eprintf "ERROR: invalid command\n" []))
         (fun _ => Shell.processSystemCommand os (DQUOTE :: rest)) w
  /\
  Shell.processCommand os (SQUOTE :: rest) w
  = bind (emit (Eprintf "ERROR: invalid command\n" []))
         (fun _ => Shell.processSystemCommand os (SQUOTE :: rest)) w
  /\
  In (Fork (os_fork os (w_nforks w)))
     (w_trace (final_world (Shell.processCommand os (DQUOTE :: rest) w)))
  /\
  In (Fork (os_fork os (w_nforks w)))
     (w_trace (final_world (Shell.processCommand os (SQUOTE :: rest) w)))
  /\
  exists w' : world,
    Shell.processCommand Inputs.os_parent (DQUOTE :: lit "ls" ++ [DQUOTE]) Inputs.w0
    = Done 0 w' /\
    w_trace w'
    = [Eprintf "ERROR: invalid command\n" [];
       Fork 4242;
       Printf "Parent process: My PID is %d, My child's PID is %d\n" [AInt 100; AInt 4242];
       Printf "Parent process: waiting for child to complete...\n" [];
       Wait;
       Printf "Parent process: child completed\n" []].
Proof.
  split; [reflexivity|]. split; [reflexivity|]. split; [|split].
  - apply (ShellFacts.processSystemCommand_forks os (DQUOTE :: rest)
             (add_trace w [Eprintf "ERROR: invalid command\n" []])).
  - apply (ShellFacts.processSystemCommand_forks os (SQUOTE :: rest)
             (add_trace w [Eprintf "ERROR: invalid command\n" []])).
  - eexists. split; vm_compute; reflexivity.
Qed.

(** C6, as stated, fails: [exit now] has [exit] as its first token, yet
    the dispatcher does not terminate the loop; it forks. *)
Lemma exit_with_argument_is_forked :
  exists w' : world,
    Shell.processCommand Inputs.os_parent (lit "exit now") Inputs.w0 = Done 0 w' /\
    In (Fork 4242) (w_trace w') /\ w_nforks w' = 1%nat.
Proof.
  eexists. split; [vm_compute; reflexivity|]. split; [simpl; auto|reflexivity].
Qed.

(** C6, amended.  The command that is exactly [exit] is the exit
    built-in: the dispatcher returns -1 and leaves the world as it was (no
    process is spawned), and the command loop ends after that iteration.
    A command whose first token is [exit] followed by a space and more is
    not the built-in: it goes to [processSystemCommand], which forks. *)
Theorem exit_builtin (os : OS) (prompt : list ascii) (w : world) :
  Shell.processCommand os (lit "exit") w = Done (-1) w /\
  (forall stdin : list (list ascii),
     Shell.commandLoop os prompt (Inputs.line "exit" :: stdin) w
     = bind (Shell.writePrompt prompt)
         (fun _ => bind (Shell.appendHistory (Some (Inputs.line "exit")))
         (fun _ => ret tt)) w) /\
  (forall rest : list ascii,
     Shell.processCommand os (lit "exit " ++ rest) w
     = Shell.processSystemCommand os (lit "exit " ++ rest) w /\
     In (Fork (os_fork os (w_nforks w)))
        (w_trace (final_world (Shell.processCommand os (lit "exit " ++ rest) w)))).
Proof.
  split; [reflexivity|]. split.
  - intros stdin. destruct w as [trace [file|] heap nforks pid ppid]; reflexivity.
  - intros rest. split; [reflexivity|].
    apply (ShellFacts.processSystemCommand_forks os (lit "exit " ++ rest) w).
Qed.

(** C7 does not hold of the code.  With twelve lines in the history file
    before the line of the history command, [readHistory] returns ten
    pointers, to the blocks of lines 3 to 12, after its shifting loop has
    freed the blocks of lines 1 to 10: eight of the ten pointers dangle.
    [printHistory] then reads a freed block, and nothing is printed. *)
Theorem history_after_twelve_lines (os : OS) :
  (exists w' : world,
     Shell.readHistory 10 (Inputs.with_history Inputs.twelve_lines)
     = Done (Some (map Utils.Ptr (seq 2 10) ++ replicate 3 Utils.PNull ++ replicate 7 Utils.Uninit),
             Some 10) w' /\
     w_heap w' = replicate 10 Freed ++ [Live (lit "hostname"); Live (lit "groups"); Freed]) /\
  (exists w' : world,
     Shell.processCommand os (lit "history") (Inputs.with_history Inputs.twelve_lines)
     = Stopped (Faulted UseAfterFree) w' /\ w_trace w' = []).
Proof.
  split; eexists; split; vm_compute; reflexivity.
Qed.

(** The defect behind C7 shows exactly when 11 to 19 lines precede the
    history command: with fewer, nothing is shifted; with 20 or more, the
    entries moved come from beyond the ten that are freed. *)
Example history_by_number_of_lines (os : OS) :
  map (fun n => Inputs.verdict
                  (Shell.processCommand os (lit "history")
                     (Inputs.with_history (Inputs.numbered_history n))))
      (seq 9 13)
  = [inl 0; inl 0] ++ replicate 9 (inr (Faulted UseAfterFree)) ++ [inl 0; inl 0].
Proof. vm_compute. reflexivity. Qed.

(** With twenty lines before the history command, the ten most recent are
    printed, oldest first. *)
Example history_after_twenty_lines (os : OS) :
  w_trace (final_world (Shell.processCommand os (lit "history")
                          (Inputs.with_history (Inputs.numbered_history 20))))
  = map (fun i => Printf "%s\n" [AStr (lit "cmd" ++ [ascii_of_nat (97 + i)])]) (seq 10 10).
Proof. vm_compute. reflexivity. Qed.

Module ProcreadFacts.
Import Utils Shell.

Lemma add_trace_nil (w : world) : add_trace w [] = w.
Proof. destruct w. unfold add_trace. simpl. now rewrite app_nil_r. Qed.

Lemma add_trace_app (w : world) (e1 e2 : list event) :
  add_trace (add_trace w e1) e2 = add_trace w (e1 ++ e2).
Proof. unfold add_trace. simpl. now rewrite app_assoc. Qed.

Lemma emit_spec (e : event) (w : world) : emit e w = Done tt (add_trace w [e]).
Proof. reflexivity. Qed.

(** Streaming a file prints every chunk and cannot fail. *)
Lemma print_chunks_spec (chunks : list (list ascii)) :
  forall w : world,
    print_chunks chunks w
    = Done tt (add_trace w (map (fun buffer => Printf "%s" [AStr (c_str buffer)]) chunks)).
Proof.
  induction chunks as [|buffer chunks IH]; intros w.
  - simpl. now rewrite add_trace_nil.
  - cbn [print_chunks map]. unfold bind. rewrite emit_spec, IH, add_trace_app. reflexivity.
Qed.

Lemma processProcread_relative (os : OS) (fileName : list ascii) (w : world) :
  c_str fileName <> [] ->
  nth 0 (c_str fileName) NUL <> "/" ->
  (length (procread_path (c_str fileName)) < 256)%nat ->
  processProcread os (Some fileName) w
  = match os_fopen os (procread_path (c_str fileName)) with
    | None => Done 1 (add_trace w [Perror "ERROR: Process file not found"])
    | Some contents =>
        Done 0 (add_trace w (map (fun buffer => Printf "%s" [AStr (c_str buffer)])
                                 (fgets_all 1024 [] contents)))
    end.
Proof.
  intros Hne Hrel Hfit. unfold processProcread. cbv zeta.
  destruct (c_str fileName) as [|c f] eqn:E; [congruence|].
  cbn [length Nat.eqb]. simpl nth in *.
  change (nth 0 (c :: f) NUL) with c.
  apply Ascii.eqb_neq in Hrel. rewrite Hrel.
  replace (256 <? S (length (procread_path (c :: f))))%nat with false
    by (symmetry; apply Nat.ltb_ge; lia).
  destruct (os_fopen os (procread_path (c :: f))) as [contents|].
  - unfold bind. now rewrite print_chunks_spec.
  - reflexivity.
Qed.

(** The dispatcher on a procread command with exactly one argument. *)
Lemma processCommand_procread (os : OS) (command : list ascii) (w : world)
    (args : list slot) (buf : list ascii) (a1 : slot) :
  streq command (lit "exit") = false ->
  streq (getProgramName command) (lit "procread") = true ->
  getArgs command = Ok (args, 2%nat, buf) ->
  aget args 1 = Ok a1 ->
  deallocateArgs args 2 = Ok tt ->
  processCommand os command w = processProcread os (token_text buf a1) w.
Proof.
  intros Hexit Hname Hargs Ha1 Hfree. unfold processCommand.
  rewrite Hexit, Hname, Hargs. cbn [lift]. unfold bind, ret.
  change (2 <? 2)%nat with false. cbv beta iota.
  rewrite Ha1. cbn [lift]. unfold ret. rewrite Hfree. cbn [lift]. unfold ret.
  destruct (processProcread os (token_text buf a1) w); reflexivity.
Qed.

End ProcreadFacts.

(** C2, as stated, fails: [procread ../../etc/passwd] is not rejected.
    Where the path /proc/../../etc/passwd opens, the built-in streams the
    file and returns 0. *)
Lemma procread_dot_dot_is_served :
  Shell.processCommand Inputs.os_parent (lit "procread ../../etc/passwd") Inputs.w0
  = Done 0 (add_trace Inputs.w0 [Printf "%s" [AStr (lit "root:x:0:0:root:/root:/bin/sh")]]).
Proof. vm_compute. reflexivity. Qed.

(** C2, amended.  The built-in rejects every argument that starts with
    [/] with its relative-paths-only diagnostic (the spec's InvalidPath).
    Every other non-empty argument that fits the 256-byte buffer is opened
    as the path /proc/ followed by the argument, or as the argument itself
    when it starts with proc/, with no normalisation of [..]: the file is
    streamed when that path opens and the file-not-found diagnostic (the
    spec's FileNotFound) is printed when it does not.  So
    [procread ../../etc/passwd] opens /proc/../../etc/passwd, and
    [procread missingfile] opens /proc/missingfile. *)
Theorem procread_paths (os : OS) (w : world) :
  (forall rest : list ascii,
     Shell.processProcread os (Some ("/" :: rest)) w
     = Done 1 (add_trace w [Eprintf "ERROR: only relative file paths are supported\n" []])) /\
  (forall fileName : list ascii,
     c_str fileName <> [] ->
     nth 0 (c_str fileName) NUL <> "/" ->
     (length (Shell.procread_path (c_str fileName)) < 256)%nat ->
     Shell.processProcread os (Some fileName) w
     = match os_fopen os (Shell.procread_path (c_str fileName)) with
       | None => Done 1 (add_trace w [Perror "ERROR: Process file not found"])
       | Some contents =>
           Done 0 (add_trace w (map (fun buffer => Printf "%s" [AStr (c_str buffer)])
                                    (fgets_all 1024 [] contents)))
       end) /\
  Shell.processCommand os (lit "procread ../../etc/passwd") w
  = match os_fopen os (lit "/proc/../../etc/passwd") with
    | None => Done 1 (add_trace w [Perror "ERROR: Process file not found"])
    | Some contents =>
        Done 0 (add_trace w (map (fun buffer => Printf "%s" [AStr (c_str buffer)])
                                 (fgets_all 1024 [] contents)))
    end /\
  Shell.processCommand os (lit "procread missingfile") w
  = match os_fopen os (lit "/proc/missingfile") with
    | None => Done 1 (add_trace w [Perror "ERROR: Process file not found"])
    | Some contents =>
        Done 0 (add_trace w (map (fun buffer => Printf "%s" [AStr (c_str buffer)])
                                 (fgets_all 1024 [] contents)))
    end.
Proof.
  split; [|split; [|split]].
  - intros rest. reflexivity.
  - intros fileName Hne Hrel Hfit.
    now apply ProcreadFacts.processProcread_relative.
  - erewrite ProcreadFacts.processCommand_procread;
      [|vm_compute; reflexivity..].
    match goal with
    | |- context [Utils.token_text ?b ?a] =>
        let v := eval vm_compute in (Utils.token_text b a) in
        change (Utils.token_text b a) with v
    end.
    rewrite ProcreadFacts.processProcread_relative;
      [reflexivity|vm_compute; discriminate|vm_compute; discriminate|vm_compute; lia].
  - erewrite ProcreadFacts.processCommand_procread;
      [|vm_compute; reflexivity..].
    match goal with
    | |- context [Utils.token_text ?b ?a] =>
        let v := eval vm_compute in (Utils.token_text b a) in
        change (Utils.token_text b a) with v
    end.
    rewrite ProcreadFacts.processProcread_relative;
      [reflexivity|vm_compute; discriminate|vm_compute; discriminate|vm_compute; lia].
Qed.

Lemma procread_paths_witness :
  Shell.processProcread Inputs.os_parent (Some (lit "../../etc/passwd")) Inputs.w0
  = match os_fopen Inputs.os_parent (Shell.procread_path (c_str (lit "../../etc/passwd"))) with
    | None => Done 1 (add_trace Inputs.w0 [Perror "ERROR: Process file not found"])
    | Some contents =>
        Done 0 (add_trace Inputs.w0
                  (map (fun buffer => Printf "%s" [AStr (c_str buffer)])
                       (fgets_all 1024 [] contents)))
    end.
Proof.
  apply (proj1 (proj2 (procread_paths Inputs.os_parent Inputs.w0))).
  - vm_compute. discriminate.
  - vm_compute. discriminate.
  - vm_compute. lia.
Defined.




(** * Further properties *)

(** ** The decoder *)

Module DecoderFacts.
Import Utils.

Lemma none_of_cons (bad : list ascii) (c : ascii) (s : list ascii) :
  none_of bad (c :: s) = true ->
  existsb (Ascii.eqb c) bad = false /\ none_of bad s = true.
Proof.
  unfold none_of. simpl. intros [H1 H2]%andb_true_iff.
  split; [now apply negb_true_iff|exact H2].
Qed.

Lemma none_of_app (bad : list ascii) (a b : list ascii) :
  none_of bad (a ++ b) = true <-> none_of bad a = true /\ none_of bad b = true.
Proof. unfold none_of. rewrite forallb_app. apply andb_true_iff. Qed.

Lemma none_of_no_nul (bad : list ascii) (s : list ascii) :
  none_of (NUL :: bad) s = true -> c_str s = s.
Proof.
  induction s as [|c s IH]; [reflexivity|].
  intros [Hc Hs]%none_of_cons. simpl in Hc. apply orb_false_iff in Hc as [Hc _].
  simpl. rewrite Hc. now rewrite IH.
Qed.

Lemma none_of_weaken (c : ascii) (bad : list ascii) (s : list ascii) :
  none_of (c :: bad) s = true -> none_of bad s = true.
Proof.
  induction s as [|x s IH]; [reflexivity|].
  intros [Hx Hs]%none_of_cons. simpl in Hx. apply orb_false_iff in Hx as [_ Hx].
  unfold none_of in *. simpl. rewrite Hx. simpl. now apply IH.
Qed.

Lemma none_of_sub (bad bad' : list ascii) (s : list ascii) :
  forallb (fun b => existsb (Ascii.eqb b) bad) bad' = true ->
  none_of bad s = true -> none_of bad' s = true.
Proof.
  intros Hsub. induction s as [|c s IH]; [reflexivity|].
  intros [Hc Hs]%none_of_cons.
  change (none_of bad' (c :: s))
    with (negb (existsb (Ascii.eqb c) bad') && none_of bad' s).
  rewrite (IH Hs), andb_true_r. apply negb_true_iff.
  destruct (existsb (Ascii.eqb c) bad') eqn:E; [|reflexivity].
  apply existsb_exists in E as (b & Hin & Hb). apply Ascii.eqb_eq in Hb. subst b.
  rewrite forallb_forall in Hsub. rewrite (Hsub c Hin) in Hc. discriminate Hc.
Qed.

(** Outside quotes, characters other than the backslash and the two quotes
    are copied. *)
Lemma scan_plain (s rest out : list ascii) :
  none_of [BACKSLASH; SQUOTE; DQUOTE] s = true ->
  scan (s ++ rest) NUL out = scan rest NUL (out ++ s).
Proof.
  revert out. induction s as [|c s IH]; intros out H.
  - simpl. now rewrite app_nil_r.
  - apply none_of_cons in H as [Hc Hs]. simpl in Hc.
    apply orb_false_iff in Hc as [Hbs Hc]. apply orb_false_iff in Hc as [Hsq Hc].
    apply orb_false_iff in Hc as [Hdq _].
    change (scan ((c :: s) ++ rest) NUL out) with (scan (c :: s ++ rest) NUL out).
    cbn [scan]. change (is_set NUL) with false. cbn [negb andb].
    change BACKSLASH with "\"%char in Hbs. rewrite Hbs.
    change SQUOTE with "'"%char in Hsq. rewrite Hsq.
    change DQUOTE with "034"%char in Hdq. rewrite Hdq. cbn [orb].
    rewrite IH by exact Hs. now rewrite <- app_assoc.
Qed.

(** Inside a span opened by [q], characters other than the backslash and
    [q] are copied. *)
Lemma scan_quoted (q : ascii) (s rest out : list ascii) :
  is_set q = true ->
  none_of [BACKSLASH; q] s = true ->
  scan (s ++ rest) q out = scan rest q (out ++ s).
Proof.
  intros Hq. revert out. induction s as [|c s IH]; intros out H.
  - simpl. now rewrite app_nil_r.
  - apply none_of_cons in H as [Hc Hs]. simpl in Hc.
    apply orb_false_iff in Hc as [Hbs Hc]. apply orb_false_iff in Hc as [Hcq _].
    change (scan ((c :: s) ++ rest) q out) with (scan (c :: s ++ rest) q out).
    cbn [scan]. rewrite Hq. cbn [negb andb].
    change BACKSLASH with "\"%char in Hbs. rewrite Hbs, Hcq.
    rewrite IH by exact Hs. now rewrite <- app_assoc.
Qed.

Lemma quote_is_set (q : ascii) : q = SQUOTE \/ q = DQUOTE -> is_set q = true.
Proof. intros [->| ->]; reflexivity. Qed.

(** A quote character outside quotes opens a span and is not copied. *)
Lemma scan_open (q : ascii) (rest out : list ascii) :
  q = SQUOTE \/ q = DQUOTE -> scan (q :: rest) NUL out = scan rest q out.
Proof. intros [->| ->]; reflexivity. Qed.

(** The matching quote closes the span and is not copied. *)
Lemma scan_close (q : ascii) (rest out : list ascii) :
  q = SQUOTE \/ q = DQUOTE -> scan (q :: rest) q out = scan rest NUL out.
Proof. intros [->| ->]; reflexivity. Qed.

(** The diagnostics: none with a result, at most one line without. *)
Lemma scan_errf (n : nat) :
  forall str quoted unesc errf r,
    (length str <= n)%nat ->
    scan str quoted unesc = (errf, r) ->
    (r <> None -> errf = []) /\ (length errf <= 1)%nat.
Proof.
  induction n as [|n IH]; intros str quoted unesc errf r Hn Hscan.
  - destruct str; [|simpl in Hn; lia].
    simpl in Hscan. destruct (is_set quoted); inversion Hscan; subst;
      (split; [congruence|simpl; lia]).
  - destruct str as [|c1 [|c2 [|c3 [|c4 s4]]]];
      cbn [scan] in Hscan; cbv zeta in Hscan; unfold failed in Hscan;
      break_scan Hscan;
      try solve [inversion Hscan; subst; (split; [congruence|simpl; lia])];
      apply IH in Hscan; simpl in *; try lia; exact Hscan.
Qed.

Lemma hex_digit_char (upper : bool) (d : nat) :
  (d < 16)%nat -> hex_digit (hex_char upper d) = Some (Z.of_nat d).
Proof.
  intros Hd. destruct upper;
    do 16 (destruct d as [|d]; [reflexivity|]); lia.
Qed.

Lemma octal_char_digit (d : nat) :
  (d < 8)%nat ->
  escape_case (octal_char d) = EscOctal /\ not_octal (octal_char d) = false /\
  zc (octal_char d) - zc "0" = Z.of_nat d.
Proof.
  intros Hd. do 8 (destruct d as [|d]; [repeat split|]); lia.
Qed.

Lemma octal_value (a b c : nat) :
  (a < 8)%nat -> (b < 8)%nat -> (c < 8)%nat ->
  Z.lor (Z.lor (Z.shiftl (Z.of_nat a) 6) (Z.shiftl (Z.of_nat b) 3)) (Z.of_nat c)
  = Z.of_nat (64 * a + 8 * b + c).
Proof.
  intros Ha Hb Hc.
  do 8 (destruct a as [|a]; [do 8 (destruct b as [|b];
         [do 8 (destruct c as [|c]; [reflexivity|]); lia|]); lia|]); lia.
Qed.

Lemma hex_value (a b : nat) :
  (a < 16)%nat -> (b < 16)%nat ->
  Z.lor (Z.shiftl (Z.of_nat a) 4) (Z.of_nat b) = Z.of_nat (16 * a + b).
Proof.
  intros Ha Hb.
  do 16 (destruct a as [|a]; [do 16 (destruct b as [|b]; [reflexivity|]); lia|]); lia.
Qed.

Lemma c_str_app_nonul (a b : list ascii) :
  c_str a = a -> c_str (a ++ b) = a ++ c_str b.
Proof.
  induction a as [|c a IH]; [reflexivity|].
  simpl. destruct (Ascii.eqb c NUL) eqn:E; [discriminate|].
  intros H. injection H as H. now rewrite IH.
Qed.

Lemma char_of_int_nat (n : nat) : char_of_int (Z.of_nat n) = ascii_of_nat (n mod 256).
Proof.
  unfold char_of_int, ascii_of_nat.
  change 256 with (Z.of_nat 256). rewrite <- Nat2Z.inj_mod.
  now rewrite <- nat_N_Z, N2Z.id.
Qed.

(** The octal and the hex escape, well formed and malformed. *)
Lemma scan_octal (a b c : nat) (rest out : list ascii) :
  (a < 8)%nat -> (b < 8)%nat -> (c < 8)%nat ->
  scan (BACKSLASH :: octal_char a :: octal_char b :: octal_char c :: rest) NUL out
  = scan rest NUL (out ++ [ascii_of_nat ((64 * a + 8 * b + c) mod 256)]).
Proof.
  intros Ha Hb Hc.
  destruct (octal_char_digit a Ha) as (Ea & _ & Va).
  destruct (octal_char_digit b Hb) as (_ & Nb & Vb).
  destruct (octal_char_digit c Hc) as (_ & Nc & Vc).
  cbn [scan]. change (is_set NUL) with false. cbn [negb andb].
  change (Ascii.eqb BACKSLASH "\") with true. cbv iota.
  rewrite Ea, Nb, Nc. cbv zeta. rewrite Va, Vb, Vc.
  now rewrite octal_value, char_of_int_nat by assumption.
Qed.

Lemma scan_octal_malformed (a : nat) (tail out : list ascii) :
  (a < 8)%nat ->
  match tail with
  | x :: y :: _ => not_octal x || not_octal y
  | _ => true
  end = true ->
  scan (BACKSLASH :: octal_char a :: tail) NUL out = ([], None).
Proof.
  intros Ha Htail. destruct (octal_char_digit a Ha) as (Ea & _ & _).
  cbn [scan]. change (is_set NUL) with false. cbn [negb andb].
  change (Ascii.eqb BACKSLASH "\") with true. cbv iota. rewrite Ea. cbv zeta.
  destruct tail as [|x [|y tail]]; try reflexivity.
  - destruct (not_octal x); reflexivity.
  - destruct (not_octal x); [reflexivity|]. simpl in Htail. now rewrite Htail.
Qed.

Lemma scan_hex (x : ascii) (u1 u2 : bool) (d1 d2 : nat) (rest out : list ascii) :
  x = "x" \/ x = "X" -> (d1 < 16)%nat -> (d2 < 16)%nat ->
  scan (BACKSLASH :: x :: hex_char u1 d1 :: hex_char u2 d2 :: rest) NUL out
  = scan rest NUL (out ++ [ascii_of_nat (16 * d1 + d2)]).
Proof.
  intros Hx H1 H2.
  assert (Ex : escape_case x = EscHex) by (destruct Hx; subst; reflexivity).
  cbn [scan]. change (is_set NUL) with false. cbn [negb andb].
  change (Ascii.eqb BACKSLASH "\") with true. cbv iota.
  rewrite Ex, !hex_digit_char by assumption. cbv zeta.
  rewrite hex_value, char_of_int_nat by assumption.
  now rewrite Nat.mod_small by lia.
Qed.

Lemma scan_hex_malformed (x : ascii) (tail out : list ascii) :
  x = "x" \/ x = "X" ->
  match tail with
  | h1 :: h2 :: _ =>
      match hex_digit h1, hex_digit h2 with
      | Some _, Some _ => false
      | _, _ => true
      end
  | _ => true
  end = true ->
  scan (BACKSLASH :: x :: tail) NUL out = ([], None).
Proof.
  intros Hx Htail.
  assert (Ex : escape_case x = EscHex) by (destruct Hx; subst; reflexivity).
  cbn [scan]. change (is_set NUL) with false. cbn [negb andb].
  change (Ascii.eqb BACKSLASH "\") with true. cbv iota. rewrite Ex.
  destruct tail as [|h1 [|h2 tail]]; try reflexivity.
  - destruct (hex_digit h1); reflexivity.
  - destruct (hex_digit h1); [|reflexivity].
    destruct (hex_digit h2); [discriminate|reflexivity].
Qed.

(** Text without backslash, quote characters and NUL is decoded to
    itself. *)
Lemma unescape_plain (str : list ascii) :
  none_of [NUL; BACKSLASH; SQUOTE; DQUOTE] str = true ->
  unescape str = ([], Some str).
Proof.
  intros H. unfold unescape. rewrite (none_of_no_nul _ _ H).
  rewrite <- (app_nil_r str) at 1.
  rewrite scan_plain by (eapply none_of_weaken; exact H).
  reflexivity.
Qed.

(** A quoted span after plain text, whatever follows. *)
Lemma scan_span (q : ascii) (pre body rest out : list ascii) :
  q = SQUOTE \/ q = DQUOTE ->
  none_of [NUL; BACKSLASH; SQUOTE; DQUOTE] pre = true ->
  none_of [NUL; BACKSLASH; q] body = true ->
  scan (pre ++ q :: body ++ q :: rest) NUL out = scan rest NUL (out ++ pre ++ body).
Proof.
  intros Hq Hpre Hbody.
  rewrite scan_plain by (eapply none_of_weaken; exact Hpre).
  rewrite scan_open by exact Hq.
  rewrite scan_quoted;
    [|now apply quote_is_set|eapply none_of_weaken; exact Hbody].
  rewrite scan_close by exact Hq. now rewrite <- app_assoc.
Qed.

(** A string without NUL is its own C string. *)
Lemma c_str_span (q : ascii) (pre body post : list ascii) :
  q = SQUOTE \/ q = DQUOTE ->
  c_str pre = pre -> c_str body = body -> c_str post = post ->
  c_str (pre ++ q :: body ++ q :: post) = pre ++ q :: body ++ q :: post.
Proof.
  intros Hq Hpre Hbody Hpost.
  assert (Hqn : Ascii.eqb q NUL = false) by (destruct Hq; subst; reflexivity).
  rewrite c_str_app_nonul by exact Hpre. cbn [c_str]. rewrite Hqn.
  rewrite c_str_app_nonul by exact Hbody. cbn [c_str]. now rewrite Hqn, Hpost.
Qed.

End DecoderFacts.


(** X1.  Text without backslash, quote characters and NUL is decoded to
    itself, with no diagnostic; so decoding it a second time changes
    nothing. *)
Theorem plain_text_is_unchanged (str : list ascii) :
  none_of [NUL; BACKSLASH; SQUOTE; DQUOTE] str = true ->
  Utils.unescape str = ([], Some str) /\
  forall out : list ascii, Utils.unescape str = ([], Some out) -> Utils.unescape out = ([], Some out).
Proof.
  intros H. pose proof (DecoderFacts.unescape_plain str H) as E.
  split; [exact E|]. intros out Hout. rewrite E in Hout. now inversion Hout; subst.
Qed.

Lemma plain_text_is_unchanged_witness :
  Utils.unescape (lit "ls -l /tmp") = ([], Some (lit "ls -l /tmp")).
Proof.
  destruct (plain_text_is_unchanged (lit "ls -l /tmp")) as [H _]; [reflexivity|exact H].
Defined.

(** X2.  A span between two matching quote characters, holding neither
    that quote nor a backslash, is decoded to its contents: the two quotes
    are dropped, everything between them is kept, the other quote
    character and white space included. *)
Theorem quoted_span_is_copied (q : ascii) (pre body post : list ascii) :
  q = SQUOTE \/ q = DQUOTE ->
  none_of [NUL; BACKSLASH; SQUOTE; DQUOTE] pre = true ->
  none_of [NUL; BACKSLASH; q] body = true ->
  none_of [NUL; BACKSLASH; SQUOTE; DQUOTE] post = true ->
  Utils.unescape (pre ++ q :: body ++ q :: post) = ([], Some (pre ++ body ++ post)).
Proof.
  intros Hq Hpre Hbody Hpost. unfold Utils.unescape.
  rewrite DecoderFacts.c_str_span
    by (assumption || (eapply DecoderFacts.none_of_no_nul; eassumption)).
  rewrite DecoderFacts.scan_span by assumption.
  rewrite <- (app_nil_r post) at 1.
  rewrite DecoderFacts.scan_plain by (eapply DecoderFacts.none_of_weaken; exact Hpost).
  simpl. now rewrite <- !app_assoc.
Qed.

Lemma quoted_span_is_copied_witness :
  Utils.unescape (lit "echo " ++ SQUOTE :: (lit "a  " ++ [DQUOTE] ++ lit "b") ++ SQUOTE :: lit " c")
  = ([], Some (lit "echo " ++ (lit "a  " ++ [DQUOTE] ++ lit "b") ++ lit " c")).
Proof.
  apply (quoted_span_is_copied SQUOTE); [left; reflexivity|reflexivity..].
Defined.

(** X3.  A quote that is opened and never closed, with no backslash
    after it, makes [unescape] fail: it returns NULL after printing the
    one line
    "shell error: unterminated quote". *)
Theorem unterminated_quote_fails (q : ascii) (pre body : list ascii) :
  q = SQUOTE \/ q = DQUOTE ->
  none_of [NUL; BACKSLASH; SQUOTE; DQUOTE] pre = true ->
  none_of [NUL; BACKSLASH; q] body = true ->
  Utils.unescape (pre ++ q :: body) = (["shell error: unterminated quote\n"%string], None).
Proof.
  intros Hq Hpre Hbody. unfold Utils.unescape.
  assert (Hqn : Ascii.eqb q NUL = false) by (destruct Hq; subst; reflexivity).
  rewrite DecoderFacts.c_str_app_nonul by (eapply DecoderFacts.none_of_no_nul; exact Hpre).
  cbn [c_str]. rewrite Hqn. rewrite (DecoderFacts.none_of_no_nul _ _ Hbody).
  rewrite DecoderFacts.scan_plain by (eapply DecoderFacts.none_of_weaken; exact Hpre).
  rewrite DecoderFacts.scan_open by exact Hq.
  rewrite <- (app_nil_r body).
  rewrite DecoderFacts.scan_quoted;
    [|now apply DecoderFacts.quote_is_set|eapply DecoderFacts.none_of_weaken; exact Hbody].
  cbn [Utils.scan]. now rewrite DecoderFacts.quote_is_set.
Qed.

Lemma unterminated_quote_fails_witness :
  Utils.unescape (lit "echo " ++ DQUOTE :: lit "abc")
  = (["shell error: unterminated quote\n"%string], None).
Proof.
  apply (unterminated_quote_fails DQUOTE); [right; reflexivity|reflexivity..].
Defined.

(** X4.  Outside quotes, a backslash followed by three octal digits is
    decoded to the one byte whose value is the octal number, reduced
    modulo 256 (so [\400] gives the byte 0).  When the first digit is not
    followed by two more octal digits, [unescape] returns NULL and prints
    nothing. *)
Theorem octal_escape (pre post : list ascii) (a b c : nat) :
  none_of [NUL; BACKSLASH; SQUOTE; DQUOTE] pre = true ->
  none_of [NUL; BACKSLASH; SQUOTE; DQUOTE] post = true ->
  (a < 8)%nat -> (b < 8)%nat -> (c < 8)%nat ->
  Utils.unescape (pre ++ BACKSLASH :: octal_char a :: octal_char b :: octal_char c :: post)
  = ([], Some (pre ++ ascii_of_nat ((64 * a + 8 * b + c) mod 256) :: post)) /\
  forall tail : list ascii,
    match c_str tail with
    | x :: y :: _ => Utils.not_octal x || Utils.not_octal y
    | _ => true
    end = true ->
    Utils.unescape (pre ++ BACKSLASH :: octal_char a :: tail) = ([], None).
Proof.
  intros Hpre Hpost Ha Hb Hc.
  assert (Hd : forall d, (d < 8)%nat -> Ascii.eqb (octal_char d) NUL = false).
  { intros d Hlt. do 8 (destruct d as [|d]; [reflexivity|]). lia. }
  split.
  - unfold Utils.unescape.
    rewrite DecoderFacts.c_str_app_nonul by (eapply DecoderFacts.none_of_no_nul; exact Hpre).
    cbn [c_str]. change (Ascii.eqb BACKSLASH NUL) with false. cbv iota.
    rewrite !Hd by assumption. rewrite (DecoderFacts.none_of_no_nul _ _ Hpost).
    rewrite DecoderFacts.scan_plain by (eapply DecoderFacts.none_of_weaken; exact Hpre).
    rewrite DecoderFacts.scan_octal by assumption.
    rewrite <- (app_nil_r post) at 1.
    rewrite DecoderFacts.scan_plain by (eapply DecoderFacts.none_of_weaken; exact Hpost).
    simpl. now rewrite <- !app_assoc.
  - intros tail Htail. unfold Utils.unescape.
    rewrite DecoderFacts.c_str_app_nonul by (eapply DecoderFacts.none_of_no_nul; exact Hpre).
    cbn [c_str]. change (Ascii.eqb BACKSLASH NUL) with false. cbv iota.
    rewrite Hd by assumption.
    rewrite DecoderFacts.scan_plain by (eapply DecoderFacts.none_of_weaken; exact Hpre).
    now apply DecoderFacts.scan_octal_malformed.
Qed.

Lemma octal_escape_witness :
  Utils.unescape (lit "a" ++ BACKSLASH :: octal_char 1 :: octal_char 0 :: octal_char 1 :: lit "b")
  = ([], Some (lit "a" ++ ascii_of_nat ((64 * 1 + 8 * 0 + 1) mod 256) :: lit "b")) /\
  Utils.unescape (lit "a" ++ BACKSLASH :: octal_char 1 :: lit "8b") = ([], None).
Proof.
  destruct (octal_escape (lit "a") (lit "b") 1 0 1) as [H1 H2];
    [reflexivity|reflexivity|lia|lia|lia|].
  split; [exact H1|]. apply H2. reflexivity.
Defined.

(** X5.  Outside quotes, a backslash followed by [x] or [X] and two hex
    digits, in either case, is decoded to the one byte with that value.
    When the two characters after the [x] are not both hex digits,
    [unescape] returns NULL and prints nothing. *)
Theorem hex_escape (pre post : list ascii) (x : ascii) (u1 u2 : bool) (d1 d2 : nat) :
  none_of [NUL; BACKSLASH; SQUOTE; DQUOTE] pre = true ->
  none_of [NUL; BACKSLASH; SQUOTE; DQUOTE] post = true ->
  x = "x" \/ x = "X" -> (d1 < 16)%nat -> (d2 < 16)%nat ->
  Utils.unescape (pre ++ BACKSLASH :: x :: hex_char u1 d1 :: hex_char u2 d2 :: post)
  = ([], Some (pre ++ ascii_of_nat (16 * d1 + d2) :: post)) /\
  forall tail : list ascii,
    match c_str tail with
    | h1 :: h2 :: _ =>
        match Utils.hex_digit h1, Utils.hex_digit h2 with
        | Some _, Some _ => false
        | _, _ => true
        end
    | _ => true
    end = true ->
    Utils.unescape (pre ++ BACKSLASH :: x :: tail) = ([], None).
Proof.
  intros Hpre Hpost Hx H1 H2.
  assert (Hxn : Ascii.eqb x NUL = false) by (destruct Hx; subst; reflexivity).
  assert (Hd : forall u d, (d < 16)%nat -> Ascii.eqb (hex_char u d) NUL = false).
  { intros u d Hlt. destruct u; do 16 (destruct d as [|d]; [reflexivity|]); lia. }
  split.
  - unfold Utils.unescape.
    rewrite DecoderFacts.c_str_app_nonul by (eapply DecoderFacts.none_of_no_nul; exact Hpre).
    cbn [c_str]. change (Ascii.eqb BACKSLASH NUL) with false. cbv iota.
    rewrite Hxn, !Hd by assumption. rewrite (DecoderFacts.none_of_no_nul _ _ Hpost).
    rewrite DecoderFacts.scan_plain by (eapply DecoderFacts.none_of_weaken; exact Hpre).
    rewrite DecoderFacts.scan_hex by assumption.
    rewrite <- (app_nil_r post) at 1.
    rewrite DecoderFacts.scan_plain by (eapply DecoderFacts.none_of_weaken; exact Hpost).
    simpl. now rewrite <- !app_assoc.
  - intros tail Htail. unfold Utils.unescape.
    rewrite DecoderFacts.c_str_app_nonul by (eapply DecoderFacts.none_of_no_nul; exact Hpre).
    cbn [c_str]. change (Ascii.eqb BACKSLASH NUL) with false. cbv iota. rewrite Hxn.
    rewrite DecoderFacts.scan_plain by (eapply DecoderFacts.none_of_weaken; exact Hpre).
    now apply DecoderFacts.scan_hex_malformed.
Qed.

Lemma hex_escape_witness :
  Utils.unescape (lit "a" ++ BACKSLASH :: "x"%char :: hex_char true 4 :: hex_char false 10 :: lit "b")
  = ([], Some (lit "a" ++ ascii_of_nat (16 * 4 + 10) :: lit "b")) /\
  Utils.unescape (lit "a" ++ BACKSLASH :: "x"%char :: lit "4g") = ([], None).
Proof.
  destruct (hex_escape (lit "a") (lit "b") "x" true false 4 10) as [H1 H2];
    [reflexivity|reflexivity|left; reflexivity|lia|lia|].
  split; [exact H1|]. apply H2. reflexivity.
Defined.

(** X6.  [unescape] prints nothing when it returns a string, and at most
    one line when it returns NULL. *)
Theorem unescape_diagnostics (str : list ascii) (errf : list string)
    (r : option (list ascii)) :
  Utils.unescape str = (errf, r) ->
  (r <> None -> errf = []) /\ (length errf <= 1)%nat.
Proof. intros H. eapply DecoderFacts.scan_errf; [reflexivity|exact H]. Qed.

Lemma unescape_diagnostics_witness :
  (Some (lit "AB") <> None -> @nil string = []) /\ (length (@nil string) <= 1)%nat.
Proof. apply (unescape_diagnostics (lit "\101\x42") [] (Some (lit "AB"))). reflexivity. Defined.

Module TrimFacts.
Import Utils.

Lemma isspace_not_nul (c : ascii) : isspace c = true -> c <> NUL.
Proof. intros H E. subst c. discriminate H. Qed.

Lemma skip_space_split (s : list ascii) :
  exists pre : list ascii,
    s = pre ++ skip_space s /\ forallb isspace pre = true /\
    (forall c rest, skip_space s = c :: rest -> isspace c = false).
Proof.
  induction s as [|c s (pre & E & Hpre & Hfirst)].
  - exists []. split; [reflexivity|]. split; [reflexivity|discriminate].
  - simpl. destruct (isspace c) eqn:Ec.
    + exists (c :: pre). simpl. rewrite Ec, Hpre.
      split; [now f_equal|]. split; [reflexivity|exact Hfirst].
    + exists []. split; [reflexivity|]. split; [reflexivity|].
      intros c' rest H. now inversion H; subst.
Qed.

Lemma last_nonspace_le (s : list ascii) (n : nat) : (last_nonspace s n <= n)%nat.
Proof. induction n as [|n IH]; simpl; [lia|]. destruct (isspace _); lia. Qed.

Lemma last_nonspace_split (s : list ascii) (n : nat) :
  (n <= length s)%nat ->
  forallb isspace (drop (last_nonspace s n) (take n s)) = true /\
  (forall c front, take (last_nonspace s n) s = front ++ [c] -> isspace c = false).
Proof.
  induction n as [|n IH]; intros Hn.
  - simpl. rewrite take_0. split; [reflexivity|]. intros c front H.
    destruct front; discriminate H.
  - simpl. destruct (isspace (nth n s NUL)) eqn:E.
    + destruct IH as [IH1 IH2]; [lia|]. split; [|exact IH2].
      destruct (lookup_lt_is_Some_2 s n) as [x Hx]; [lia|].
      rewrite (take_S_r s n x Hx).
      rewrite drop_app_le by (rewrite length_take; pose proof (last_nonspace_le s n); lia).
      rewrite forallb_app, IH1. simpl.
      assert (nth n s NUL = x) as <-; [|now rewrite E].
      apply nth_lookup_Some with (d := NUL) in Hx. exact Hx.
    + split.
      * rewrite drop_ge; [reflexivity|]. rewrite length_take. lia.
      * intros c front H.
        destruct (lookup_lt_is_Some_2 s n) as [x Hx]; [lia|].
        rewrite (take_S_r s n x Hx) in H. apply app_inj_tail in H as [_ <-].
        apply nth_lookup_Some with (d := NUL) in Hx. now rewrite <- Hx.
Qed.

Lemma skip_space_no_nul (s : list ascii) :
  c_str s = s -> c_str (skip_space s) = skip_space s.
Proof.
  induction s as [|c s IH]; [reflexivity|]. intros H. simpl in *.
  destruct (Ascii.eqb c NUL) eqn:E; [discriminate|]. injection H as H.
  destruct (isspace c); [now apply IH|]. simpl. now rewrite E, H.
Qed.

Lemma c_str_idem (s : list ascii) : c_str (c_str s) = c_str s.
Proof.
  induction s as [|c s IH]; [reflexivity|]. simpl.
  destruct (Ascii.eqb c NUL) eqn:E; [reflexivity|]. simpl. now rewrite E, IH.
Qed.

Lemma skip_space_fixed (t : list ascii) :
  (forall c rest, t = c :: rest -> isspace c = false) -> skip_space t = t.
Proof. destruct t as [|c t]; [reflexivity|]. intros H. simpl. now rewrite (H c t eq_refl). Qed.

Lemma last_nonspace_fixed (t : list ascii) :
  (forall c front, t = front ++ [c] -> isspace c = false) ->
  last_nonspace t (length t) = length t.
Proof.
  intros H. destruct (length t) as [|n] eqn:El; [reflexivity|]. simpl.
  destruct (exists_last (l := t)) as (front & c & E).
  { intros ->. discriminate El. }
  assert (Hn : nth n t NUL = c).
  { subst t. rewrite length_app in El. simpl in El.
    rewrite app_nth2 by lia. replace (n - length front)%nat with 0%nat by lia. reflexivity. }
  now rewrite Hn, (H c front E).
Qed.

(** The result of [trim] lies inside the string, between white space,
    and does not start with white space. *)
Lemma trim_split (s : list ascii) :
  exists pre t post : list ascii,
    trim (Some s) = Ok t /\ c_str s = pre ++ t ++ post /\
    (forall c rest, t = c :: rest -> isspace c = false).
Proof.
  destruct (skip_space_split (c_str s)) as (pre & E & _ & Hfirst).
  set (s1 := skip_space (c_str s)) in *.
  assert (Hs1 : c_str s1 = s1) by apply skip_space_no_nul, c_str_idem.
  set (k := last_nonspace s1 (length s1)).
  exists pre, (take k s1), (drop k s1).
  split; [unfold trim; cbn; fold s1; now rewrite Hs1|].
  split; [now rewrite take_drop|].
  intros c rest H. destruct s1 as [|c' s1']; [rewrite take_nil in H; discriminate|].
  destruct k; [discriminate|]. simpl in H. injection H as -> _. now apply (Hfirst c s1').
Qed.

End TrimFacts.

(** X7.  [trim] removes white space at the two ends of the string and
    nothing else: the string is the result between two runs of white
    space, the result neither starts nor ends with a white-space
    character, and trimming the result again gives it back. *)
Theorem trim_removes_outer_space (s : list ascii) :
  exists pre t post : list ascii,
    Utils.trim (Some s) = Ok t /\
    c_str s = pre ++ t ++ post /\
    forallb isspace pre = true /\ forallb isspace post = true /\
    (forall c rest, t = c :: rest -> isspace c = false) /\
    (forall c front, t = front ++ [c] -> isspace c = false) /\
    Utils.trim (Some t) = Ok t.
Proof.
  destruct (TrimFacts.skip_space_split (c_str s)) as (pre & E & Hpre & Hfirst).
  set (s1 := Utils.skip_space (c_str s)) in *.
  assert (Hs1 : c_str s1 = s1).
  { apply TrimFacts.skip_space_no_nul, TrimFacts.c_str_idem. }
  destruct (TrimFacts.last_nonspace_split s1 (length s1)) as [Hpost Hlast]; [lia|].
  rewrite firstn_all in Hpost.
  set (k := Utils.last_nonspace s1 (length s1)) in *.
  assert (Ht : Utils.trim (Some s) = Ok (take k s1)).
  { unfold Utils.trim. cbn. fold s1. now rewrite Hs1. }
  assert (Hfirst' : forall c rest, take k s1 = c :: rest -> isspace c = false).
  { intros c rest H. destruct s1 as [|c' s1'].
    - rewrite take_nil in H. discriminate.
    - destruct k; [discriminate|]. simpl in H. injection H as -> _.
      now apply (Hfirst c s1'). }
  exists pre, (take k s1), (drop k s1).
  split; [exact Ht|]. split; [now rewrite take_drop|].
  split; [exact Hpre|]. split; [exact Hpost|]. split; [exact Hfirst'|].
  split; [exact Hlast|].
  assert (Hc : c_str (take k s1) = take k s1).
  { apply c_str_id. apply Forall_take. rewrite <- Hs1. apply c_str_no_nul. }
  unfold Utils.trim. cbn. rewrite Hc, (TrimFacts.skip_space_fixed _ Hfirst'), Hc.
  rewrite (TrimFacts.last_nonspace_fixed _ Hlast). now rewrite firstn_all.
Qed.

(** ** The tokenizer on commands without double quotes *)

Module WordFacts.
Import Utils.

Lemma is_blank_char (c : ascii) :
  is_blank c = true -> Ascii.eqb c NUL = false /\ Ascii.eqb c DQUOTE = false.
Proof.
  unfold is_blank. intros [H|H]%orb_true_iff; apply Ascii.eqb_eq in H; subst c; now split.
Qed.

(** A word character: not NUL, not a double quote, not a blank. *)
Lemma word_char (c : ascii) (w : list ascii) :
  none_of [NUL; DQUOTE; " "; "009"] (c :: w) = true ->
  Ascii.eqb c NUL = false /\ Ascii.eqb c DQUOTE = false /\ is_blank c = false /\
  none_of [NUL; DQUOTE; " "; "009"] w = true.
Proof.
  unfold none_of. simpl. intros [H1 H2]%andb_true_iff.
  apply negb_true_iff in H1.
  apply orb_false_iff in H1 as [Ha H1]. apply orb_false_iff in H1 as [Hb H1].
  apply orb_false_iff in H1 as [Hc H1]. apply orb_false_iff in H1 as [Hd _].
  unfold is_blank. rewrite Ha, Hb, Hc, Hd. now repeat split.
Qed.

Lemma plain_char (c : ascii) (r : list ascii) :
  none_of [NUL; DQUOTE] (c :: r) = true ->
  Ascii.eqb c NUL = false /\ Ascii.eqb c DQUOTE = false /\ none_of [NUL; DQUOTE] r = true.
Proof.
  unfold none_of. simpl. intros [H1 H2]%andb_true_iff.
  apply negb_true_iff in H1.
  apply orb_false_iff in H1 as [Ha H1]. apply orb_false_iff in H1 as [Hb _].
  now repeat split.
Qed.

Lemma word_no_nul (w : list ascii) :
  none_of [NUL; DQUOTE; " "; "009"] w = true -> c_str w = w.
Proof.
  induction w as [|c w IH]; [reflexivity|].
  intros (Hn & _ & _ & Hw)%word_char. simpl. now rewrite Hn, IH.
Qed.

(** A string is a run of blanks followed by a rest that does not start
    with a blank. *)
Lemma blank_run (s : list ascii) :
  exists bl rest : list ascii,
    s = bl ++ rest /\ forallb is_blank bl = true /\ is_blank (hd "a" rest) = false.
Proof.
  induction s as [|c s (bl & rest & E & Hbl & Hrest)].
  - exists [], []. now repeat split.
  - destruct (is_blank c) eqn:Ec.
    + exists (c :: bl), rest. simpl. rewrite Ec, Hbl. subst s. now repeat split.
    + exists [], (c :: s). simpl. now repeat split.
Qed.

(** A string without NUL and double quote is a word followed by a rest
    that is empty or starts with a blank. *)
Lemma word_run (s : list ascii) :
  none_of [NUL; DQUOTE] s = true ->
  exists w rest : list ascii,
    s = w ++ rest /\ none_of [NUL; DQUOTE; " "; "009"] w = true /\
    none_of [NUL; DQUOTE] rest = true /\ is_blank (hd " " rest) = true.
Proof.
  induction s as [|c s IH]; intros Hs.
  - exists [], []. now repeat split.
  - pose proof (plain_char _ _ Hs) as (Hn & Hq & Hs').
    destruct (is_blank c) eqn:Ec.
    + exists [], (c :: s). simpl. now repeat split.
    + destruct (IH Hs') as (w & rest & E & Hw & Hrest & Hhd).
      exists (c :: w), rest. subst s. split; [reflexivity|]. split; [|now split].
      unfold is_blank in Ec. apply orb_false_iff in Ec as [E1 E2].
      change (none_of [NUL; DQUOTE; " "; "009"] (c :: w))
        with (negb (existsb (Ascii.eqb c) [NUL; DQUOTE; " "; "009"])
              && none_of [NUL; DQUOTE; " "; "009"] w).
      cbn [existsb]. now rewrite Hw, Hn, Hq, E1, E2.
Qed.

Lemma words_from_word (w : list ascii) :
  forall cur rest : list ascii,
    none_of [NUL; DQUOTE; " "; "009"] w = true ->
    words_from cur (w ++ rest) = words_from (cur ++ w) rest.
Proof.
  induction w as [|c w IH]; intros cur rest Hw.
  - now rewrite app_nil_r.
  - apply word_char in Hw as (_ & _ & Hb & Hw). simpl. rewrite Hb.
    rewrite IH by exact Hw. now rewrite <- app_assoc.
Qed.

Lemma words_word (w r : list ascii) :
  w <> [] -> none_of [NUL; DQUOTE; " "; "009"] w = true ->
  is_blank (hd " " r) = true ->
  words (w ++ r) = w :: words r.
Proof.
  intros Hne Hw Hr. unfold words. rewrite words_from_word by exact Hw. simpl.
  destruct r as [|b r]; simpl in *.
  - destruct w; [contradiction|reflexivity].
  - rewrite Hr. destruct w; [contradiction|reflexivity].
Qed.

Lemma words_blanks (bl r : list ascii) :
  forallb is_blank bl = true -> words (bl ++ r) = words r.
Proof.
  induction bl as [|b bl IH]; [reflexivity|]. simpl.
  intros [Hb Hbl]%andb_true_iff. unfold words in *. simpl. rewrite Hb. now apply IH.
Qed.

Lemma rd_at (pre : list ascii) (c : ascii) (x : list ascii) :
  rd (pre ++ c :: x) (length pre) = Ok c.
Proof. unfold rd. now rewrite list_lookup_middle. Qed.

Lemma wr_at (pre : list ascii) (c d : ascii) (x : list ascii) :
  wr (pre ++ c :: x) (length pre) d = Ok (pre ++ d :: x).
Proof.
  unfold wr. rewrite decide_True by (rewrite length_app; simpl; lia).
  f_equal. rewrite insert_app_r_alt by lia. now rewrite Nat.sub_diag.
Qed.

Lemma rd_middle (pre x : list ascii) :
  x <> [] -> rd (pre ++ x) (length pre) = Ok (hd NUL x).
Proof. destruct x as [|c x]; [contradiction|]. intros _. apply rd_at. Qed.

Lemma skip_blank_from_run (bl : list ascii) :
  forall (x : list ascii) (p : nat),
    forallb is_blank bl = true -> x <> [] ->
    negb (Ascii.eqb (hd NUL x) NUL) && is_blank (hd NUL x) = false ->
    skip_blank_from (bl ++ x) p = Ok (p + length bl)%nat.
Proof.
  induction bl as [|b bl IH]; intros x p Hbl Hx Hhd.
  - destruct x as [|c x]; [contradiction|]. simpl in *. rewrite Hhd. f_equal. lia.
  - simpl in Hbl. apply andb_true_iff in Hbl as [Hb Hbl].
    destruct (is_blank_char b Hb) as [Hn _]. simpl. rewrite Hn, Hb. simpl.
    rewrite IH by assumption. f_equal. lia.
Qed.

Lemma skip_blank_run (pre bl x : list ascii) :
  forallb is_blank bl = true -> x <> [] ->
  negb (Ascii.eqb (hd NUL x) NUL) && is_blank (hd NUL x) = false ->
  skip_blank (pre ++ bl ++ x) (length pre) = Ok (length pre + length bl)%nat.
Proof.
  intros. unfold skip_blank. rewrite drop_app_length. now apply skip_blank_from_run.
Qed.

Lemma step_stop (fuel max_tokens : nat) (buf : list ascii) (tokens : list slot)
    (count : nat) (in_quote : bool) (p : nat) (c : ascii) :
  rd buf p = Ok c ->
  Ascii.eqb c NUL || negb (count <? max_tokens)%nat = true ->
  tok_loop (S fuel) max_tokens (TokState buf tokens count in_quote p)
  = Ok (TokState buf tokens count in_quote p).
Proof.
  intros Hrd Hc. rewrite TokenizerFacts.tok_loop_S. rewrite Hrd. cbn [mbind res_bind].
  now rewrite Hc.
Qed.

Lemma step_word (fuel max_tokens : nat) (buf : list ascii) (tokens : list slot)
    (count p : nat) (c : ascii) :
  rd buf p = Ok c -> Ascii.eqb c NUL = false -> (count <? max_tokens)%nat = true ->
  Ascii.eqb c DQUOTE = false -> is_blank c = false ->
  tok_loop (S fuel) max_tokens (TokState buf tokens count false p)
  = tok_loop fuel max_tokens (TokState buf tokens count false (S p)).
Proof.
  intros Hrd Hn Hlt Hq Hb. rewrite TokenizerFacts.tok_loop_S. rewrite Hrd.
  cbn [mbind res_bind]. rewrite Hn, Hlt. cbn [orb negb].
  change (Ascii.eqb c "034") with (Ascii.eqb c DQUOTE). rewrite Hq.
  rewrite Hrd. cbn [mbind res_bind]. now rewrite Hb.
Qed.

Lemma step_blank (fuel max_tokens : nat) (buf buf1 : list ascii) (tokens : list slot)
    (count p p1 : nat) (c c1 : ascii) :
  rd buf p = Ok c -> (count <? max_tokens)%nat = true -> is_blank c = true ->
  wr buf p NUL = Ok buf1 -> skip_blank buf1 (S p) = Ok p1 -> rd buf1 p1 = Ok c1 ->
  tok_loop (S fuel) max_tokens (TokState buf tokens count false p)
  = if negb (Ascii.eqb c1 NUL) then
      tokens ← store tokens count (Ptr p1);
      tok_loop fuel max_tokens (TokState buf1 tokens (S count) false p1)
    else tok_loop fuel max_tokens (TokState buf1 tokens count false p1).
Proof.
  intros Hrd Hlt Hb Hwr Hskip Hrd1. destruct (is_blank_char c Hb) as [Hn Hq].
  rewrite TokenizerFacts.tok_loop_S. rewrite Hrd.
  cbn [mbind res_bind]. rewrite Hn, Hlt. cbn [orb negb].
  change (Ascii.eqb c "034") with (Ascii.eqb c DQUOTE). rewrite Hq.
  rewrite Hrd. cbn [mbind res_bind]. rewrite Hb, Hwr. cbn [mbind res_bind].
  rewrite Hskip. cbn [mbind res_bind]. rewrite Hrd1. reflexivity.
Qed.

(** The main loop, started at the beginning of, or inside, the word [w]
    that is followed by [r]: it finds the words of [r], up to the limit,
    and ends the word [w] with a NUL. *)
Lemma tok_run (max_tokens : nat) (n : nat) :
  forall (w r pre : list ascii) (tokens : list slot) (count fuel : nat),
    (length (w ++ r) <= n)%nat ->
    none_of [NUL; DQUOTE; " "; "009"] w = true ->
    none_of [NUL; DQUOTE] r = true ->
    is_blank (hd " " r) = true ->
    (length (w ++ r) < fuel)%nat ->
    (count <= max_tokens <= length tokens)%nat ->
    exists (buf' : list ascii) (tokens' : list slot) (p' : nat),
      tok_loop fuel max_tokens
               (TokState (pre ++ w ++ r ++ [NUL]) tokens count false (length pre))
      = Ok (TokState buf' tokens' (Nat.min (count + length (words r)) max_tokens) false p') /\
      length tokens' = length tokens /\
      (forall j : nat, (j < count)%nat -> tokens' !! j = tokens !! j) /\
      ((count + length (words r) < max_tokens)%nat ->
       (exists tail : list ascii, buf' = pre ++ w ++ NUL :: tail) /\
       (forall (j : nat) (word : list ascii),
          words r !! j = Some word ->
          exists q : nat,
            tokens' !! (count + j)%nat = Some (Ptr q) /\ c_str (drop q buf') = word)).
Proof.
  induction n as [|n IH]; intros w r pre tokens count fuel Hlen Hw Hr Hhd Hfuel Hcount.
  - (* nothing left but the terminator *)
    destruct w; [|simpl in Hlen; lia]. destruct r; [|simpl in Hlen; lia].
    destruct fuel as [|fuel]; [simpl in Hfuel; lia|].
    exists (pre ++ [NUL]), tokens, (length pre).
    change (pre ++ [] ++ [] ++ [NUL]) with (pre ++ [NUL]).
    change (length (words [])) with 0%nat.
    rewrite (step_stop _ _ _ _ _ _ _ NUL) by (apply rd_at || reflexivity).
    replace (Nat.min (count + 0) max_tokens) with count by lia.
    repeat split; try reflexivity.
    + now exists [].
    + intros j word Hj. discriminate Hj.
  - destruct fuel as [|fuel]; [lia|].
    destruct (count <? max_tokens)%nat eqn:Hlt.
    2:{ (* the limit is reached: the loop stops where it is *)
        apply Nat.ltb_ge in Hlt.
        assert (Hrd : exists c, rd (pre ++ w ++ r ++ [NUL]) (length pre) = Ok c).
        { destruct (w ++ r ++ [NUL]) as [|c x] eqn:E.
          - destruct w; [destruct r|]; discriminate E.
          - exists c. apply rd_at. }
        destruct Hrd as [c Hrd].
        exists (pre ++ w ++ r ++ [NUL]), tokens, (length pre).
        rewrite (step_stop _ _ _ _ _ _ _ c Hrd)
          by (apply orb_true_iff; right; apply negb_true_iff, Nat.ltb_ge; lia).
        replace (Nat.min (count + length (words r)) max_tokens) with count by lia.
        repeat split; try reflexivity; lia. }
    apply Nat.ltb_lt in Hlt.
    destruct w as [|c w].
    + destruct r as [|b r].
      * (* at the terminator *)
        exists (pre ++ [NUL]), tokens, (length pre).
        change (pre ++ [] ++ [] ++ [NUL]) with (pre ++ [NUL]).
        change (length (words [])) with 0%nat.
        rewrite (step_stop _ _ _ _ _ _ _ NUL) by (apply rd_at || reflexivity).
        replace (Nat.min (count + 0) max_tokens) with count by lia.
        repeat split; try reflexivity.
        -- now exists [].
        -- intros j word Hj. discriminate Hj.
      * (* at the blank that ends a word *)
        simpl in Hhd. apply plain_char in Hr as (_ & _ & Hr).
        destruct (blank_run r) as (bl & r2 & -> & Hbl & Hr2).
        apply DecoderFacts.none_of_app in Hr as [_ Hr2p].
        destruct (word_run r2 Hr2p) as (w2 & r3 & -> & Hw2 & Hr3 & Hhd3).
        set (pre' := pre ++ NUL :: bl).
        assert (Hbuf1 : pre ++ NUL :: (bl ++ w2 ++ r3) ++ [NUL]
                        = pre' ++ w2 ++ r3 ++ [NUL]).
        { unfold pre'. now rewrite <- !app_assoc. }
        assert (Hskip : skip_blank (pre ++ NUL :: (bl ++ w2 ++ r3) ++ [NUL]) (S (length pre))
                        = Ok (length pre')).
        { replace (pre ++ NUL :: (bl ++ w2 ++ r3) ++ [NUL])
            with ((pre ++ [NUL]) ++ bl ++ (w2 ++ r3 ++ [NUL]))
            by (now rewrite <- !app_assoc).
          replace (S (length pre)) with (length (pre ++ [NUL]))
            by (rewrite length_app; simpl; lia).
          rewrite skip_blank_run.
          - f_equal. unfold pre'. rewrite !length_app. simpl. lia.
          - exact Hbl.
          - destruct w2; [destruct r3|]; discriminate.
          - destruct w2 as [|c2 w2].
            + destruct r3 as [|c3 r3]; [reflexivity|]. simpl in *. congruence.
            + apply word_char in Hw2 as (_ & _ & Hb2 & _). simpl. rewrite Hb2.
              apply andb_false_r. }
        assert (Hwords : words (b :: bl ++ w2 ++ r3) = words (w2 ++ r3)).
        { change (b :: bl ++ w2 ++ r3) with ((b :: bl) ++ w2 ++ r3).
          apply words_blanks. simpl. now rewrite Hhd, Hbl. }
        simpl in Hlen, Hfuel. rewrite !length_app in Hlen, Hfuel.
        destruct w2 as [|c2 w2].
        -- (* only blanks were left *)
           assert (r3 = []) as ->.
           { destruct r3 as [|c3 r3]; [reflexivity|]. simpl in *. congruence. }
           destruct (IH [] [] pre' tokens count fuel) as (buf' & tokens' & p' & Hrun & Hl & Hold & Hnew);
             [simpl; lia|reflexivity|reflexivity|reflexivity|simpl; lia|lia|].
           exists buf', tokens', p'.
           rewrite (step_blank _ _ _ _ _ _ _ _ b NUL (rd_at _ _ _)
                      (proj2 (Nat.ltb_lt _ _) Hlt) Hhd (wr_at _ _ _ _) Hskip)
             by (rewrite Hbuf1; apply rd_at).
           cbn [Ascii.eqb negb]. change (Ascii.eqb NUL NUL) with true. cbn [negb].
           cbv beta iota. rewrite Hbuf1. simpl app at 1 in Hrun.
           rewrite Hwords. change ([] ++ []) with (@nil ascii).
           simpl in Hrun. simpl. rewrite Hrun.
           split; [reflexivity|]. split; [exact Hl|]. split; [exact Hold|].
           intros Hlim. destruct (Hnew Hlim) as [(tail & Htail) _]. split.
           ++ exists (bl ++ NUL :: tail). rewrite Htail. unfold pre'.
              simpl. now rewrite <- !app_assoc.
           ++ intros j word Hj. discriminate Hj.
        -- (* a new word starts *)
           assert (Hstore : store tokens count (Ptr (length pre'))
                            = Ok (<[count:=Ptr (length pre')]> tokens)).
           { unfold store. now rewrite decide_True by lia. }
           destruct (IH (c2 :: w2) r3 pre' (<[count:=Ptr (length pre')]> tokens) (S count) fuel)
             as (buf' & tokens' & p' & Hrun & Hl & Hold & Hnew);
             [rewrite length_app; simpl in *; lia|exact Hw2|exact Hr3|exact Hhd3
             |rewrite length_app; simpl in *; lia|rewrite length_insert; lia|].
           rewrite length_insert in Hl.
           pose proof (word_char _ _ Hw2) as (Hn2 & _ & _ & _).
           exists buf', tokens', p'.
           rewrite (step_blank _ _ _ _ _ _ _ _ b c2 (rd_at _ _ _)
                      (proj2 (Nat.ltb_lt _ _) Hlt) Hhd (wr_at _ _ _ _) Hskip)
             by (rewrite Hbuf1; apply rd_at).
           rewrite Hn2. cbn [negb]. cbv iota. rewrite Hstore. cbn [mbind res_bind].
           rewrite Hbuf1, Hrun, Hwords.
           rewrite (words_word (c2 :: w2) r3) by (assumption || discriminate).
           cbn [length]. replace (count + S (length (words r3)))%nat
             with (S count + length (words r3))%nat by lia.
           split; [reflexivity|]. split; [exact Hl|]. split.
           ++ intros j Hj. rewrite Hold by lia. apply list_lookup_insert_ne. lia.
           ++ intros Hlim. destruct (Hnew Hlim) as [(tail & Htail) Htok]. split.
              ** exists (bl ++ (c2 :: w2) ++ NUL :: tail). rewrite Htail. unfold pre'.
                 simpl. now rewrite <- !app_assoc.
              ** intros [|j] word Hj.
                 --- injection Hj as <-. exists (length pre').
                     rewrite Nat.add_0_r. split.
                     +++ rewrite Hold by lia. apply list_lookup_insert_eq. lia.
                     +++ rewrite Htail, drop_app_length.
                         rewrite DecoderFacts.c_str_app_nonul by (now apply word_no_nul).
                         simpl. now rewrite app_nil_r.
                 --- destruct (Htok j word Hj) as (q & Hq & Htext). exists q.
                     split; [|exact Htext]. rewrite <- Hq. f_equal. lia.
    + (* inside a word *)
      pose proof (word_char _ _ Hw) as (Hn & Hq & Hb & Hw').
      destruct (IH w r (pre ++ [c]) tokens count fuel)
        as (buf' & tokens' & p' & Hrun & Hl & Hold & Hnew);
        [simpl in Hlen; lia|exact Hw'|exact Hr|exact Hhd|simpl in Hfuel; lia|lia|].
      exists buf', tokens', p'.
      change (pre ++ (c :: w) ++ r ++ [NUL]) with (pre ++ c :: (w ++ r ++ [NUL])).
      rewrite (step_word _ _ _ _ _ _ c (rd_at _ _ _) Hn (proj2 (Nat.ltb_lt _ _) Hlt) Hq Hb).
      replace (pre ++ c :: w ++ r ++ [NUL]) with ((pre ++ [c]) ++ w ++ r ++ [NUL])
        by (now rewrite <- app_assoc).
      replace (S (length pre)) with (length (pre ++ [c]))
        by (rewrite length_app; simpl; lia).
      rewrite Hrun. split; [reflexivity|]. split; [exact Hl|]. split; [exact Hold|].
      intros Hlim. destruct (Hnew Hlim) as [(tail & Htail) Htok]. split; [|exact Htok].
      exists tail. rewrite Htail. now rewrite <- !app_assoc.
Qed.

(** [parse_quoted_tokens] on the copy of a command without double
    quotes. *)
Lemma parse_unquoted (s : list ascii) (tokens : list slot) (max_tokens : nat) :
  none_of [NUL; DQUOTE] s = true -> (1 <= max_tokens <= length tokens)%nat ->
  exists (buf' : list ascii) (tokens' : list slot),
    parse_quoted_tokens (buffer_of s) tokens max_tokens
    = Ok (Nat.min (length (words s)) max_tokens, buf', tokens') /\
    length tokens' = length tokens /\
    ((length (words s) < max_tokens)%nat ->
     forall (j : nat) (word : list ascii),
       words s !! j = Some word ->
       exists q : nat, tokens' !! j = Some (Ptr q) /\ c_str (drop q buf') = word) /\
    (is_blank (hd " " s) = false -> tokens' !! 0%nat = Some (Ptr 0)).
Proof.
  intros Hs Hmax. unfold buffer_of. rewrite (DecoderFacts.none_of_no_nul _ _ Hs).
  destruct (blank_run s) as (bl & r2 & -> & Hbl & Hr2).
  apply DecoderFacts.none_of_app in Hs as [_ Hr2p].
  destruct (word_run r2 Hr2p) as (w & r3 & -> & Hw & Hr3 & Hhd3).
  replace ((bl ++ w ++ r3) ++ [NUL]) with (bl ++ w ++ r3 ++ [NUL])
    by (now rewrite <- !app_assoc).
  assert (Hskip : skip_blank (bl ++ w ++ r3 ++ [NUL]) 0 = Ok (length bl)).
  { change (bl ++ w ++ r3 ++ [NUL]) with ([] ++ bl ++ (w ++ r3 ++ [NUL])).
    change 0%nat with (length (@nil ascii)). rewrite skip_blank_run.
    - reflexivity.
    - exact Hbl.
    - destruct w; [destruct r3|]; discriminate.
    - destruct w as [|c w].
      + destruct r3 as [|c3 r3]; [reflexivity|]. simpl in *. congruence.
      + apply word_char in Hw as (_ & _ & Hb & _). simpl. rewrite Hb.
        apply andb_false_r. }
  assert (Hrd : rd (bl ++ w ++ r3 ++ [NUL]) (length bl) = Ok (hd NUL (w ++ r3 ++ [NUL]))).
  { apply rd_middle. destruct w; [destruct r3|]; discriminate. }
  unfold parse_quoted_tokens. rewrite Hskip. cbn [mbind res_bind].
  rewrite Hrd. cbn [mbind res_bind].
  rewrite words_blanks by exact Hbl.
  destruct w as [|c w].
  - assert (r3 = []) as ->.
    { destruct r3 as [|c3 r3]; [reflexivity|]. simpl in *. congruence. }
    destruct (tok_run max_tokens 0 [] [] bl tokens 0 (S (length (bl ++ [] ++ [] ++ [NUL]))))
      as (buf' & tokens' & p' & Hrun & Hl & _ & Hnew);
      [simpl; lia|reflexivity|reflexivity|reflexivity|simpl; lia|lia|].
    exists buf', tokens'.
    change (hd NUL ([] ++ [] ++ [NUL])) with NUL.
    change (negb (Ascii.eqb NUL NUL)) with false. cbv iota. cbn [mbind res_bind].
    rewrite Hrun. cbn [mbind res_bind].
    change (words ([] ++ [])) with (@nil (list ascii)) in *. cbn [length Nat.add].
    split; [reflexivity|]. split; [exact Hl|]. split.
    + intros _ j word Hj. discriminate Hj.
    + intros Hb. destruct bl as [|b bl]; [discriminate Hb|].
      simpl in Hb, Hbl. rewrite Hb in Hbl. discriminate Hbl.
  - pose proof (word_char _ _ Hw) as (Hn & _ & Hb & _).
    assert (Hstore : store tokens 0 (Ptr (length bl)) = Ok (<[0%nat:=Ptr (length bl)]> tokens)).
    { unfold store. now rewrite decide_True by lia. }
    destruct (tok_run max_tokens (length ((c :: w) ++ r3)) (c :: w) r3 bl
                      (<[0%nat:=Ptr (length bl)]> tokens) 1
                      (S (length (bl ++ (c :: w) ++ r3 ++ [NUL]))))
      as (buf' & tokens' & p' & Hrun & Hl & Hold & Hnew);
      [lia|exact Hw|exact Hr3|exact Hhd3|rewrite !length_app; simpl; lia
      |rewrite length_insert; lia|].
    rewrite length_insert in Hl.
    exists buf', tokens'.
    change (hd NUL ((c :: w) ++ r3 ++ [NUL])) with c. rewrite Hn. cbn [negb]. cbv iota.
    rewrite Hstore. cbn [mbind res_bind].
    rewrite Hrun. cbn [mbind res_bind].
    rewrite (words_word (c :: w) r3) in * by (assumption || discriminate).
    cbn [length]. split; [reflexivity|]. split; [exact Hl|].
    assert (Hfirst : tokens' !! 0%nat = Some (Ptr (length bl))).
    { rewrite Hold by lia. apply list_lookup_insert_eq. lia. }
    split.
    + intros Hlim. destruct (Hnew Hlim) as [(tail & Htail) Htok].
      intros [|j] word Hj.
      * injection Hj as <-. exists (length bl). split; [exact Hfirst|].
        rewrite Htail, drop_app_length.
        rewrite DecoderFacts.c_str_app_nonul by (now apply word_no_nul).
        simpl. now rewrite app_nil_r.
      * destruct (Htok j word Hj) as (q & Hq & Htext). exists q. split; [exact Hq|exact Htext].
    + intros Hb0. destruct bl as [|b bl]; [exact Hfirst|].
      simpl in Hb0, Hbl. rewrite Hb0 in Hbl. discriminate Hbl.
Qed.

(** [getTokens] on the copy of a command without double quotes. *)
Lemma getTokens_unquoted (s : list ascii) :
  none_of [NUL; DQUOTE] s = true -> (length (words s) < 1000)%nat ->
  exists (result : list slot) (buf : list ascii),
    getTokens (buffer_of s) = Ok (result, length (words s), buf) /\
    result !! length (words s) = Some PNull /\
    (forall (j : nat) (word : list ascii),
       words s !! j = Some word ->
       exists q : nat, result !! j = Some (Ptr q) /\ token_text buf (Ptr q) = Some word) /\
    (is_blank (hd " " s) = false -> result !! 0%nat = Some (Ptr 0)).
Proof.
  intros Hs Hlen.
  destruct (parse_unquoted s (replicate TOKEN_LIMIT Uninit) TOKEN_LIMIT Hs)
    as (buf & tokens & Hparse & Hl & Htok & Hfirst).
  { rewrite length_replicate. unfold TOKEN_LIMIT. lia. }
  rewrite length_replicate in Hl.
  replace (Nat.min (length (words s)) TOKEN_LIMIT) with (length (words s)) in Hparse
    by (unfold TOKEN_LIMIT; lia).
  exists (<[length (words s):=PNull]> tokens), buf.
  unfold getTokens. rewrite Hparse. cbn [mbind res_bind].
  unfold store. rewrite decide_True by (rewrite Hl; unfold TOKEN_LIMIT; lia).
  cbn [mbind res_bind]. split; [reflexivity|]. split.
  { apply list_lookup_insert_eq. rewrite Hl. unfold TOKEN_LIMIT. lia. }
  split.
  - intros j word Hj. destruct (Htok Hlen j word Hj) as (q & Hq & Htext).
    exists q. split.
    + rewrite list_lookup_insert_ne; [exact Hq|]. apply lookup_lt_Some in Hj. lia.
    + simpl. now rewrite Htext.
  - intros Hb. rewrite list_lookup_insert_ne; [now apply Hfirst|].
    destruct s as [|c s]; [discriminate Hb|].
    destruct (word_run (c :: s) Hs) as (w & r & E & Hw & _ & Hr).
    destruct w as [|c' w].
    + simpl in E. subst r. simpl in Hr, Hb. congruence.
    + rewrite E, words_word by (assumption || discriminate). simpl. lia.
Qed.

Lemma token_texts_words (buf : list ascii) (result : list slot) (ws : list (list ascii)) :
  (forall (j : nat) (word : list ascii),
     ws !! j = Some word ->
     exists q : nat, result !! j = Some (Ptr q) /\ token_text buf (Ptr q) = Some word) ->
  token_texts buf result (length ws) = map Some ws.
Proof.
  intros H. unfold token_texts. apply list_eq. intros j.
  change (map (token_text buf)) with (fmap (M := list) (token_text buf)).
  change (map Some ws) with (Some <$> ws).
  rewrite !list_lookup_fmap. destruct (ws !! j) as [word|] eqn:E.
  - destruct (H j word E) as (q & Hq & Htext).
    rewrite lookup_take_lt by (now apply lookup_lt_Some in E). rewrite Hq. simpl.
    simpl in Htext. now rewrite Htext.
  - rewrite lookup_take_ge by (now apply lookup_ge_None). reflexivity.
Qed.

End WordFacts.

(** X8.  For a command without double quotes that has fewer than a
    thousand words, [getTokens] returns exactly its words - the maximal
    runs of characters other than space and tab - in order, followed by a
    NULL entry; runs of blanks give no empty token. *)
Theorem unquoted_tokens_are_the_words (command : list ascii) :
  none_of [NUL; DQUOTE] command = true ->
  (length (words command) < 1000)%nat ->
  exists (result : list Utils.slot) (buf : list ascii),
    Utils.getTokens (Utils.buffer_of command) = Ok (result, length (words command), buf) /\
    Utils.token_texts buf result (length (words command)) = map Some (words command) /\
    result !! length (words command) = Some Utils.PNull.
Proof.
  intros Hs Hlen.
  destruct (WordFacts.getTokens_unquoted command Hs Hlen)
    as (result & buf & Hget & Hnull & Htok & _).
  exists result, buf. split; [exact Hget|]. split; [|exact Hnull].
  now apply WordFacts.token_texts_words.
Qed.

Lemma unquoted_tokens_are_the_words_witness :
  exists (result : list Utils.slot) (buf : list ascii),
    Utils.getTokens (Utils.buffer_of (lit "  ls   -l /tmp "))
    = Ok (result, length (words (lit "  ls   -l /tmp ")), buf) /\
    Utils.token_texts buf result (length (words (lit "  ls   -l /tmp ")))
    = map Some (words (lit "  ls   -l /tmp ")) /\
    result !! length (words (lit "  ls   -l /tmp ")) = Some Utils.PNull.
Proof.
  apply (unquoted_tokens_are_the_words (lit "  ls   -l /tmp ")); [reflexivity|].
  vm_compute. lia.
Defined.

(** X9.  For a command without double quotes that has a thousand words or
    more, [getTokens] stores the NULL entry at index 1000 of its array of
    1000 pointers: it writes outside the array. *)
Theorem thousand_words_overflow_the_array (command : list ascii) :
  none_of [NUL; DQUOTE] command = true ->
  (1000 <= length (words command))%nat ->
  Utils.getTokens (Utils.buffer_of command) = Fail (OutOfBounds 1000).
Proof.
  intros Hs Hlen.
  destruct (WordFacts.parse_unquoted command (replicate Utils.TOKEN_LIMIT Utils.Uninit)
              Utils.TOKEN_LIMIT Hs)
    as (buf & tokens & Hparse & Hl & _).
  { rewrite length_replicate. unfold Utils.TOKEN_LIMIT. lia. }
  rewrite length_replicate in Hl.
  replace (Nat.min (length (words command)) Utils.TOKEN_LIMIT) with Utils.TOKEN_LIMIT in Hparse
    by (unfold Utils.TOKEN_LIMIT; lia).
  unfold Utils.getTokens. rewrite Hparse. cbn [mbind res_bind].
  unfold Utils.store. rewrite decide_False by (rewrite Hl; lia). reflexivity.
Qed.

Lemma thousand_words_overflow_the_array_witness :
  Utils.getTokens (Utils.buffer_of Inputs.thousand_tokens) = Fail (OutOfBounds 1000).
Proof.
  apply (thousand_words_overflow_the_array Inputs.thousand_tokens);
    [vm_compute; reflexivity|vm_compute; lia].
Defined.

(** ** Running commands *)

Module ExecFacts.
Import Utils Shell.

Lemma list_eqb_eq (a : list ascii) : forall b : list ascii, list_eqb a b = true -> a = b.
Proof.
  induction a as [|x a IH]; intros [|y b] H; try discriminate; [reflexivity|].
  simpl in H. apply andb_true_iff in H as [Hx Hab].
  apply Ascii.eqb_eq in Hx. subst y. f_equal. now apply IH.
Qed.

Lemma list_eqb_refl (a : list ascii) : list_eqb a a = true.
Proof. induction a as [|x a IH]; [reflexivity|]. simpl. now rewrite Ascii.eqb_refl. Qed.

Lemma fork_spec (os : OS) (w : world) :
  fork os w
  = Done (os_fork os (w_nforks w))
         (World (w_trace w ++ [Fork (os_fork os (w_nforks w))]) (w_history w) (w_heap w)
                (S (w_nforks w))
                (if os_fork os (w_nforks w) =? 0 then os_child_pid os (w_nforks w) else w_pid w)
                (if os_fork os (w_nforks w) =? 0 then w_pid w else w_ppid w)).
Proof. unfold fork. now destruct (os_fork os (w_nforks w) =? 0). Qed.

(** The argument array of a command without double quotes that does not
    start with a blank: the words, and a first pointer that [free]
    accepts. *)
Lemma getArgs_unquoted (command : list ascii) :
  none_of [NUL; DQUOTE] command = true ->
  is_blank (hd " " command) = false ->
  (length (words command) < 1000)%nat ->
  exists (args : list slot) (buf : list ascii),
    getArgs command = Ok (args, length (words command), buf) /\
    token_texts buf args (length (words command)) = map Some (words command) /\
    deallocateArgs args (length (words command)) = Ok tt /\
    (forall (j : nat) (word : list ascii),
       words command !! j = Some word ->
       exists q : nat, args !! j = Some (Ptr q) /\ token_text buf (Ptr q) = Some word).
Proof.
  intros Hs Hb Hlen.
  destruct (WordFacts.getTokens_unquoted command Hs Hlen)
    as (args & buf & Hget & _ & Htok & Hfirst).
  exists args, buf. split; [exact Hget|].
  split; [now apply WordFacts.token_texts_words|]. split; [|exact Htok].
  unfold deallocateArgs. rewrite (Hfirst Hb). now destruct (0 <? _)%nat.
Qed.

(** In the parent. *)
Lemma processSystemCommand_parent (os : OS) (command : list ascii) (w : world) (pid : Z) :
  os_fork os (w_nforks w) = pid -> pid <> -1 -> pid <> 0 ->
  processSystemCommand os command w
  = Done 0 (World (w_trace w ++
                     [Fork pid;
                      Printf "Parent process: My PID is %d, My child's PID is %d\n"
                             [AInt (w_pid w); AInt pid];
                      Printf "Parent process: waiting for child to complete...\n" [];
                      Wait;
                      Printf "Parent process: child completed\n" []])
                  (w_history w) (w_heap w) (S (w_nforks w)) (w_pid w) (w_ppid w)).
Proof.
  intros Hpid Hfail Hchild.
  unfold processSystemCommand, bind. rewrite fork_spec, Hpid.
  apply Z.eqb_neq in Hfail, Hchild. rewrite Hfail, Hchild. simpl.
  now rewrite <- !app_assoc.
Qed.

(** In the child, given the argument array that [getArgs] builds. *)
Lemma processSystemCommand_child (os : OS) (command : list ascii) (w : world)
    (args : list slot) (numArgs : nat) (buf : list ascii) :
  os_fork os (w_nforks w) = 0 ->
  getArgs command = Ok (args, numArgs, buf) ->
  deallocateArgs args numArgs = Ok tt ->
  let program := getProgramName command in
  let argv := token_texts buf args numArgs in
  let ok := os_execvp os program argv in
  let w1 :=
    World (w_trace w ++
             [Fork 0;
              Printf "Child process: My PID is %d, My parent's PID is %d\n"
                     [AInt (os_child_pid os (w_nforks w)); AInt (w_pid w)];
              Printf "Child process: executing '%s'\n" [AStr (c_str command)];
              Execvp program argv ok])
          (w_history w) (w_heap w) (S (w_nforks w))
          (os_child_pid os (w_nforks w)) (w_pid w) in
  processSystemCommand os command w
  = if ok then Stopped Replaced w1
    else Done 1 (add_trace w1
                   [Eprintf "processSystemCommand: ERROR - command execution failed with '%s'\n"
                            [AStr (os_strerror os)]]).
Proof.
  intros Hpid Hargs Hfree. cbv zeta.
  unfold processSystemCommand, bind. rewrite fork_spec, Hpid.
  change (0 =? -1) with false. change (0 =? 0) with true. cbv iota.
  unfold getpid, getppid. cbn [w_pid w_ppid]. rewrite !ProcreadFacts.emit_spec.
  rewrite Hargs. cbn [lift]. unfold ret.
  rewrite !ProcreadFacts.emit_spec.
  destruct (os_execvp os (getProgramName command) (token_texts buf args numArgs)).
  - unfold halt, add_trace. simpl. now rewrite <- !app_assoc.
  - rewrite !ProcreadFacts.emit_spec, Hfree. cbn [lift]. unfold ret, add_trace. simpl.
    now rewrite <- !app_assoc.
Qed.

End ExecFacts.

(** X10.  When [fork] fails, [processSystemCommand] reports it with
    [perror] and returns 1 without running anything.  In the parent it
    prints its two lines, waits once for the child, prints the completion
    line and returns 0: it never calls [execvp] and never looks at the
    command. *)
Theorem fork_failure_and_parent (os : OS) (command : list ascii) (w : world) :
  (os_fork os (w_nforks w) = -1 ->
   Shell.processSystemCommand os command w
   = Done 1 (World (w_trace w ++ [Fork (-1); Perror "processSystemCommand: fork failed"])
                   (w_history w) (w_heap w) (S (w_nforks w)) (w_pid w) (w_ppid w))) /\
  (forall pid : Z,
     os_fork os (w_nforks w) = pid -> pid <> -1 -> pid <> 0 ->
     Shell.processSystemCommand os command w
     = Done 0 (World (w_trace w ++
                        [Fork pid;
                         Printf "Parent process: My PID is %d, My child's PID is %d\n"
                                [AInt (w_pid w); AInt pid];
                         Printf "Parent process: waiting for child to complete...\n" [];
                         Wait;
                         Printf "Parent process: child completed\n" []])
                     (w_history w) (w_heap w) (S (w_nforks w)) (w_pid w) (w_ppid w))).
Proof.
  split.
  - intros Hpid. unfold Shell.processSystemCommand, bind. rewrite ExecFacts.fork_spec, Hpid.
    simpl. now rewrite <- app_assoc.
  - apply ExecFacts.processSystemCommand_parent.
Qed.

Lemma fork_failure_and_parent_witness :
  Shell.processSystemCommand Inputs.os_parent (lit "ls -l") Inputs.w0
  = Done 0 (World ([] ++
                     [Fork 4242;
                      Printf "Parent process: My PID is %d, My child's PID is %d\n"
                             [AInt 100; AInt 4242];
                      Printf "Parent process: waiting for child to complete...\n" [];
                      Wait;
                      Printf "Parent process: child completed\n" []])
                  (Some []) [] 1 100 99).
Proof.
  destruct (fork_failure_and_parent Inputs.os_parent (lit "ls -l") Inputs.w0) as [_ H].
  apply (H 4242); [reflexivity|lia|lia].
Defined.

(** X11.  In the child, for a command without double quotes that does
    not start with a blank and has fewer than a thousand words,
    [processSystemCommand] calls [execvp] with the
    program name and with the words of the command as the argument
    vector.  If [execvp] succeeds the program is replaced; if it fails the
    child prints the error and returns 1 to its caller, it does not
    exit. *)
Theorem child_executes_the_words (os : OS) (command : list ascii) (w : world) :
  os_fork os (w_nforks w) = 0 ->
  none_of [NUL; DQUOTE] command = true ->
  Utils.is_blank (hd " " command) = false ->
  (length (words command) < 1000)%nat ->
  let program := Shell.getProgramName command in
  let argv := map Some (words command) in
  let ok := os_execvp os program argv in
  let w1 :=
    World (w_trace w ++
             [Fork 0;
              Printf "Child process: My PID is %d, My parent's PID is %d\n"
                     [AInt (os_child_pid os (w_nforks w)); AInt (w_pid w)];
              Printf "Child process: executing '%s'\n" [AStr command];
              Execvp program argv ok])
          (w_history w) (w_heap w) (S (w_nforks w))
          (os_child_pid os (w_nforks w)) (w_pid w) in
  Shell.processSystemCommand os command w
  = if ok then Stopped Replaced w1
    else Done 1 (add_trace w1
                   [Eprintf "processSystemCommand: ERROR - command execution failed with '%s'\n"
                            [AStr (os_strerror os)]]).
Proof.
  intros Hpid Hs Hb Hlen. cbv zeta.
  destruct (ExecFacts.getArgs_unquoted command Hs Hb Hlen)
    as (args & buf & Hargs & Htexts & Hfree & _).
  rewrite (ExecFacts.processSystemCommand_child os command w args _ buf Hpid Hargs Hfree).
  now rewrite Htexts, (DecoderFacts.none_of_no_nul _ _ Hs).
Qed.

Lemma child_executes_the_words_witness :
  Shell.processSystemCommand
    {| os_fork := fun _ => 0; os_child_pid := fun _ => 4242;
       os_execvp := fun _ _ => false; os_strerror := lit "No such file or directory";
       os_fopen := fun _ => None |}
    (lit "nosuch  -x") Inputs.w0
  = Done 1 (World [Fork 0;
                   Printf "Child process: My PID is %d, My parent's PID is %d\n"
                          [AInt 4242; AInt 100];
                   Printf "Child process: executing '%s'\n" [AStr (lit "nosuch  -x")];
                   Execvp (lit "nosuch") [Some (lit "nosuch"); Some (lit "-x")] false;
                   Eprintf "processSystemCommand: ERROR - command execution failed with '%s'\n"
                           [AStr (lit "No such file or directory")]]
                  (Some []) [] 1 4242 100).
Proof.
  apply (child_executes_the_words
           {| os_fork := fun _ => 0; os_child_pid := fun _ => 4242;
              os_execvp := fun _ _ => false; os_strerror := lit "No such file or directory";
              os_fopen := fun _ => None |}
           (lit "nosuch  -x") Inputs.w0); [reflexivity|reflexivity|reflexivity|].
  vm_compute. lia.
Defined.

(** X12.  For a command without double quotes and with fewer than a
    thousand words whose program name is [procread], the built-in counts
    the words of the command: with no
    argument it prints that a file argument is required, with more than
    one that only one is permitted, and returns 1 in both cases; with
    exactly one it is [processProcread] of that word. *)
Theorem procread_counts_its_arguments (os : OS) (command : list ascii) (w : world) :
  none_of [NUL; DQUOTE] command = true ->
  Utils.is_blank (hd " " command) = false ->
  Shell.getProgramName command = lit "procread" ->
  (length (words command) < 1000)%nat ->
  Shell.processCommand os command w
  = match words command with
    | [_; fileName] => Shell.processProcread os (Some fileName) w
    | [] | [_] => Done 1 (add_trace w [Eprintf "ERROR: file argument required\n" []])
    | _ :: _ :: _ :: _ =>
        Done 1 (add_trace w [Eprintf "ERROR: only 1 argument is permitted\n" []])
    end.
Proof.
  intros Hs Hb Hname Hlen.
  destruct (ExecFacts.getArgs_unquoted command Hs Hb Hlen)
    as (args & buf & Hargs & _ & Hfree & Htok).
  assert (Hexit : Shell.streq command (lit "exit") = false).
  { destruct (Shell.streq command (lit "exit")) eqn:E; [|reflexivity].
    unfold Shell.streq in E. apply ExecFacts.list_eqb_eq in E.
    rewrite (DecoderFacts.none_of_no_nul _ _ Hs) in E.
    rewrite E in Hname. discriminate Hname. }
  unfold Shell.processCommand. rewrite Hexit, Hname.
  change (Shell.streq (lit "procread") (lit "procread")) with true. cbv iota.
  rewrite Hargs. cbn [lift]. unfold bind, ret.
  destruct (words command) as [|w1 [|w2 [|w3 ws]]] eqn:Ew; cbn [length] in *.
  - change (0 <? 2)%nat with true. cbv beta iota. rewrite ProcreadFacts.emit_spec, Hfree. reflexivity.
  - change (1 <? 2)%nat with true. cbv beta iota. rewrite ProcreadFacts.emit_spec, Hfree. reflexivity.
  - change (2 <? 2)%nat with false. cbv beta iota.
    destruct (Htok 1%nat w2 eq_refl) as (q & Hq & Htext).
    pose proof (HistoryFacts.aget_ok args 1 (Utils.Ptr q) Hq) as Hget.
    change (Z.of_nat 1) with 1 in Hget. rewrite Hget. cbn [lift]. unfold ret. rewrite Htext.
    destruct (Shell.processProcread os (Some w2) w); [|reflexivity].
    rewrite Hfree. reflexivity.
  - replace (S (S (S (length ws))) <? 2)%nat with false by (symmetry; apply Nat.ltb_ge; lia).
    replace (2 <? S (S (S (length ws))))%nat with true by (symmetry; apply Nat.ltb_lt; lia).
    cbv beta iota. rewrite ProcreadFacts.emit_spec, Hfree. reflexivity.
Qed.

Lemma procread_counts_its_arguments_witness :
  Shell.processCommand Inputs.os_parent (lit "procread a b") Inputs.w0
  = Done 1 (add_trace Inputs.w0 [Eprintf "ERROR: only 1 argument is permitted\n" []]).
Proof.
  apply (procread_counts_its_arguments Inputs.os_parent (lit "procread a b") Inputs.w0);
    [reflexivity|reflexivity|reflexivity|vm_compute; lia].
Defined.

(** ** The history built-in *)

Module HistoryListFacts.
Import Utils Shell.

(** The shifting loop frees only blocks of the first [numEntries]
    entries: every other block is left as it was. *)
Lemma shift_entries_heap (numEntries adjust : Z) (base : nat) (n : nat) :
  forall (i : nat) (result result' : list slot) (w w' : world),
    (forall j : nat, (i <= j < i + n)%nat -> Z.of_nat j < numEntries ->
       result !! j = Some (Ptr (base + j))) ->
    shift_entries n (Z.of_nat i) numEntries adjust result w = Done result' w' ->
    forall k : nat,
      (k < base + i)%nat \/ (Z.of_nat base + numEntries <= Z.of_nat k) ->
      w_heap w' !! k = w_heap w !! k.
Proof.
  induction n as [|n IH]; intros i result result' w w' Hslots Hrun k Hk.
  - cbn [shift_entries] in Hrun. unfold ret in Hrun. now inversion Hrun; subst.
  - cbn [shift_entries] in Hrun. unfold bind in Hrun.
    replace (Z.of_nat i + 1) with (Z.of_nat (S i)) in Hrun by lia.
    destruct (Z.ltb_spec (Z.of_nat i) numEntries) as [Hlt|Hge].
    + rewrite (HistoryFacts.aget_ok result i (Ptr (base + i))) in Hrun
        by (apply Hslots; lia).
      cbn [lift ret] in Hrun. unfold free, bind, get_heap in Hrun.
      destruct (w_heap w !! (base + i)%nat) as [[s|]|] eqn:Hblock;
        try (unfold halt in Hrun; discriminate Hrun).
      unfold put_heap in Hrun.
      destruct (aget result (Z.of_nat i + adjust)) as [v|f];
        cbn [lift ret halt] in Hrun; [|discriminate Hrun].
      destruct (aset result (Z.of_nat i) v) as [result1|f] eqn:Hset;
        cbn [lift ret halt] in Hrun; [|discriminate Hrun].
      assert (Hr1 : result1 = <[i:=v]> result).
      { unfold aset in Hset. destruct (_ && _); [|discriminate Hset].
        rewrite Nat2Z.id in Hset. now inversion Hset. }
      assert (Hslots1 : forall j : nat, (S i <= j < S i + n)%nat -> Z.of_nat j < numEntries ->
                result1 !! j = Some (Ptr (base + j))).
      { intros j Hj Hjn. rewrite Hr1, list_lookup_insert_ne by lia. apply Hslots; lia. }
      rewrite (IH (S i) result1 result' _ w' Hslots1 Hrun k) by lia.
      simpl. apply list_lookup_insert_ne. lia.
    + destruct (aset result (Z.of_nat i) PNull) as [result1|f] eqn:Hset;
        cbn [lift ret halt] in Hrun; [|discriminate Hrun].
      apply (IH (S i) result1 result' w w'); [|exact Hrun|lia].
      intros j Hj Hjn. lia.
Qed.

(** The blocks of the entries that [readHistory] keeps are live and hold
    the lines, trailing white space removed: the entries from
    [numEntries] on, up to the removed last one. *)
Lemma readHistory_heap (numEntries : Z) (file : list ascii) (w w' : world)
    (r : option (list slot) * option Z) :
  0 < numEntries -> w_history w = Some file ->
  readHistory numEntries w = Done r w' ->
  let chunks := fgets_all FILE_BUFFER_SIZE [] file in
  forall (k : nat) (c : list ascii),
    chunks !! k = Some c -> numEntries <= Z.of_nat k -> (S k < length chunks)%nat ->
    w_heap w' !! (length (w_heap w) + k)%nat = Some (Live (entry_of c)).
Proof.
  intros Hpos Hfile Hrun chunks k c Hc Hk Hlast. unfold readHistory in Hrun.
  replace (numEntries >? 0) with true in Hrun by (symmetry; apply Z.gtb_lt; lia).
  unfold bind at 1 in Hrun. unfold get_history at 1 in Hrun. rewrite Hfile in Hrun.
  fold chunks in Hrun.
  destruct (HistoryFacts.read_entries_spec chunks numEntries
              (replicate (Z.to_nat (numEntries + 1)) Uninit) numEntries 0%nat w)
    as (result1 & Hread & Hlen1 & _ & Hnew); [lia|lia|rewrite length_replicate; lia|].
  change (Z.of_nat 0) with 0 in Hread. unfold bind at 1 in Hrun. rewrite Hread in Hrun.
  simpl (0 + length chunks)%nat in *.
  set (heap1 := w_heap w ++ map (fun c => Live (entry_of c)) chunks) in *.
  set (base := length (w_heap w)) in *.
  assert (Hheap1 : forall (j : nat) (cj : list ascii),
            chunks !! j = Some cj -> heap1 !! (base + j)%nat = Some (Live (entry_of cj))).
  { intros j cj Hj. unfold heap1, base. rewrite lookup_app_r by lia.
    replace (length (w_heap w) + j - length (w_heap w))%nat with j by lia.
    change (map (fun c => Live (entry_of c)) chunks)
      with ((fun c => Live (entry_of c)) <$> chunks).
    now rewrite list_lookup_fmap, Hj. }
  destruct (length chunks) as [|m] eqn:Hm; [lia|].
  replace (Z.of_nat (S m) - 1) with (Z.of_nat m) in Hrun by lia.
  unfold bind at 1 in Hrun.
  rewrite (HistoryFacts.aget_ok result1 m (Ptr (base + m))) in Hrun by (apply (Hnew m); lia).
  cbn [lift] in Hrun. unfold ret at 1 in Hrun.
  destruct (lookup_lt_is_Some_2 chunks m) as [cm Hcm]; [lia|].
  unfold bind at 1 in Hrun. rewrite (HistoryFacts.free_live _ (entry_of cm)) in Hrun
    by (apply Hheap1; exact Hcm).
  unfold bind at 1 in Hrun. rewrite HistoryFacts.aset_ok in Hrun by lia.
  cbn [lift] in Hrun. unfold ret at 1 in Hrun.
  destruct (Z.gtb_spec (Z.of_nat m) numEntries) as [Hgt|Hle]; [|exfalso; lia].
  unfold bind at 1 in Hrun. unfold bind at 1 in Hrun.
  destruct (shift_entries _ _ _ _ _ _) as [result' w1|why w1] eqn:Hshift;
    [|discriminate Hrun].
  unfold ret in Hrun. inversion Hrun; subst r w'. clear Hrun.
  change 0 with (Z.of_nat 0) in Hshift.
  assert (Hslots : forall j : nat, (0 <= j < 0 + Z.to_nat (Z.of_nat m))%nat ->
            Z.of_nat j < numEntries ->
            <[m:=PNull]> result1 !! j = Some (Ptr (base + j))).
  { intros j Hj Hjn. rewrite list_lookup_insert_ne by lia. apply (Hnew j). lia. }
  rewrite (shift_entries_heap _ _ _ _ _ _ _ _ _ Hslots Hshift (base + k)%nat) by lia.
  simpl. rewrite list_lookup_insert_ne by lia. now apply Hheap1.
Qed.

(** Printing entries whose blocks are live. *)
Lemma print_entries_spec (texts : list (list ascii)) :
  forall (i : nat) (history : list slot) (w : world),
    (forall (j : nat) (text : list ascii),
       texts !! j = Some text ->
       exists p : nat, history !! (i + j)%nat = Some (Ptr p) /\
                       w_heap w !! p = Some (Live text)) ->
    print_entries (length texts) (Z.of_nat i) history w
    = Done tt (add_trace w (map (fun s => Printf "%s\n" [AStr s]) texts)).
Proof.
  induction texts as [|text texts IH]; intros i history w H.
  - simpl. now rewrite ProcreadFacts.add_trace_nil.
  - cbn [length print_entries map].
    destruct (H 0%nat text eq_refl) as (p & Hp & Hlive). rewrite Nat.add_0_r in Hp.
    unfold bind. rewrite (HistoryFacts.aget_ok _ _ _ Hp). cbn [lift ret].
    unfold load, bind, get_heap. rewrite Hlive. unfold ret.
    rewrite ProcreadFacts.emit_spec.
    replace (Z.of_nat i + 1) with (Z.of_nat (S i)) by lia.
    rewrite IH.
    + now rewrite ProcreadFacts.add_trace_app.
    + intros j t Hj. destruct (H (S j) t Hj) as (q & Hq & Hl).
      exists q. split; [|exact Hl]. rewrite <- Hq. f_equal. lia.
Qed.

(** Freeing entries whose blocks are live and distinct. *)
Lemma free_entries_spec (n : nat) :
  forall (i b : nat) (entries : list slot) (w : world),
    (forall j : nat, (j < n)%nat ->
       entries !! (i + j)%nat = Some (Ptr (b + j)) /\
       exists s : list ascii, w_heap w !! (b + j)%nat = Some (Live s)) ->
    exists h' : list heap_block,
      free_entries n (Z.of_nat i) entries w = Done tt (set_heap w h') /\
      length h' = length (w_heap w) /\
      (forall k : nat, (k < b)%nat \/ (b + n <= k)%nat -> h' !! k = w_heap w !! k) /\
      (forall j : nat, (j < n)%nat -> h' !! (b + j)%nat = Some Freed).
Proof.
  induction n as [|n IH]; intros i b entries w H.
  - exists (w_heap w). cbn [free_entries]. rewrite HistoryFacts.set_heap_id.
    split; [reflexivity|]. split; [reflexivity|]. split; [reflexivity|]. intros j Hj. lia.
  - destruct (H 0%nat) as (Hp & s & Hs); [lia|]. rewrite !Nat.add_0_r in *.
    cbn [free_entries]. unfold bind. rewrite (HistoryFacts.aget_ok _ _ _ Hp).
    cbn [lift ret]. rewrite (HistoryFacts.free_live _ s) by exact Hs.
    replace (Z.of_nat i + 1) with (Z.of_nat (S i)) by lia.
    destruct (IH (S i) (S b) entries (set_heap w (<[b:=Freed]> (w_heap w))))
      as (h' & Hrun & Hlen & Hout & Hin).
    { intros j Hj. destruct (H (S j)) as (Hq & t & Ht); [lia|].
      replace (S i + j)%nat with (i + S j)%nat by lia.
      replace (S b + j)%nat with (b + S j)%nat by lia.
      split; [exact Hq|]. exists t. simpl. now rewrite list_lookup_insert_ne by lia. }
    exists h'. rewrite Hrun. simpl in Hlen, Hout. rewrite length_insert in Hlen.
    split; [reflexivity|]. split; [exact Hlen|]. split.
    + intros k Hk. rewrite Hout by lia. apply list_lookup_insert_ne. lia.
    + intros [|j] Hj.
      * rewrite Nat.add_0_r. rewrite Hout by lia. apply list_lookup_insert_eq.
        eapply lookup_lt_Some. exact Hs.
      * replace (b + S j)%nat with (S b + j)%nat by lia. apply Hin. lia.
Qed.

Lemma getProgramName_c_str (s : list ascii) :
  getProgramName (c_str s) = getProgramName s.
Proof.
  induction s as [|c s IH]; [reflexivity|]. simpl.
  destruct (Ascii.eqb c NUL) eqn:E; [reflexivity|]. simpl. rewrite E, IH. reflexivity.
Qed.

(** A command with the program name [history] is not the exit command. *)
Lemma history_not_exit (command : list ascii) :
  getProgramName command = lit "history" -> streq command (lit "exit") = false.
Proof.
  intros Hname. destruct (streq command (lit "exit")) eqn:E; [|reflexivity].
  unfold streq in E. apply ExecFacts.list_eqb_eq in E.
  rewrite <- getProgramName_c_str, E in Hname. discriminate Hname.
Qed.

(** The dispatcher on a history command. *)
Lemma processCommand_history (os : OS) (command : list ascii) (w : world) :
  getProgramName command = lit "history" ->
  processCommand os command w
  = bind (readHistory 10)
         (fun '(history, numRead) =>
            match history with
            | Some _ =>
                match numRead with
                | Some numRead =>
                    bind (printHistory history numRead)
                         (fun _ => bind (deallocateHistory history numRead)
                                        (fun _ => ret 0))
                | None => halt (Faulted UninitRead)
                end
            | None => ret 1
            end) w.
Proof.
  intros Hname. unfold processCommand. rewrite (history_not_exit _ Hname), Hname.
  reflexivity.
Qed.

(** A file made of lines that fit the line buffer is read line by line. *)
Lemma fgets_all_line (size : nat) (l : list ascii) :
  forall cur rest : list ascii,
    none_of [NEWLINE] l = true -> (length cur + length l + 2 <= size)%nat ->
    fgets_all size cur (l ++ NEWLINE :: rest)
    = (cur ++ l ++ [NEWLINE]) :: fgets_all size [] rest.
Proof.
  induction l as [|c l IH]; intros cur rest Hl Hsize.
  - cbn [app fgets_all]. cbv zeta. reflexivity.
  - apply DecoderFacts.none_of_cons in Hl as [Hc Hl]. cbn [existsb] in Hc.
    apply orb_false_iff in Hc as [Hc _].
    cbn [app fgets_all]. cbv zeta. rewrite Hc. cbn [orb].
    replace (S (length (cur ++ [c])) =? size)%nat with false
      by (symmetry; apply Nat.eqb_neq; rewrite length_app; simpl in *; lia).
    rewrite IH by (rewrite ?length_app; simpl in *; assumption || lia).
    now rewrite <- app_assoc.
Qed.

Lemma fgets_all_lines (size : nat) (ls : list (list ascii)) :
  Forall (fun l => none_of [NEWLINE] l = true /\ (length l + 2 <= size)%nat) ls ->
  fgets_all size [] (List.concat (map (fun l => l ++ [NEWLINE]) ls))
  = map (fun l => l ++ [NEWLINE]) ls.
Proof.
  induction 1 as [|l ls [Hl Hsize] _ IH]; [reflexivity|].
  cbn [map List.concat]. rewrite <- app_assoc. cbn [app].
  rewrite fgets_all_line by (simpl; assumption). now rewrite IH.
Qed.

(** The history command on a file of [S m] chunks, when at most 10 or at
    least 20 of them precede the last. *)
Lemma history_chunks (os : OS) (command file : list ascii) (w : world) :
  getProgramName command = lit "history" ->
  w_history w = Some file -> file <> [] ->
  let chunks := fgets_all FILE_BUFFER_SIZE [] file in
  let m := Nat.pred (length chunks) in
  (m <= 10)%nat \/ (20 <= m)%nat ->
  exists w' : world,
    processCommand os command w = Done 0 w' /\
    w_trace w'
    = w_trace w ++ map (fun c => Printf "%s\n" [AStr (entry_of c)])
                       (drop (m - 10) (take m chunks)) /\
    ((m <= 10)%nat -> w_heap w' = w_heap w ++ replicate (S m) Freed).
Proof.
  intros Hname Hfile Hne chunks m Hm.
  destruct (HistoryFacts.readHistory_nonempty 10 file w)
    as (result & w1 & Hrun & Htrace & Hkeep & Hshift); [lia|exact Hfile|exact Hne|].
  fold chunks in Hrun, Hkeep, Hshift. fold m in Hkeep, Hshift.
  assert (Hchunks : length chunks = S m).
  { unfold m. destruct chunks eqn:E; [|reflexivity].
    exfalso. eapply HistoryFacts.fgets_all_nonempty; [|exact E]. now left. }
  pose proof (readHistory_heap 10 file w w1 _ ltac:(lia) Hfile Hrun) as Hheap.
  fold chunks in Hheap. cbv zeta in Hheap.
  set (base := length (w_heap w)) in *.
  set (shown := drop (m - 10) (take m chunks)).
  set (n := Nat.min m 10).
  assert (Hcount : Z.min (Z.of_nat (length chunks) - 1) 10 = Z.of_nat n) by (unfold n; lia).
  assert (Hshown : length shown = n).
  { unfold shown, n. rewrite length_drop, length_take. lia. }
  assert (Hslots : forall j : nat, (j < n)%nat ->
            result !! j = Some (Ptr (base + (j + (m - 10))))).
  { intros j Hj. destruct Hm as [Hm|Hm].
    - destruct Hkeep as (Hk & _); [lia|]. rewrite Hk by (unfold n in Hj; lia).
      do 2 f_equal. lia.
    - destruct Hshift as (Hs & _); [lia|]. apply (Hs j). unfold n in Hj.
      change (Z.to_nat 10) with 10%nat. lia. }
  assert (Hlive : forall (j : nat) (c : list ascii),
            shown !! j = Some c ->
            w_heap w1 !! (base + (j + (m - 10)))%nat = Some (Live (entry_of c))).
  { intros j c Hj. assert (Hjn : (j < n)%nat) by (rewrite <- Hshown; now apply lookup_lt_Some in Hj).
    unfold shown in Hj. rewrite lookup_drop in Hj.
    rewrite lookup_take_lt in Hj by (unfold n in Hjn; lia).
    destruct Hm as [Hm|Hm].
    - destruct Hkeep as (_ & _ & Hh); [lia|]. rewrite Hh.
      rewrite list_lookup_insert_ne by (unfold n in Hjn; lia).
      rewrite lookup_app_r by (unfold base; lia).
      replace (base + (j + (m - 10)) - length (w_heap w))%nat with (m - 10 + j)%nat
        by (unfold base; lia).
      change (map (fun c => Live (entry_of c)) chunks)
        with ((fun c => Live (entry_of c)) <$> chunks).
      now rewrite list_lookup_fmap, Hj.
    - replace (j + (m - 10))%nat with (m - 10 + j)%nat by lia.
      apply Hheap; [exact Hj|lia|unfold n in Hjn; lia]. }
  rewrite Hcount in Hrun.
  set (evs := map (fun s => Printf "%s\n" [AStr s]) (map entry_of shown)).
  assert (Hprint : print_entries n 0 result w1 = Done tt (add_trace w1 evs)).
  { pose proof (print_entries_spec (map entry_of shown) 0 result w1) as H.
    rewrite length_map, Hshown in H. apply H. intros j text Hj.
    change (map entry_of shown) with (entry_of <$> shown) in Hj.
    rewrite list_lookup_fmap in Hj.
    destruct (shown !! j) as [c|] eqn:Ec; [|discriminate Hj]. injection Hj as <-.
    exists (base + (j + (m - 10)))%nat. split; [|now apply Hlive].
    apply Hslots. rewrite <- Hshown. now apply lookup_lt_Some in Ec. }
  destruct (free_entries_spec n 0 (base + (m - 10)) result (add_trace w1 evs))
    as (h' & Hfree & Hlen & Hout & Hin).
  { intros j Hj. replace (base + (m - 10) + j)%nat with (base + (j + (m - 10)))%nat by lia.
    split; [now apply Hslots|].
    destruct (lookup_lt_is_Some_2 shown j) as [c Hc]; [lia|].
    exists (entry_of c). now apply Hlive. }
  change (Z.of_nat 0) with 0 in Hfree. simpl w_heap in Hlen, Hout.
  rewrite processCommand_history by exact Hname. unfold bind at 1. rewrite Hrun.
  unfold printHistory, deallocateHistory. rewrite Nat2Z.id.
  unfold bind. rewrite Hprint, Hfree. unfold ret.
  eexists. split; [reflexivity|]. split.
  - simpl. rewrite Htrace. unfold evs. now rewrite map_map.
  - intros Hm10. unfold set_heap. cbn [w_heap]. destruct Hkeep as (_ & _ & Hh); [lia|].
    assert (Hn : n = m) by (unfold n; lia).
    replace (m - 10)%nat with 0%nat in * by lia. rewrite Nat.add_0_r in *.
    assert (Hlen1 : length (w_heap w1) = (base + S m)%nat).
    { rewrite Hh, length_insert, length_app, length_map. unfold base. lia. }
    apply list_eq. intros k.
    destruct (decide (k < base)%nat) as [Hk|Hk].
    + rewrite Hout by lia. rewrite Hh, list_lookup_insert_ne by lia.
      rewrite !lookup_app_l by (unfold base in Hk; lia). reflexivity.
    + rewrite (lookup_app_r (w_heap w)) by (unfold base in Hk; lia). fold base.
      destruct (decide (k < base + S m)%nat) as [Hk2|Hk2].
      * rewrite lookup_replicate_2 by lia.
        destruct (decide (k = base + m)%nat) as [->|Hk3].
        -- rewrite Hout by lia. rewrite Hh. apply list_lookup_insert_eq.
           rewrite length_app, length_map. unfold base. lia.
        -- replace k with (base + (k - base))%nat by lia. apply Hin. lia.
      * rewrite (lookup_ge_None_2 h') by lia.
        symmetry. apply lookup_ge_None_2. rewrite length_replicate. lia.
Qed.

End HistoryListFacts.

(** X13.  The history built-in, for any command whose program name is
    [history].  When the history file cannot be opened it prints the
    diagnostic of [readHistory] and returns 1.  When the file consists of
    lines that fit the line buffer, the last of them being the line of
    the command itself, and at most 10 or at least 20 lines precede it,
    the built-in prints the last 10 of the preceding lines (all of them
    if there are fewer), each without its trailing white space, in the
    order of the file, and returns 0; with at most 10 it frees every block
    it allocated. *)
Theorem history_lists_the_earlier_lines (os : OS) (command : list ascii) (w : world) :
  Shell.getProgramName command = lit "history" ->
  (w_history w = None ->
   Shell.processCommand os command w
   = Done 1 (add_trace w
               [Eprintf "readHistory: ERROR: Failed to open command history file '%s'!\n"
                        [AStr Shell.HISTORY_PATH]])) /\
  (forall (ls : list (list ascii)) (cur : list ascii),
     Forall (fun l => none_of [NEWLINE] l = true /\
                      (length l + 2 <= Shell.FILE_BUFFER_SIZE)%nat) (ls ++ [cur]) ->
     w_history w = Some (List.concat (map (fun l => l ++ [NEWLINE]) (ls ++ [cur]))) ->
     (length ls <= 10)%nat \/ (20 <= length ls)%nat ->
     exists w' : world,
       Shell.processCommand os command w = Done 0 w' /\
       w_trace w'
       = w_trace w ++ map (fun l => Printf "%s\n" [AStr (entry_of (l ++ [NEWLINE]))])
                          (drop (length ls - 10) ls) /\
       ((length ls <= 10)%nat -> w_heap w' = w_heap w ++ replicate (S (length ls)) Freed)).
Proof.
  intros Hname. split.
  - intros Hfile. rewrite HistoryListFacts.processCommand_history by exact Hname.
    unfold bind at 1. unfold Shell.readHistory. change (10 >? 0) with true. cbv iota.
    unfold bind at 1. unfold get_history at 1. rewrite Hfile.
    unfold bind. rewrite ProcreadFacts.emit_spec. reflexivity.
  - intros ls cur Hlines Hfile Hcount.
    set (file := List.concat (map (fun l => l ++ [NEWLINE]) (ls ++ [cur]))) in *.
    assert (Hchunks : fgets_all Shell.FILE_BUFFER_SIZE [] file
                      = map (fun l => l ++ [NEWLINE]) (ls ++ [cur])).
    { now apply HistoryListFacts.fgets_all_lines. }
    assert (Hne : file <> []).
    { intros E. rewrite E in Hchunks. destruct ls; discriminate Hchunks. }
    destruct (HistoryListFacts.history_chunks os command file w Hname Hfile Hne)
      as (w' & Hrun & Htrace & Hheap).
    { rewrite Hchunks, length_map, length_app. simpl. 
      replace (Nat.pred (length ls + 1)) with (length ls) by lia. exact Hcount. }
    rewrite Hchunks, length_map, length_app in Htrace, Hheap. simpl in Htrace, Hheap.
    replace (Nat.pred (length ls + 1)) with (length ls) in Htrace, Hheap by lia.
    exists w'. split; [exact Hrun|]. split; [|exact Hheap].
    rewrite Htrace. f_equal.
    rewrite map_app, take_app_length' by (now rewrite length_map).
    rewrite skipn_map. now rewrite map_map.
Qed.

Lemma history_lists_the_earlier_lines_witness :
  exists w' : world,
    Shell.processCommand Inputs.os_parent (lit "history") 
      (Inputs.with_history
         (List.concat (map (fun l => l ++ [NEWLINE]) ([lit "ls -l  "; lit "pwd"] ++ [lit "history"]))))
    = Done 0 w' /\
    w_trace w'
    = [] ++ map (fun l => Printf "%s\n" [AStr (entry_of (l ++ [NEWLINE]))])
                (drop (length [lit "ls -l  "; lit "pwd"] - 10) [lit "ls -l  "; lit "pwd"]) /\
    ((length [lit "ls -l  "; lit "pwd"] <= 10)%nat ->
     w_heap w' = [] ++ replicate (S (length [lit "ls -l  "; lit "pwd"])) Freed).
Proof.
  destruct (history_lists_the_earlier_lines Inputs.os_parent (lit "history")
              (Inputs.with_history
                 (List.concat (map (fun l => l ++ [NEWLINE])
                                   ([lit "ls -l  "; lit "pwd"] ++ [lit "history"])))))
    as [_ H]; [reflexivity|].
  apply (H [lit "ls -l  "; lit "pwd"] (lit "history")).
  - cbn [app].
    repeat (apply List.Forall_cons;
            [split; [reflexivity|apply Nat.leb_le; vm_compute; reflexivity]|]).
    apply List.Forall_nil.
  - reflexivity.
  - left. simpl. lia.
Defined.

(** ** The command loop *)

Module LoopFacts.
Import Utils Shell.

Lemma returns_ret {A} (P : A -> Prop) (a : A) : P a -> returns P (ret a).
Proof. intros H w a' w' E. now inversion E; subst. Qed.

Lemma returns_halt {A} (P : A -> Prop) (why : stop) : returns P (halt why).
Proof. intros w a w' E. discriminate E. Qed.

Lemma returns_bind {A B} (P : B -> Prop) (c : M A) (k : A -> M B) :
  (forall a : A, returns P (k a)) -> returns P (bind c k).
Proof.
  intros H w b w' E. unfold bind in E.
  destruct (c w) as [a w1|why w1]; [|discriminate E]. exact (H a w1 b w' E).
Qed.

Lemma returns_bind_with {A B} (Q : A -> Prop) (P : B -> Prop) (c : M A) (k : A -> M B) :
  returns Q c -> (forall a : A, Q a -> returns P (k a)) -> returns P (bind c k).
Proof.
  intros Hc H w b w' E. unfold bind in E.
  destruct (c w) as [a w1|why w1] eqn:Ec; [|discriminate E].
  exact (H a (Hc w a w1 Ec) w1 b w' E).
Qed.

Ltac returns_tac :=
  repeat first
    [ apply returns_halt
    | apply returns_ret; lia
    | match goal with
      | |- returns ?P (bind _ (fun r => bind _ (fun _ => ret r))) =>
          apply (returns_bind_with P P);
          [|intros ? ?; apply returns_bind; intros ?; apply returns_ret; assumption]
      end
    | apply returns_bind; intros ?
    | match goal with
      | |- returns _ (match ?x with _ => _ end) => destruct x
      end ].

(** A command other than [exit] makes the dispatcher return 0 or 1. *)
Lemma processCommand_returns (os : OS) (command : list ascii) :
  streq command (lit "exit") = false ->
  returns (fun r => r = 0 \/ r = 1) (processCommand os command).
Proof.
  intros Hexit. unfold processCommand, processProcread, processSystemCommand.
  rewrite Hexit. returns_tac.
Qed.

Lemma emit_all_done (errf : list string) :
  forall w : world, emit_all errf w = Done tt (add_trace w (map (fun l => Eprintf l []) errf)).
Proof.
  induction errf as [|l errf IH]; intros w.
  - simpl. now rewrite ProcreadFacts.add_trace_nil.
  - cbn [emit_all map]. unfold bind. rewrite ProcreadFacts.emit_spec, IH.
    now rewrite ProcreadFacts.add_trace_app.
Qed.

(** What [trim] returns holds no NUL. *)
Lemma trim_no_nul (s t : list ascii) : trim (Some s) = Ok t -> c_str t = t.
Proof.
  unfold trim. cbn. intros H. injection H as <-.
  apply c_str_id. apply Forall_take. apply c_str_no_nul.
Qed.

Lemma commandLoop_cons (os : OS) (prompt line : list ascii) (stdin : list (list ascii))
    (w : world) :
  commandLoop os prompt (line :: stdin) w
  = bind (writePrompt prompt)
      (fun _ => bind (readCommand line)
      (fun command =>
         match command with
         | Some command =>
             bind (processCommand os command)
                  (fun r => if r <? 0 then ret tt else commandLoop os prompt stdin)
         | None => commandLoop os prompt stdin
         end)) w.
Proof. reflexivity. Qed.

(** White space is plain text for the decoder. *)
Lemma space_is_plain (s : list ascii) :
  forallb isspace s = true -> none_of [NUL; BACKSLASH; SQUOTE; DQUOTE] s = true.
Proof.
  induction s as [|c s IH]; [reflexivity|]. simpl. intros [Hc Hs]%andb_true_iff.
  unfold none_of in *. cbn [forallb]. rewrite (IH Hs), andb_true_r.
  unfold isspace in Hc.
  repeat (apply orb_true_iff in Hc as [Hc|Hc]);
    apply Ascii.eqb_eq in Hc; subst c; reflexivity.
Qed.

Lemma skip_space_all (s : list ascii) : forallb isspace s = true -> skip_space s = [].
Proof.
  induction s as [|c s IH]; [reflexivity|]. simpl. intros [Hc Hs]%andb_true_iff.
  rewrite Hc. now apply IH.
Qed.

(** At the end of standard input the loop prints the prompt and stops at
    the first read of the block that holds no line. *)
Lemma commandLoop_nil (os : OS) (prompt : list ascii) (w : world) :
  commandLoop os prompt [] w
  = Stopped (Faulted UninitRead)
      (add_trace w
         (Printf (string_of_list_ascii prompt) [] ::
          match w_history w with
          | Some _ => []
          | None => [Eprintf "writeHistory: ERROR: Failed to open command history file '%s'!\n"
                             [AStr HISTORY_PATH]]
          end)).
Proof.
  destruct w as [trace [file|] heap nforks pid ppid]; [reflexivity|].
  cbn [commandLoop]. unfold bind, writePrompt, readCommand_at_end, bind, get_history, emit,
    halt, add_trace. cbn [w_trace w_history w_heap w_nforks w_pid w_ppid].
  now rewrite <- app_assoc.
Qed.

End LoopFacts.

(** X14.  The dispatcher returns a negative value for the exact command
    [exit] only: for every other command it returns 0 or 1, when it
    returns.  So the command loop returns only after reading a line that
    decodes and trims to [exit]. *)
Theorem loop_returns_only_on_exit (os : OS) (prompt : list ascii) :
  (forall (command : list ascii) (w w' : world) (r : Z),
     Shell.processCommand os command w = Done r w' ->
     (r = -1 /\ c_str command = lit "exit") \/
     ((r = 0 \/ r = 1) /\ c_str command <> lit "exit")) /\
  (forall (stdin : list (list ascii)) (w w' : world),
     Shell.commandLoop os prompt stdin w = Done tt w' ->
     exists line command : list ascii,
       In line stdin /\ Utils.unescape line = ([], Some command) /\
       Utils.trim (Some command) = Ok (lit "exit")).
Proof.
  assert (Hdispatch : forall (command : list ascii) (w w' : world) (r : Z),
            Shell.processCommand os command w = Done r w' ->
            (r = -1 /\ c_str command = lit "exit") \/
            ((r = 0 \/ r = 1) /\ c_str command <> lit "exit")).
  { intros command w w' r H.
    destruct (Shell.streq command (lit "exit")) eqn:E.
    - left. split.
      + unfold Shell.processCommand in H. rewrite E in H. now inversion H.
      + unfold Shell.streq in E. now apply ExecFacts.list_eqb_eq in E.
    - right. split.
      + exact (LoopFacts.processCommand_returns os command E w r w' H).
      + intros Heq. unfold Shell.streq in E. rewrite Heq in E.
        change (c_str (lit "exit")) with (lit "exit") in E.
        now rewrite ExecFacts.list_eqb_refl in E. }
  split; [exact Hdispatch|].
  induction stdin as [|line stdin IH]; intros w w' H.
  - rewrite LoopFacts.commandLoop_nil in H. discriminate H.
  - rewrite LoopFacts.commandLoop_cons in H. unfold bind at 1 in H.
    unfold Shell.writePrompt in H. rewrite ProcreadFacts.emit_spec in H.
    unfold bind at 1 in H. unfold Shell.readCommand in H. unfold bind at 1 in H.
    destruct (Shell.appendHistory (Some line) _) as [z w1|why w1]; [|discriminate H].
    destruct (Utils.unescape line) as [errf [command|]] eqn:Hu.
    + assert (Herrf : errf = []).
      { eapply (DecoderFacts.scan_errf _ _ _ _ _ _ (Nat.le_refl _) Hu). discriminate. }
      subst errf. unfold bind at 1 in H. rewrite LoopFacts.emit_all_done in H.
      unfold bind at 1 in H.
      destruct (Utils.trim (Some command)) as [t|f] eqn:Ht; [|discriminate H].
      cbn [lift] in H. unfold ret at 1 in H. unfold ret at 1 in H.
      unfold bind at 1 in H.
      destruct (Shell.processCommand os t _) as [r w2|why w2] eqn:Hrun; [|discriminate H].
      destruct (r <? 0) eqn:Hr.
      * exists line, command. split; [now left|]. split; [exact Hu|].
        destruct (Hdispatch _ _ _ _ Hrun) as [[_ Hexit]|[Hr01 _]].
        -- rewrite (LoopFacts.trim_no_nul _ _ Ht) in Hexit. now subst t.
        -- apply Z.ltb_lt in Hr. lia.
      * destruct (IH _ _ H) as (l & c & Hin & Hl & Hc).
        exists l, c. split; [now right|]. now split.
    + unfold bind at 1 in H. rewrite LoopFacts.emit_all_done in H. discriminate H.
Qed.

Lemma loop_returns_only_on_exit_witness :
  exists line command : list ascii,
    In line [Inputs.line "ls"; Inputs.line " exit "] /\
    Utils.unescape line = ([], Some command) /\
    Utils.trim (Some command) = Ok (lit "exit").
Proof.
  destruct (loop_returns_only_on_exit Inputs.os_parent (lit "$ ")) as [_ H].
  eapply (H [Inputs.line "ls"; Inputs.line " exit "] Inputs.w0).
  vm_compute. reflexivity.
Defined.

(** X15.  A line of white space only (the empty line, for one) is
    appended to the history file and runs nothing: after the prompt, the
    loop goes on to the next line with no other output and no fork. *)
Theorem blank_line_is_only_recorded (os : OS) (prompt line file : list ascii)
    (stdin : list (list ascii)) (w : world) :
  forallb isspace line = true ->
  w_history w = Some file ->
  Shell.commandLoop os prompt (line :: stdin) w
  = Shell.commandLoop os prompt stdin
      (World (w_trace w ++ [Printf (string_of_list_ascii prompt) []])
             (Some (file ++ line)) (w_heap w) (w_nforks w) (w_pid w) (w_ppid w)).
Proof.
  intros Hline Hfile.
  pose proof (LoopFacts.space_is_plain _ Hline) as Hplain.
  rewrite LoopFacts.commandLoop_cons. unfold bind at 1.
  unfold Shell.writePrompt. rewrite ProcreadFacts.emit_spec.
  unfold bind at 1. unfold Shell.readCommand.
  rewrite (DecoderFacts.unescape_plain _ Hplain).
  unfold Shell.appendHistory, bind, get_history, put_history. cbn [add_trace w_history].
  rewrite Hfile. cbn [Shell.emit_all]. unfold ret.
  unfold Utils.trim. cbn [Utils.trimLeading mbind res_bind].
  rewrite (DecoderFacts.none_of_no_nul _ _ Hplain), (LoopFacts.skip_space_all _ Hline).
  cbn. reflexivity.
Qed.

Lemma blank_line_is_only_recorded_witness :
  Shell.commandLoop Inputs.os_parent (lit "$ ") [lit "  " ++ [NEWLINE]] Inputs.w0
  = Shell.commandLoop Inputs.os_parent (lit "$ ") []
      (World ([] ++ [Printf (string_of_list_ascii (lit "$ ")) []])
             (Some ([] ++ lit "  " ++ [NEWLINE])) [] 0 100 99).
Proof.
  apply (blank_line_is_only_recorded Inputs.os_parent (lit "$ ") (lit "  " ++ [NEWLINE]) []
           [] Inputs.w0); reflexivity.
Defined.

(** ** Console input *)

Module InputFacts.
Import Utils Shell.

Lemma readInput_loop_S (fuel : nat) (result : input) (resultSize : nat) (stdin : list ascii) :
  readInput_loop (S fuel) result resultSize stdin
  = let '(chunk, rest) := fgets (CONSOLE_BUFFER_SIZE - 1) stdin in
    match chunk with
    | [] => Ok (result, rest)
    | _ :: _ =>
        if decide (length (text_of result) + length chunk + 1
                   <= resultSize + CONSOLE_BUFFER_SIZE)%nat then
          if (0 <? length (text_of result ++ c_str chunk))%nat
             && Ascii.eqb (List.last (text_of result ++ c_str chunk) NUL) NEWLINE
          then Ok (Text (text_of result ++ c_str chunk), rest)
          else readInput_loop fuel (Text (text_of result ++ c_str chunk))
                              (resultSize + (CONSOLE_BUFFER_SIZE - 1)) rest
        else Fail BufferOverflow
    end.
Proof. reflexivity. Qed.

Lemma buffer_size : CONSOLE_BUFFER_SIZE = 1024%nat.
Proof. reflexivity. Qed.

Lemma fgets_length (n : nat) :
  forall stdin : list ascii, (length (fst (fgets n stdin)) <= n)%nat.
Proof.
  induction n as [|n IH]; intros [|c rest]; simpl; try lia.
  destruct (Ascii.eqb c NEWLINE); simpl; [lia|].
  specialize (IH rest). destruct (fgets n rest). simpl in *. lia.
Qed.

Lemma fgets_consumes (n : nat) :
  forall stdin : list ascii, fst (fgets n stdin) ++ snd (fgets n stdin) = stdin.
Proof.
  induction n as [|n IH]; intros [|c rest]; simpl; try reflexivity.
  destruct (Ascii.eqb c NEWLINE); simpl; [reflexivity|].
  specialize (IH rest). destruct (fgets n rest). simpl in *. now rewrite IH.
Qed.

Lemma not_newline (c : ascii) (l : list ascii) :
  none_of [NUL; NEWLINE] (c :: l) = true ->
  Ascii.eqb c NEWLINE = false /\ none_of [NUL; NEWLINE] l = true.
Proof.
  intros [Hc Hl]%DecoderFacts.none_of_cons. cbn [existsb] in Hc.
  apply orb_false_iff in Hc as [_ Hc]. apply orb_false_iff in Hc as [Hc _]. now split.
Qed.

(** A line shorter than the chunk size is read in one call, newline
    included. *)
Lemma fgets_line (l : list ascii) :
  forall (n : nat) (rest : list ascii),
    none_of [NUL; NEWLINE] l = true -> (length l < n)%nat ->
    fgets n (l ++ NEWLINE :: rest) = (l ++ [NEWLINE], rest).
Proof.
  induction l as [|c l IH]; intros n rest Hl Hn.
  - destruct n; [simpl in Hn; lia|]. reflexivity.
  - apply not_newline in Hl as [Hc Hl]. destruct n; [simpl in Hn; lia|].
    cbn [app fgets]. rewrite Hc. rewrite IH by (simpl in Hn; assumption || lia). reflexivity.
Qed.

(** Without a newline in reach, a call reads as much as it may. *)
Lemma fgets_full (l : list ascii) :
  forall (n : nat) (rest : list ascii),
    none_of [NUL; NEWLINE] l = true -> (length l = n \/ rest = [] /\ length l <= n)%nat ->
    fgets n (l ++ rest) = (l, rest).
Proof.
  induction l as [|c l IH]; intros n rest Hl Hn.
  - destruct Hn as [Hn|[-> _]].
    + simpl in Hn. subst n. reflexivity.
    + now destruct n.
  - apply not_newline in Hl as [Hc Hl].
    destruct n; [simpl in Hn; destruct Hn as [Hn|[_ Hn]]; lia|].
    cbn [app fgets]. rewrite Hc. rewrite IH; [reflexivity|exact Hl|].
    simpl in Hn. destruct Hn as [Hn|[-> Hn]]; [left; lia|right; split; [reflexivity|lia]].
Qed.

Lemma last_not_newline (l : list ascii) :
  none_of [NUL; NEWLINE] l = true ->
  forall text : list ascii,
    l <> [] -> Ascii.eqb (List.last (text ++ l) NUL) NEWLINE = false.
Proof.
  intros Hl text Hne. destruct (exists_last Hne) as (front & c & ->).
  rewrite app_assoc, last_last.
  apply DecoderFacts.none_of_app in Hl as [_ Hl]. now apply not_newline in Hl as [Hc _].
Qed.

Lemma plain_c_str (l : list ascii) : none_of [NUL; NEWLINE] l = true -> c_str l = l.
Proof. apply DecoderFacts.none_of_no_nul. Qed.

(** The loop on a stream that holds a newline. *)
Lemma loop_line (n : nat) :
  forall (l rest : list ascii) (result : input) (resultSize fuel : nat),
    (length l <= n)%nat -> none_of [NUL; NEWLINE] l = true ->
    (length (text_of result) <= resultSize)%nat -> (length l < fuel)%nat ->
    readInput_loop fuel result resultSize (l ++ NEWLINE :: rest)
    = Ok (Text (text_of result ++ l ++ [NEWLINE]), rest).
Proof.
  induction n as [n IH] using lt_wf_ind.
  intros l rest result resultSize fuel Hn Hl Hsize Hfuel.
  destruct fuel as [|fuel]; [lia|]. rewrite readInput_loop_S.
  pose proof buffer_size as HB.
  destruct (Nat.lt_ge_cases (length l) (CONSOLE_BUFFER_SIZE - 1)) as [Hshort|Hlong].
  - rewrite fgets_line by assumption.
    assert (Hc : c_str (l ++ [NEWLINE]) = l ++ [NEWLINE]).
    { rewrite DecoderFacts.c_str_app_nonul by (now apply plain_c_str). reflexivity. }
    destruct (l ++ [NEWLINE]) as [|c chunk] eqn:E; [destruct l; discriminate E|].
    rewrite <- E in *. clear E c chunk.
    rewrite decide_True by (rewrite length_app; cbn [length]; lia).
    rewrite Hc, app_assoc, last_last, <- app_assoc.
    replace (0 <? length (text_of result ++ l ++ [NEWLINE]))%nat with true
      by (symmetry; apply Nat.ltb_lt; rewrite !length_app; cbn [length]; lia).
    reflexivity.
  - assert (Hl1 : length (take (CONSOLE_BUFFER_SIZE - 1) l) = (CONSOLE_BUFFER_SIZE - 1)%nat)
      by (rewrite length_take; lia).
    rewrite <- (take_drop (CONSOLE_BUFFER_SIZE - 1) l) in Hn, Hl, Hfuel, Hlong |- *.
    set (l1 := take (CONSOLE_BUFFER_SIZE - 1) l) in *.
    set (l2 := drop (CONSOLE_BUFFER_SIZE - 1) l) in *.
    apply DecoderFacts.none_of_app in Hl as [Hp1 Hp2].
    rewrite <- app_assoc. rewrite fgets_full by (assumption || now left).
    destruct l1 as [|c chunk] eqn:E; [simpl in Hl1; lia|].
    rewrite <- E in *. clear E c chunk.
    rewrite decide_True by lia. rewrite (plain_c_str _ Hp1).
    rewrite last_not_newline by (assumption || (intros E; rewrite E in Hl1; simpl in Hl1; lia)).
    rewrite andb_false_r.
    rewrite length_app in Hn, Hfuel.
    rewrite (IH (length l2)) with (l := l2);
      [cbn [text_of]; now rewrite <- !app_assoc|lia|lia|exact Hp2| |lia].
    cbn [text_of]. rewrite length_app. lia.
Qed.

(** The loop on a stream that ends before any newline. *)
Lemma loop_eof (n : nat) :
  forall (l : list ascii) (result : input) (resultSize fuel : nat),
    (length l <= n)%nat -> none_of [NUL; NEWLINE] l = true ->
    (length (text_of result) <= resultSize)%nat -> (length l < fuel)%nat ->
    readInput_loop fuel result resultSize l
    = Ok (match l with [] => result | _ :: _ => Text (text_of result ++ l) end, []).
Proof.
  induction n as [n IH] using lt_wf_ind.
  intros l result resultSize fuel Hn Hl Hsize Hfuel.
  destruct fuel as [|fuel]; [lia|]. rewrite readInput_loop_S.
  pose proof buffer_size as HB.
  destruct l as [|c0 l0].
  { replace (fgets (CONSOLE_BUFFER_SIZE - 1) []) with (@nil ascii, @nil ascii)
      by (now destruct (CONSOLE_BUFFER_SIZE - 1)%nat).
    reflexivity. }
  cbv iota. remember (c0 :: l0) as l eqn:El.
  assert (Hne : l <> []) by (rewrite El; discriminate).
  clear El c0 l0.
  destruct (Nat.le_gt_cases (length l) (CONSOLE_BUFFER_SIZE - 1)) as [Hshort|Hlong].
  - rewrite <- (app_nil_r l) at 1. rewrite fgets_full by (assumption || now right).
    destruct l as [|c chunk] eqn:E; [contradiction|].
    rewrite <- E in *. clear E c chunk.
    rewrite decide_True by lia. rewrite (plain_c_str _ Hl).
    rewrite last_not_newline by assumption. rewrite andb_false_r.
    destruct fuel as [|fuel]; [destruct l; [contradiction|simpl in Hfuel; lia]|].
    rewrite readInput_loop_S.
    replace (fgets (CONSOLE_BUFFER_SIZE - 1) []) with (@nil ascii, @nil ascii)
      by (now destruct (CONSOLE_BUFFER_SIZE - 1)%nat).
    reflexivity.
  - assert (Hl1 : length (take (CONSOLE_BUFFER_SIZE - 1) l) = (CONSOLE_BUFFER_SIZE - 1)%nat)
      by (rewrite length_take; lia).
    rewrite <- (take_drop (CONSOLE_BUFFER_SIZE - 1) l) in Hn, Hl, Hfuel, Hlong |- *.
    set (l1 := take (CONSOLE_BUFFER_SIZE - 1) l) in *.
    set (l2 := drop (CONSOLE_BUFFER_SIZE - 1) l) in *.
    assert (Hl2 : l2 <> []).
    { intros E. rewrite E, app_nil_r in Hlong. lia. }
    apply DecoderFacts.none_of_app in Hl as [Hp1 Hp2].
    rewrite fgets_full by (assumption || now left).
    destruct l1 as [|c chunk] eqn:E; [simpl in Hl1; lia|].
    rewrite <- E in *. clear E c chunk.
    rewrite decide_True by lia. rewrite (plain_c_str _ Hp1).
    rewrite last_not_newline by (assumption || (intros E; rewrite E in Hl1; simpl in Hl1; lia)).
    rewrite andb_false_r.
    rewrite length_app in Hn, Hfuel.
    rewrite (IH (length l2)) with (l := l2); [|lia|lia|exact Hp2| |lia].
    + cbn [text_of]. destruct l2; [contradiction|]. now rewrite <- app_assoc.
    + cbn [text_of]. rewrite length_app. lia.
Qed.

(** The loop never writes outside the block and never runs out of
    fuel. *)
Lemma loop_total (fuel : nat) :
  forall (stdin : list ascii) (result : input) (resultSize : nat),
    (length (text_of result) <= resultSize)%nat -> (length stdin < fuel)%nat ->
    exists (r : input) (rest : list ascii),
      readInput_loop fuel result resultSize stdin = Ok (r, rest).
Proof.
  induction fuel as [|fuel IH]; intros stdin result resultSize Hsize Hfuel; [lia|].
  rewrite readInput_loop_S. pose proof buffer_size as HB.
  pose proof (fgets_length (CONSOLE_BUFFER_SIZE - 1) stdin) as Hlen.
  pose proof (fgets_consumes (CONSOLE_BUFFER_SIZE - 1) stdin) as Hcons.
  destruct (fgets (CONSOLE_BUFFER_SIZE - 1) stdin) as [chunk rest]. simpl in Hlen, Hcons.
  destruct chunk as [|c tl] eqn:E; [now eexists; eexists|].
  rewrite <- E in *. assert (Hne : (0 < length chunk)%nat) by (rewrite E; simpl; lia).
  clear E. rewrite decide_True by lia.
  destruct (_ && _); [now eexists; eexists|].
  apply IH.
  - cbn [text_of]. rewrite length_app. pose proof (c_str_length chunk). lia.
  - rewrite <- Hcons, length_app in Hfuel. lia.
Qed.

End InputFacts.

(** X16.  [readInput] returns a whole line whatever its length: for a
    stream that starts with characters other than NUL and newline followed
    by a newline, the buffer holds these characters and the newline, and
    the stream is left just after the newline.  When the stream ends
    before any newline the buffer holds what was left; when it is already
    at its end the buffer is returned as [realloc] made it, with no byte
    written. *)
Theorem readInput_reads_one_line (l : list ascii) :
  none_of [NUL; NEWLINE] l = true ->
  (forall rest : list ascii,
     Shell.readInput (l ++ NEWLINE :: rest) = Ok (Shell.Text (l ++ [NEWLINE]), rest)) /\
  Shell.readInput l
  = Ok (match l with [] => Shell.Indeterminate | _ :: _ => Shell.Text l end, []).
Proof.
  intros Hl. split.
  - intros rest. unfold Shell.readInput.
    rewrite (InputFacts.loop_line (length l)); [reflexivity|lia|exact Hl|simpl; lia|].
    rewrite length_app. simpl. lia.
  - unfold Shell.readInput.
    rewrite (InputFacts.loop_eof (length l)); [|lia|exact Hl|simpl; lia|lia].
    now destruct l.
Qed.

Lemma readInput_reads_one_line_witness :
  Shell.readInput (lit "ls -l" ++ NEWLINE :: lit "pwd")
  = Ok (Shell.Text (lit "ls -l" ++ [NEWLINE]), lit "pwd").
Proof.
  destruct (readInput_reads_one_line (lit "ls -l")) as [H _]; [reflexivity|].
  apply (H (lit "pwd")).
Defined.

(** X17.  Whatever standard input holds, NUL bytes included, every
    write of [readInput] stays inside the block that [realloc] returned,
    and the loop ends. *)
Theorem readInput_stays_in_bounds (stdin : list ascii) :
  exists (result : Shell.input) (rest : list ascii),
    Shell.readInput stdin = Ok (result, rest).
Proof.
  unfold Shell.readInput. apply InputFacts.loop_total; simpl; lia.
Qed.

(** ** White-space utilities *)

Module SpaceFacts.
Import Utils.

Lemma char_of_int_zc (c : ascii) : char_of_int (zc c) = c.
Proof. destruct c as [[] [] [] [] [] [] [] []]; reflexivity. Qed.

Lemma zc_range (c : ascii) : 0 <= zc c <= 255.
Proof. destruct c as [[] [] [] [] [] [] [] []]; vm_compute; split; discriminate. Qed.

(** Where [isspace] is defined on a plain [char], it is [isspace] of
    the character. *)
Lemma isspace_int_char (char_is_signed : bool) (c : ascii) :
  char_is_signed = false \/ zc c < 128 ->
  isspace_int (int_of_char char_is_signed c) = Ok (isspace c).
Proof.
  intros H. pose proof (zc_range c) as Hr.
  assert (E : int_of_char char_is_signed c = zc c).
  { unfold int_of_char. destruct H as [->|H]; [reflexivity|].
    replace (128 <=? zc c) with false by (symmetry; apply Z.leb_gt; lia).
    now rewrite andb_false_r. }
  rewrite E. unfold isspace_int, EOF.
  replace (zc c =? -1) with false by (symmetry; apply Z.eqb_neq; lia).
  replace ((0 <=? zc c) && (zc c <=? 255)) with true
    by (symmetry; apply andb_true_iff; split; apply Z.leb_le; lia).
  now rewrite char_of_int_zc.
Qed.

Lemma defined_cons (char_is_signed : bool) (c : ascii) (s : list ascii) :
  char_is_signed = false \/ forallb (fun c => zc c <? 128) (c :: s) = true ->
  (char_is_signed = false \/ zc c < 128) /\
  (char_is_signed = false \/ forallb (fun c => zc c <? 128) s = true).
Proof.
  intros [H|H]; [now split; left|].
  simpl in H. apply andb_true_iff in H as [Hc Hs]. apply Z.ltb_lt in Hc.
  split; now right.
Qed.

Lemma count_loop_spec (char_is_signed : bool) (s : list ascii) :
  forall rv : nat,
    char_is_signed = false \/ forallb (fun c => zc c <? 128) s = true ->
    count_loop char_is_signed s rv = Ok (rv + length (List.filter isspace s))%nat.
Proof.
  induction s as [|c s IH]; intros rv H.
  - simpl. f_equal. lia.
  - apply defined_cons in H as [Hc Hs]. cbn [count_loop List.filter].
    rewrite (isspace_int_char _ _ Hc). cbn [mbind res_bind]. rewrite IH by exact Hs.
    destruct (isspace c); simpl; f_equal; lia.
Qed.

(** The loop of [first_unquoted_space] returns -1 or a position at or
    after [pos] of a white-space character. *)
Lemma unquoted_loop_range (char_is_signed : bool) (tmp : list ascii) :
  forall (pos : Z) (quoted cur : ascii) (r : Z),
    char_is_signed = false \/ forallb (fun c => zc c <? 128) tmp = true ->
    unquoted_loop char_is_signed tmp pos quoted cur = Ok r ->
    r = -1 \/
    (pos <= r /\ exists c : ascii, tmp !! Z.to_nat (r - pos) = Some c /\ isspace c = true).
Proof.
  induction tmp as [|c tmp IH]; intros pos quoted cur r H Hrun.
  - left. simpl in Hrun. now inversion Hrun.
  - apply defined_cons in H as [Hc Hs]. cbn [unquoted_loop] in Hrun. cbv zeta in Hrun.
    assert (Hrest : forall q : ascii,
              unquoted_loop char_is_signed tmp (pos + 1) q c = Ok r ->
              r = -1 \/
              (pos <= r /\ exists x : ascii,
                  (c :: tmp) !! Z.to_nat (r - pos) = Some x /\ isspace x = true)).
    { intros q Hq. destruct (IH _ _ _ _ Hs Hq) as [E|(Hpos & x & Hx & Hsp)]; [now left|].
      right. split; [lia|]. exists x. split; [|exact Hsp].
      replace (Z.to_nat (r - pos)) with (S (Z.to_nat (r - (pos + 1)))) by lia.
      exact Hx. }
    destruct (negb (Ascii.eqb cur BACKSLASH)); [|now apply (Hrest quoted)].
    match type of Hrun with
    | context [if negb (is_set ?q) then _ else _] => set (quoted' := q) in *
    end.
    destruct (negb (is_set quoted')); [|now apply (Hrest quoted')].
    rewrite (isspace_int_char _ _ Hc) in Hrun. cbn [mbind res_bind] in Hrun.
    destruct (isspace c) eqn:Esp; [|now apply (Hrest quoted')].
    inversion Hrun; subst r. right. split; [lia|]. exists c.
    rewrite Z.sub_diag. now split.
Qed.

(** Outside quotes and with no backslash before, the loop stops at the
    first white-space character. *)
Lemma unquoted_loop_plain (char_is_signed : bool) (pre : list ascii) :
  forall (pos : Z) (cur c : ascii) (rest : list ascii),
    char_is_signed = false \/ forallb (fun c => zc c <? 128) (pre ++ c :: rest) = true ->
    none_of [BACKSLASH; SQUOTE; DQUOTE] pre = true ->
    forallb (fun c => negb (isspace c)) pre = true ->
    Ascii.eqb cur BACKSLASH = false -> isspace c = true ->
    unquoted_loop char_is_signed (pre ++ c :: rest) pos NUL cur
    = Ok (pos + Z.of_nat (length pre)).
Proof.
  induction pre as [|x pre IH]; intros pos cur c rest H Hplain Hns Hcur Hsp.
  - apply defined_cons in H as [Hc _]. cbn [app unquoted_loop]. cbv zeta.
    rewrite Hcur. cbn [negb]. change (is_set NUL) with false. cbn [negb andb].
    assert (Hq : Ascii.eqb c SQUOTE || Ascii.eqb c DQUOTE = false).
    { unfold isspace in Hsp.
      repeat (apply orb_true_iff in Hsp as [Hsp|Hsp]);
        apply Ascii.eqb_eq in Hsp; subst c; reflexivity. }
    rewrite Hq. change (is_set NUL) with false. cbn [negb].
    rewrite (isspace_int_char _ _ Hc). cbn [mbind res_bind]. rewrite Hsp.
    f_equal. simpl. lia.
  - apply defined_cons in H as [Hx Hs].
    apply DecoderFacts.none_of_cons in Hplain as [Hbad Hplain].
    cbn [existsb] in Hbad.
    apply orb_false_iff in Hbad as [Hb Hbad]. apply orb_false_iff in Hbad as [Hsq Hbad].
    apply orb_false_iff in Hbad as [Hdq _].
    simpl in Hns. apply andb_true_iff in Hns as [Hxs Hns]. apply negb_true_iff in Hxs.
    cbn [app unquoted_loop]. cbv zeta.
    rewrite Hcur. cbn [negb]. change (is_set NUL) with false. cbn [negb andb].
    rewrite Hsq, Hdq. cbn [orb]. change (is_set NUL) with false. cbn [negb].
    rewrite (isspace_int_char _ _ Hx). cbn [mbind res_bind]. rewrite Hxs.
    rewrite (IH (pos + 1) x c rest Hs Hplain Hns Hb Hsp).
    f_equal. rewrite length_cons. lia.
Qed.

(** Without white space there is nothing to find. *)
Lemma unquoted_loop_none (char_is_signed : bool) (tmp : list ascii) :
  forall (pos : Z) (quoted cur : ascii),
    char_is_signed = false \/ forallb (fun c => zc c <? 128) tmp = true ->
    forallb (fun c => negb (isspace c)) tmp = true ->
    unquoted_loop char_is_signed tmp pos quoted cur = Ok (-1).
Proof.
  induction tmp as [|c tmp IH]; intros pos quoted cur H Hns; [reflexivity|].
  apply defined_cons in H as [Hc Hs].
  simpl in Hns. apply andb_true_iff in Hns as [Hcs Hns]. apply negb_true_iff in Hcs.
  cbn [unquoted_loop]. cbv zeta.
  destruct (negb (Ascii.eqb cur BACKSLASH)); [|now apply IH].
  match goal with
  | |- context [if negb (is_set ?q) then _ else _] => set (quoted' := q)
  end.
  destruct (negb (is_set quoted')); [|now apply IH].
  rewrite (isspace_int_char _ _ Hc). cbn [mbind res_bind]. rewrite Hcs. now apply IH.
Qed.

End SpaceFacts.

(** X18.  Where [isspace] is defined on the characters of the string
    (plain [char] is unsigned, or the string is ASCII), [count_spaces]
    returns the number of its white-space characters. *)
Theorem count_spaces_counts (char_is_signed : bool) (str : list ascii) :
  char_is_signed = false \/ forallb (fun c => zc c <? 128) (c_str str) = true ->
  Utils.count_spaces char_is_signed str
  = Ok (length (List.filter isspace (c_str str))).
Proof.
  intros H. unfold Utils.count_spaces. now rewrite SpaceFacts.count_loop_spec.
Qed.

Lemma count_spaces_counts_witness :
  Utils.count_spaces true (lit "a b  c")
  = Ok (length (List.filter isspace (c_str (lit "a b  c")))).
Proof. apply (count_spaces_counts true (lit "a b  c")). right. reflexivity. Defined.

(** X19.  Where [isspace] is defined on the characters of the string,
    [first_unquoted_space] returns -1 or the index of a white-space
    character of the string; in a string whose first white-space
    character is preceded by no quote and no backslash it returns the
    index of that character; in a string without white space it
    returns -1. *)
Theorem first_unquoted_space_finds (char_is_signed : bool) (str : list ascii) :
  char_is_signed = false \/ forallb (fun c => zc c <? 128) (c_str str) = true ->
  (forall r : Z,
     Utils.first_unquoted_space char_is_signed str = Ok r ->
     r = -1 \/
     (0 <= r /\ exists c : ascii, c_str str !! Z.to_nat r = Some c /\ isspace c = true)) /\
  (forall (pre : list ascii) (c : ascii) (rest : list ascii),
     c_str str = pre ++ c :: rest ->
     none_of [BACKSLASH; SQUOTE; DQUOTE] pre = true ->
     forallb (fun c => negb (isspace c)) pre = true ->
     isspace c = true ->
     Utils.first_unquoted_space char_is_signed str = Ok (Z.of_nat (length pre))) /\
  (forallb (fun c => negb (isspace c)) (c_str str) = true ->
   Utils.first_unquoted_space char_is_signed str = Ok (-1)).
Proof.
  intros H. unfold Utils.first_unquoted_space. split; [|split].
  - intros r Hr.
    destruct (SpaceFacts.unquoted_loop_range _ _ _ _ _ _ H Hr) as [E|(Hpos & c & Hc & Hsp)];
      [now left|].
    right. split; [exact Hpos|]. exists c. now rewrite Z.sub_0_r in Hc.
  - intros pre c rest E Hplain Hns Hsp. rewrite E in *.
    now rewrite SpaceFacts.unquoted_loop_plain.
  - intros Hns. now apply SpaceFacts.unquoted_loop_none.
Qed.

Lemma first_unquoted_space_finds_witness :
  Utils.first_unquoted_space true (lit "ab cd") = Ok (Z.of_nat (length (lit "ab"))).
Proof.
  destruct (first_unquoted_space_finds true (lit "ab cd")) as (_ & H & _);
    [right; reflexivity|].
  apply (H (lit "ab") " "%char (lit "cd")); reflexivity.
Defined.

(** ** The prompt *)

Module PromptFacts.
Import Utils Shell.

(** Copying a string to the end of the text of a block whose other bytes
    are NUL. *)
Lemma strcpy_text (text src : list ascii) (n off : nat) :
  off = length text -> (strlen src < n)%nat ->
  strcpy (text ++ replicate n NUL) off src
  = Ok ((text ++ c_str src) ++ replicate (n - strlen src) NUL).
Proof.
  intros -> Hn. unfold strcpy, strlen in *. cbv zeta.
  rewrite decide_True by (rewrite !length_app, length_replicate; simpl; lia).
  f_equal. rewrite take_app_length, drop_app_add, drop_replicate.
  rewrite length_app. cbn [length].
  replace (n - length (c_str src))%nat with (S (n - (length (c_str src) + 1)))%nat by lia.
  rewrite replicate_S. now rewrite <- !app_assoc.
Qed.

End PromptFacts.

(** X20.  [initPrompt] writes the user name, an at sign, the host name
    and [ $ ] into a block of exactly the size they need with the
    terminator: no [strcpy] runs past its end.  It then frees both names.
    When the library keeps the user name at the start of a block of
    [malloc], the prompt is set and that block of the library is freed
    with the block of the host name; when it keeps the name anywhere
    else, [free(userName)] is not a valid call.  When the user or the
    host name cannot be found, NULL is passed to [strlen]. *)
Theorem prompt_fits_its_block (userName hostName : list ascii) (w : world) :
  Shell.format_prompt userName hostName
  = Ok (c_str userName ++ lit "@" ++ c_str hostName ++ lit " $ " ++ [NUL]) /\
  (forall p : nat,
     w_heap w !! p = Some (Live userName) ->
     Shell.initPrompt (Some (Shell.AtBlock p)) (Some hostName) w
     = Done (c_str userName ++ lit "@" ++ c_str hostName ++ lit " $ ")
            (set_heap w (<[p:=Freed]> (w_heap w) ++ [Freed]))) /\
  Shell.initPrompt (Some (Shell.Elsewhere userName)) (Some hostName) w
  = Stopped (Faulted InvalidFree) (set_heap w (w_heap w ++ [Live hostName])) /\
  (forall host : option (list ascii),
     exists w' : world,
       Shell.initPrompt None host w = Stopped (Faulted NullDeref) w' /\
       In (Perror "getUserName: failed to retrieve user name!") (w_trace w')) /\
  Shell.initPrompt (Some (Shell.Elsewhere userName)) None w
  = Stopped (Faulted NullDeref)
            (add_trace (set_heap w (w_heap w ++ [Live []]))
                       [Perror "getHostName: failed to retrieve host name!"]).
Proof.
  assert (Hfmt : Shell.format_prompt userName hostName
                 = Ok (c_str userName ++ lit "@" ++ c_str hostName ++ lit " $ " ++ [NUL])).
  { unfold Shell.format_prompt. cbv zeta.
    change (replicate (strlen userName + strlen hostName + 5) NUL)
      with ([] ++ replicate (strlen userName + strlen hostName + 5) NUL).
    rewrite PromptFacts.strcpy_text by (reflexivity || lia). cbn [mbind res_bind].
    rewrite PromptFacts.strcpy_text
      by (rewrite ?length_app; unfold strlen; simpl; lia).
    cbn [mbind res_bind].
    rewrite PromptFacts.strcpy_text
      by (rewrite ?length_app; unfold strlen; simpl; lia).
    cbn [mbind res_bind].
    rewrite PromptFacts.strcpy_text
      by (rewrite ?length_app; unfold strlen; simpl; lia).
    f_equal. change (strlen (lit "@")) with 1%nat. change (strlen (lit " $ ")) with 3%nat.
    replace (strlen userName + strlen hostName + 5 - strlen userName - 1
             - strlen hostName - 3)%nat with 1%nat by lia.
    change (c_str (lit "@")) with (lit "@"). change (c_str (lit " $ ")) with (lit " $ ").
    simpl app at 1. now rewrite <- !app_assoc. }
  assert (Htext : c_str (c_str userName ++ lit "@" ++ c_str hostName ++ lit " $ " ++ [NUL])
                  = c_str userName ++ lit "@" ++ c_str hostName ++ lit " $ ").
  { rewrite DecoderFacts.c_str_app_nonul by apply TrimFacts.c_str_idem.
    f_equal. change (lit "@" ++ c_str hostName ++ lit " $ " ++ [NUL])
      with ("@"%char :: (c_str hostName ++ lit " $ " ++ [NUL])).
    cbn [c_str]. change (Ascii.eqb "@" NUL) with false. cbv iota. cbn [app]. f_equal.
    rewrite DecoderFacts.c_str_app_nonul by apply TrimFacts.c_str_idem. reflexivity. }
  split; [exact Hfmt|]. split; [|split; [|split]].
  - intros p Hp. pose proof (lookup_lt_Some _ _ _ Hp) as Hlt.
    unfold Shell.initPrompt, Shell.getUserName, Shell.getHostName, Shell.malloc_str,
      Shell.load_str, Shell.free_str, Shell.load, Shell.free, bind, ret, get_heap, put_heap.
    cbn [w_heap w_trace w_history w_nforks w_pid w_ppid].
    rewrite lookup_app_l by exact Hlt. rewrite Hp.
    cbn [w_heap w_trace w_history w_nforks w_pid w_ppid].
    rewrite list_lookup_middle by reflexivity.
    rewrite Hfmt. cbn [lift]. unfold ret.
    cbn [w_heap w_trace w_history w_nforks w_pid w_ppid].
    rewrite lookup_app_l by exact Hlt. rewrite Hp.
    cbn [w_heap w_trace w_history w_nforks w_pid w_ppid].
    rewrite insert_app_l by exact Hlt.
    rewrite list_lookup_middle by (now rewrite length_insert).
    cbn [w_heap w_trace w_history w_nforks w_pid w_ppid].
    rewrite Htext. unfold set_heap. do 2 f_equal.
    rewrite insert_app_r_alt by (rewrite length_insert; lia).
    rewrite length_insert, Nat.sub_diag. reflexivity.
  - unfold Shell.initPrompt, Shell.getUserName, Shell.getHostName, Shell.malloc_str,
      Shell.load_str, Shell.free_str, Shell.load, bind, ret, get_heap, put_heap.
    cbn [w_heap w_trace w_history w_nforks w_pid w_ppid].
    rewrite list_lookup_middle by reflexivity.
    rewrite Hfmt. reflexivity.
  - intros [host|]; eexists; (split; [reflexivity|]); cbn [w_trace];
      rewrite ?in_app_iff; simpl; tauto.
  - reflexivity.
Qed.

Lemma prompt_fits_its_block_witness :
  Shell.initPrompt (Some (Shell.AtBlock 0)) (Some (lit "vm"))
                   (World [] (Some []) [Live (lit "root")] 0 100 99)
  = Done (lit "root@vm $ ") (World [] (Some []) [Freed; Freed] 0 100 99).
Proof.
  destruct (prompt_fits_its_block (lit "root") (lit "vm")
              (World [] (Some []) [Live (lit "root")] 0 100 99)) as (_ & H & _).
  exact (H 0%nat eq_refl).
Defined.

(** ** The procread built-in and the program name *)

(** X21.  An argument of [procread] whose path does not fit the 256-byte
    local buffer is copied into it all the same: any relative name of
    250 characters or more makes [processProcread] write past the end of
    the buffer, before any file is opened. *)
Theorem procread_long_argument_overflows (os : OS) (fileName : list ascii) (w : world) :
  c_str fileName <> [] ->
  nth 0 (c_str fileName) NUL <> "/"%char ->
  (250 <= strlen fileName)%nat ->
  Shell.list_eqb (take 5 (c_str fileName)) (lit "proc/") = false \/
  (256 <= strlen fileName)%nat ->
  Shell.processProcread os (Some fileName) w = Stopped (Faulted BufferOverflow) w.
Proof.
  intros Hne Hrel Hlen Hpath. unfold Shell.processProcread. cbv zeta.
  unfold strlen in *. destruct (c_str fileName) as [|c f] eqn:E; [congruence|].
  change (nth 0 (c :: f) NUL) with c in *.
  apply Ascii.eqb_neq in Hrel. rewrite Hrel.
  replace (length (c :: f) =? 0)%nat with false by reflexivity.
  replace (256 <? S (length (Shell.procread_path (c :: f))))%nat with true; [reflexivity|].
  symmetry. apply Nat.ltb_lt. unfold Shell.procread_path.
  destruct (Shell.list_eqb (take 5 (c :: f)) (lit "proc/")).
  - destruct Hpath as [Hpath|Hpath]; [discriminate Hpath|lia].
  - rewrite length_app. change (length (lit "/proc/")) with 6%nat. lia.
Qed.

Lemma procread_long_argument_overflows_witness :
  Shell.processProcread Inputs.os_parent (Some (repeat "a"%char 250)) Inputs.w0
  = Stopped (Faulted BufferOverflow) Inputs.w0.
Proof.
  apply (procread_long_argument_overflows Inputs.os_parent (repeat "a"%char 250) Inputs.w0).
  - discriminate.
  - discriminate.
  - apply Nat.leb_le. vm_compute. reflexivity.
  - left. reflexivity.
Defined.

Module NameFacts.
Import Utils Shell.

Lemma getProgramName_word (w : list ascii) :
  forall r : list ascii,
    none_of [NUL; DQUOTE; " "; "009"] w = true ->
    none_of ["010"; "011"; "012"; "013"] w = true ->
    is_blank (hd " " r) = true ->
    getProgramName (w ++ r) = w.
Proof.
  induction w as [|c w IH]; intros r Hw Hs Hr.
  - destruct r as [|b r]; [reflexivity|]. simpl in Hr |- *.
    unfold isspace. unfold is_blank in Hr.
    apply orb_true_iff in Hr as [Hr|Hr]; rewrite Hr; simpl; now rewrite ?orb_true_r.
  - apply WordFacts.word_char in Hw as (Hn & _ & Hb & Hw).
    apply DecoderFacts.none_of_cons in Hs as [Hc Hs]. cbn [existsb] in Hc.
    apply orb_false_iff in Hc as [H10 Hc]. apply orb_false_iff in Hc as [H11 Hc].
    apply orb_false_iff in Hc as [H12 Hc]. apply orb_false_iff in Hc as [H13 _].
    unfold is_blank in Hb. apply orb_false_iff in Hb as [Hsp Htab].
    cbn [app getProgramName]. unfold isspace.
    rewrite Hn, Hsp, Htab, H10, H11, H12, H13. cbn [orb]. now rewrite IH.
Qed.

End NameFacts.

(** X22.  For a command without NUL and double quote whose only
    white-space characters are spaces and tabs, and which does not start
    with one, the program name that [getProgramName] returns is the first
    word of the command, that is the first entry of the argument vector
    (the empty string for the empty command). *)
Theorem program_name_is_the_first_word (command : list ascii) :
  none_of [NUL; DQUOTE; "010"; "011"; "012"; "013"] command = true ->
  Utils.is_blank (hd "a"%char command) = false ->
  Shell.getProgramName command = hd [] (words command).
Proof.
  intros Hplain Hb.
  assert (Hs : none_of [NUL; DQUOTE] command = true)
    by (revert Hplain; now apply DecoderFacts.none_of_sub).
  assert (Hws : none_of ["010"; "011"; "012"; "013"] command = true)
    by (revert Hplain; now apply DecoderFacts.none_of_sub).
  destruct (WordFacts.word_run command Hs) as (w & r & -> & Hw & _ & Hr).
  apply DecoderFacts.none_of_app in Hws as [Hws _].
  rewrite NameFacts.getProgramName_word by assumption.
  destruct w as [|c w].
  - destruct r as [|b r]; [reflexivity|]. simpl in Hb, Hr. congruence.
  - now rewrite WordFacts.words_word by (assumption || discriminate).
Qed.

Lemma program_name_is_the_first_word_witness :
  Shell.getProgramName (lit "ls  -l") = hd [] (words (lit "ls  -l")).
Proof. apply (program_name_is_the_first_word (lit "ls  -l")); reflexivity. Defined.

(** ** The history file is only appended to *)

Module FileFacts.
Import Utils Shell.

Lemma keeps_ret {A} (a : A) : keeps_file (ret a).
Proof. intros w. reflexivity. Qed.

Lemma keeps_halt {A} (why : stop) : keeps_file (@halt A why).
Proof. intros w. reflexivity. Qed.

Lemma keeps_lift {A} (r : res A) : keeps_file (lift r).
Proof. intros w. now destruct r. Qed.

Lemma keeps_emit (e : event) : keeps_file (emit e).
Proof. intros w. reflexivity. Qed.

Lemma keeps_bind {A B} (c : M A) (k : A -> M B) :
  keeps_file c -> (forall a : A, keeps_file (k a)) -> keeps_file (bind c k).
Proof.
  intros Hc Hk w. unfold bind. specialize (Hc w).
  destruct (c w) as [a w1|why w1]; simpl in *; [|exact Hc].
  now rewrite Hk.
Qed.

Lemma keeps_get_heap : keeps_file get_heap.
Proof. intros w. reflexivity. Qed.

Lemma keeps_put_heap (h : list heap_block) : keeps_file (put_heap h).
Proof. intros w. reflexivity. Qed.

Lemma keeps_get_history : keeps_file get_history.
Proof. intros w. reflexivity. Qed.

Lemma keeps_getpid : keeps_file getpid.
Proof. intros w. reflexivity. Qed.

Lemma keeps_getppid : keeps_file getppid.
Proof. intros w. reflexivity. Qed.

Lemma keeps_fork (os : OS) : keeps_file (fork os).
Proof. intros w. unfold fork. now destruct (_ =? 0). Qed.

Create HintDb keeps_file_db.

#[local] Hint Resolve keeps_ret keeps_halt keeps_lift keeps_emit keeps_get_heap
  keeps_put_heap keeps_get_history keeps_getpid keeps_getppid keeps_fork : keeps_file_db.

Ltac keeps_tac :=
  repeat first
    [ solve [auto with keeps_file_db]
    | apply keeps_bind; [|intros ?]
    | match goal with
      | |- keeps_file (match ?x with _ => _ end) => destruct x
      end ].

Lemma keeps_malloc_str (s : list ascii) : keeps_file (malloc_str s).
Proof. unfold malloc_str. keeps_tac. Qed.

Lemma keeps_free (ptr : slot) : keeps_file (free ptr).
Proof. unfold free. keeps_tac. Qed.

Lemma keeps_load (ptr : slot) : keeps_file (load ptr).
Proof. unfold load. keeps_tac. Qed.

Lemma keeps_read_entries (chunks : list (list ascii)) :
  forall (numEntries : Z) (result : list slot) (numAllocated numRead : Z),
    keeps_file (read_entries chunks numEntries result numAllocated numRead).
Proof.
  induction chunks as [|buffer chunks IH]; intros; cbn [read_entries].
  - apply keeps_ret.
  - destruct (numRead =? numAllocated);
      (apply keeps_bind; [apply keeps_lift|intros ?]);
      (apply keeps_bind; [apply keeps_malloc_str|intros ?]);
      (apply keeps_bind; [apply keeps_lift|intros ?]); apply IH.
Qed.

Lemma keeps_shift_entries (n : nat) :
  forall (i numEntries adjust : Z) (result : list slot),
    keeps_file (shift_entries n i numEntries adjust result).
Proof.
  induction n as [|n IH]; intros; cbn [shift_entries].
  - apply keeps_ret.
  - apply keeps_bind; [|intros ?; apply IH].
    destruct (i <? numEntries); [|apply keeps_lift].
    apply keeps_bind; [apply keeps_lift|intros ?].
    apply keeps_bind; [apply keeps_free|intros ?].
    apply keeps_bind; [apply keeps_lift|intros ?]. apply keeps_lift.
Qed.

Lemma keeps_readHistory (numEntries : Z) : keeps_file (readHistory numEntries).
Proof.
  unfold readHistory. destruct (numEntries >? 0); [|apply keeps_ret].
  apply keeps_bind; [apply keeps_get_history|intros [file|]].
  - apply keeps_bind; [apply keeps_read_entries|intros [result numRead]].
    apply keeps_bind; [apply keeps_lift|intros ?].
    apply keeps_bind; [apply keeps_free|intros ?].
    apply keeps_bind; [apply keeps_lift|intros ?].
    apply keeps_bind; [|intros [? ?]; apply keeps_ret].
    destruct (_ >? _); [|apply keeps_ret].
    apply keeps_bind; [apply keeps_shift_entries|intros ?; apply keeps_ret].
  - apply keeps_bind; [apply keeps_emit|intros ?; apply keeps_ret].
Qed.

Lemma keeps_print_entries (n : nat) :
  forall (i : Z) (history : list slot), keeps_file (print_entries n i history).
Proof.
  induction n as [|n IH]; intros; cbn [print_entries].
  - apply keeps_ret.
  - apply keeps_bind; [apply keeps_lift|intros ?].
    apply keeps_bind; [apply keeps_load|intros ?].
    apply keeps_bind; [apply keeps_emit|intros ?]. apply IH.
Qed.

Lemma keeps_free_entries (n : nat) :
  forall (i : Z) (entries : list slot), keeps_file (free_entries n i entries).
Proof.
  induction n as [|n IH]; intros; cbn [free_entries].
  - apply keeps_ret.
  - apply keeps_bind; [apply keeps_lift|intros ?].
    apply keeps_bind; [apply keeps_free|intros ?]. apply IH.
Qed.

Lemma keeps_print_chunks (chunks : list (list ascii)) : keeps_file (print_chunks chunks).
Proof.
  induction chunks as [|buffer chunks IH]; cbn [print_chunks].
  - apply keeps_ret.
  - apply keeps_bind; [apply keeps_emit|intros ?; exact IH].
Qed.

Lemma keeps_emit_all (lines : list string) : keeps_file (emit_all lines).
Proof.
  induction lines as [|l lines IH]; cbn [emit_all].
  - apply keeps_ret.
  - apply keeps_bind; [apply keeps_emit|intros ?; exact IH].
Qed.

#[local] Hint Resolve keeps_malloc_str keeps_free keeps_load keeps_read_entries
  keeps_shift_entries keeps_readHistory keeps_print_entries keeps_free_entries
  keeps_print_chunks keeps_emit_all : keeps_file_db.





End FileFacts.



(** ** From the line to the process *)

(** X24.  Quotes do not keep an argument together.  The decoder removes
    the quote characters, so the tokenizer sees the decoded text and
    splits it at every blank, those that were quoted included: the
    tokens of a line with a quoted span are the words of the line with
    the two quotes dropped. *)
Theorem quoted_blanks_still_split (q : ascii) (pre body post : list ascii) :
  q = SQUOTE \/ q = DQUOTE ->
  none_of [NUL; BACKSLASH; SQUOTE; DQUOTE] (pre ++ body ++ post) = true ->
  (length (words (pre ++ body ++ post)) < 1000)%nat ->
  Utils.unescape (pre ++ q :: body ++ q :: post) = ([], Some (pre ++ body ++ post)) /\
  exists (args : list Utils.slot) (buf : list ascii),
    Shell.getArgs (pre ++ body ++ post)
    = Ok (args, length (words (pre ++ body ++ post)), buf) /\
    Utils.token_texts buf args (length (words (pre ++ body ++ post)))
    = map Some (words (pre ++ body ++ post)).
Proof.
  intros Hq Hplain Hlen.
  pose proof Hplain as Hparts.
  apply DecoderFacts.none_of_app in Hparts as [Hpre Hparts].
  apply DecoderFacts.none_of_app in Hparts as [Hbody Hpost].
  split.
  - assert (Hbody' : none_of [NUL; BACKSLASH; q] body = true).
    { revert Hbody. apply DecoderFacts.none_of_sub. destruct Hq; subst q; reflexivity. }
    unfold Utils.unescape.
    rewrite DecoderFacts.c_str_span
      by (assumption || (eapply DecoderFacts.none_of_no_nul; eassumption)).
    rewrite DecoderFacts.scan_span by assumption.
    rewrite <- (app_nil_r post) at 1.
    rewrite DecoderFacts.scan_plain by (eapply DecoderFacts.none_of_weaken; exact Hpost).
    simpl. now rewrite <- !app_assoc.
  - assert (Hs : none_of [NUL; DQUOTE] (pre ++ body ++ post) = true)
      by (revert Hplain; now apply DecoderFacts.none_of_sub).
    destruct (WordFacts.getTokens_unquoted _ Hs Hlen) as (args & buf & Hget & _ & Htok & _).
    exists args, buf. split; [exact Hget|]. now apply WordFacts.token_texts_words.
Qed.

Lemma quoted_blanks_still_split_witness :
  Utils.unescape (lit "echo " ++ DQUOTE :: lit "a b" ++ DQUOTE :: [])
  = ([], Some (lit "echo " ++ lit "a b" ++ [])) /\
  exists (args : list Utils.slot) (buf : list ascii),
    Shell.getArgs (lit "echo " ++ lit "a b" ++ [])
    = Ok (args, length (words (lit "echo " ++ lit "a b" ++ [])), buf) /\
    Utils.token_texts buf args (length (words (lit "echo " ++ lit "a b" ++ [])))
    = map Some (words (lit "echo " ++ lit "a b" ++ [])).
Proof.
  apply (quoted_blanks_still_split DQUOTE (lit "echo ") (lit "a b") []);
    [right; reflexivity|reflexivity|vm_compute; lia].
Defined.

Module LineFacts.
Import Utils Shell.

Lemma streq_false (s : list ascii) (name : string) :
  c_str s = s -> c_str (lit name) = lit name -> s <> lit name ->
  streq s (lit name) = false.
Proof.
  intros Hs Hname Hdiff. destruct (streq s (lit name)) eqn:E; [|reflexivity].
  unfold streq in E. apply ExecFacts.list_eqb_eq in E.
  rewrite Hs, Hname in E. contradiction.
Qed.

Lemma getProgramName_no_nul (command : list ascii) :
  c_str (getProgramName command) = getProgramName command.
Proof.
  induction command as [|c s IH]; [reflexivity|]. simpl.
  destruct (Ascii.eqb c NUL) eqn:E; [reflexivity|]. simpl.
  destruct (isspace c); [reflexivity|]. simpl. now rewrite E, IH.
Qed.

(** The command that a line of plain text gives is part of the line. *)
Lemma trim_plain (line command : list ascii) :
  none_of [NUL; BACKSLASH; SQUOTE; DQUOTE] line = true ->
  trim (Some line) = Ok command ->
  none_of [NUL; BACKSLASH; SQUOTE; DQUOTE] command = true /\
  (forall c s, command = c :: s -> isspace c = false).
Proof.
  intros Hplain Htrim.
  destruct (TrimFacts.trim_split line) as (sp & t & post & Ht & E & Hfirst).
  rewrite Htrim in Ht. injection Ht as <-.
  rewrite (DecoderFacts.none_of_no_nul _ _ Hplain) in E. rewrite E in Hplain.
  apply DecoderFacts.none_of_app in Hplain as [_ Hplain].
  apply DecoderFacts.none_of_app in Hplain as [Hplain _]. now split.
Qed.

(** A line of plain text that is neither blank nor a built-in is handed
    to [processSystemCommand], after the prompt and the history, and the
    loop goes on unless that returns a negative value. *)
Lemma commandLoop_external (os : OS) (prompt line command file : list ascii)
    (stdin : list (list ascii)) (w : world) :
  none_of [NUL; BACKSLASH; SQUOTE; DQUOTE] line = true ->
  trim (Some line) = Ok command ->
  command <> [] -> command <> lit "exit" ->
  getProgramName command <> lit "procread" ->
  getProgramName command <> lit "history" ->
  w_history w = Some file ->
  commandLoop os prompt (line :: stdin) w
  = bind (processSystemCommand os command)
         (fun r => if r <? 0 then ret tt else commandLoop os prompt stdin)
         (World (w_trace w ++ [Printf (string_of_list_ascii prompt) []])
                (Some (file ++ line)) (w_heap w) (w_nforks w) (w_pid w) (w_ppid w)).
Proof.
  intros Hplain Htrim Hne Hexit Hproc Hhist Hfile.
  pose proof (LoopFacts.trim_no_nul _ _ Htrim) as Hnul.
  destruct (trim_plain _ _ Hplain Htrim) as [Hcommand _].
  rewrite LoopFacts.commandLoop_cons. unfold bind at 1.
  unfold writePrompt. rewrite ProcreadFacts.emit_spec.
  unfold bind at 1. unfold readCommand.
  rewrite (DecoderFacts.unescape_plain _ Hplain).
  unfold appendHistory, bind, get_history, put_history.
  cbn [add_trace w_history].
  rewrite Hfile. cbn [emit_all]. unfold ret. rewrite Htrim. cbn [lift]. unfold ret.
  rewrite (DecoderFacts.none_of_no_nul _ _ Hplain).
  unfold processCommand.
  rewrite (streq_false command "exit"%string Hnul eq_refl Hexit).
  rewrite (streq_false _ "procread"%string (getProgramName_no_nul _) eq_refl Hproc).
  rewrite (streq_false _ "history"%string (getProgramName_no_nul _) eq_refl Hhist).
  replace (0 <? strlen command)%nat with true
    by (symmetry; apply Nat.ltb_lt; unfold strlen; rewrite Hnul;
        destruct command; [contradiction|simpl; lia]).
  destruct command as [|c s]; [contradiction|].
  apply DecoderFacts.none_of_cons in Hcommand as [Hc _]. cbn [existsb] in Hc.
  apply orb_false_iff in Hc as [_ Hc]. apply orb_false_iff in Hc as [_ Hc].
  apply orb_false_iff in Hc as [Hsq Hc]. apply orb_false_iff in Hc as [Hdq _].
  change (nth 0 (c :: s) NUL) with c. change (Ascii.eqb c "034") with (Ascii.eqb c DQUOTE).
  change (Ascii.eqb c "'") with (Ascii.eqb c SQUOTE). rewrite Hsq, Hdq. cbn [orb].
  unfold bind, ret. reflexivity.
Qed.

End LineFacts.

(** X25.  A line of plain text that is neither blank nor a built-in: in
    the parent process the loop prints the prompt, appends the line to
    the history file, forks once, waits for the child and goes on to the
    next line. *)
Theorem external_command_in_the_parent (os : OS) (prompt line command file : list ascii)
    (stdin : list (list ascii)) (w : world) (pid : Z) :
  none_of [NUL; BACKSLASH; SQUOTE; DQUOTE] line = true ->
  Utils.trim (Some line) = Ok command ->
  command <> [] -> command <> lit "exit" ->
  Shell.getProgramName command <> lit "procread" ->
  Shell.getProgramName command <> lit "history" ->
  w_history w = Some file ->
  os_fork os (w_nforks w) = pid -> pid <> -1 -> pid <> 0 ->
  Shell.commandLoop os prompt (line :: stdin) w
  = Shell.commandLoop os prompt stdin
      (World (w_trace w ++
                [Printf (string_of_list_ascii prompt) [];
                 Fork pid;
                 Printf "Parent process: My PID is %d, My child's PID is %d\n"
                        [AInt (w_pid w); AInt pid];
                 Printf "Parent process: waiting for child to complete...\n" [];
                 Wait;
                 Printf "Parent process: child completed\n" []])
             (Some (file ++ line)) (w_heap w) (S (w_nforks w)) (w_pid w) (w_ppid w)).
Proof.
  intros Hplain Htrim Hne Hexit Hproc Hhist Hfile Hpid Hfail Hchild.
  rewrite (LineFacts.commandLoop_external os prompt line command file) by assumption.
  unfold bind.
  rewrite (ExecFacts.processSystemCommand_parent os command _ pid) by assumption.
  change (0 <? 0) with false. cbv iota.
  cbn [w_trace w_history w_heap w_nforks w_pid w_ppid].
  now rewrite <- app_assoc.
Qed.

Lemma external_command_in_the_parent_witness :
  Shell.commandLoop Inputs.os_parent (lit "$ ") [Inputs.line " ls -l"] Inputs.w0
  = Shell.commandLoop Inputs.os_parent (lit "$ ") []
      (World ([] ++
                [Printf (string_of_list_ascii (lit "$ ")) [];
                 Fork 4242;
                 Printf "Parent process: My PID is %d, My child's PID is %d\n"
                        [AInt 100; AInt 4242];
                 Printf "Parent process: waiting for child to complete...\n" [];
                 Wait;
                 Printf "Parent process: child completed\n" []])
             (Some ([] ++ Inputs.line " ls -l")) [] 1 100 99).
Proof.
  apply (external_command_in_the_parent Inputs.os_parent (lit "$ ") (Inputs.line " ls -l")
           (lit "ls -l") [] [] Inputs.w0 4242);
    try reflexivity; try discriminate; lia.
Defined.

(** X26.  A command that cannot be executed leaves a second shell
    running.  For a line of plain text with fewer than a thousand words
    that is neither blank nor a built-in: in the child, when [execvp]
    fails, the error is printed and [processSystemCommand] returns 1
    instead of ending the process: the child goes on with the command
    loop and reads the next line of the same input. *)
Theorem failed_exec_leaves_a_second_shell (os : OS) (prompt line command file : list ascii)
    (stdin : list (list ascii)) (w : world) :
  none_of [NUL; BACKSLASH; SQUOTE; DQUOTE] line = true ->
  Utils.trim (Some line) = Ok command ->
  command <> [] -> command <> lit "exit" ->
  Shell.getProgramName command <> lit "procread" ->
  Shell.getProgramName command <> lit "history" ->
  w_history w = Some file ->
  (length (words command) < 1000)%nat ->
  os_fork os (w_nforks w) = 0 ->
  os_execvp os (Shell.getProgramName command) (map Some (words command)) = false ->
  Shell.commandLoop os prompt (line :: stdin) w
  = Shell.commandLoop os prompt stdin
      (World (w_trace w ++
                [Printf (string_of_list_ascii prompt) [];
                 Fork 0;
                 Printf "Child process: My PID is %d, My parent's PID is %d\n"
                        [AInt (os_child_pid os (w_nforks w)); AInt (w_pid w)];
                 Printf "Child process: executing '%s'\n" [AStr command];
                 Execvp (Shell.getProgramName command) (map Some (words command)) false;
                 Eprintf "processSystemCommand: ERROR - command execution failed with '%s'\n"
                         [AStr (os_strerror os)]])
             (Some (file ++ line)) (w_heap w) (S (w_nforks w))
             (os_child_pid os (w_nforks w)) (w_pid w)).
Proof.
  intros Hplain Htrim Hne Hexit Hproc Hhist Hfile Hlen Hpid Hexec.
  destruct (LineFacts.trim_plain _ _ Hplain Htrim) as [Hcommand Hfirst].
  assert (Hs : none_of [NUL; DQUOTE] command = true)
    by (revert Hcommand; now apply DecoderFacts.none_of_sub).
  assert (Hb : Utils.is_blank (hd " "%char command) = false).
  { destruct command as [|c s]; [contradiction|]. simpl.
    pose proof (Hfirst c s eq_refl) as Hc. unfold isspace in Hc. unfold Utils.is_blank.
    apply orb_false_iff in Hc as [Hc _]. apply orb_false_iff in Hc as [Hc _].
    apply orb_false_iff in Hc as [Hc _]. apply orb_false_iff in Hc as [Hc _]. exact Hc. }
  destruct (ExecFacts.getArgs_unquoted command Hs Hb Hlen)
    as (args & buf & Hargs & Htexts & Hfree & _).
  rewrite (LineFacts.commandLoop_external os prompt line command file) by assumption.
  unfold bind.
  erewrite ExecFacts.processSystemCommand_child; [|exact Hpid|exact Hargs|exact Hfree].
  rewrite Htexts, (DecoderFacts.none_of_no_nul _ _ Hs).
  cbn [w_trace w_history w_heap w_nforks w_pid w_ppid]. rewrite Hexec.
  change (1 <? 0) with false. cbv iota. unfold add_trace.
  cbn [w_trace w_history w_heap w_nforks w_pid w_ppid].
  now rewrite <- !app_assoc.
Qed.

Lemma failed_exec_leaves_a_second_shell_witness :
  Shell.commandLoop
    {| os_fork := fun _ => 0; os_child_pid := fun _ => 4242;
       os_execvp := fun _ _ => false; os_strerror := lit "No such file or directory";
       os_fopen := fun _ => None |}
    (lit "$ ") [Inputs.line "nosuch"; Inputs.line "exit"] Inputs.w0
  = Shell.commandLoop
      {| os_fork := fun _ => 0; os_child_pid := fun _ => 4242;
         os_execvp := fun _ _ => false; os_strerror := lit "No such file or directory";
         os_fopen := fun _ => None |}
      (lit "$ ") [Inputs.line "exit"]
      (World ([] ++
                [Printf (string_of_list_ascii (lit "$ ")) [];
                 Fork 0;
                 Printf "Child process: My PID is %d, My parent's PID is %d\n"
                        [AInt 4242; AInt 100];
                 Printf "Child process: executing '%s'\n" [AStr (lit "nosuch")];
                 Execvp (Shell.getProgramName (lit "nosuch")) (map Some (words (lit "nosuch")))
                        false;
                 Eprintf "processSystemCommand: ERROR - command execution failed with '%s'\n"
                         [AStr (lit "No such file or directory")]])
             (Some ([] ++ Inputs.line "nosuch")) [] 1 4242 100).
Proof.
  apply (failed_exec_leaves_a_second_shell
           {| os_fork := fun _ => 0; os_child_pid := fun _ => 4242;
              os_execvp := fun _ _ => false; os_strerror := lit "No such file or directory";
              os_fopen := fun _ => None |}
           (lit "$ ") (Inputs.line "nosuch") (lit "nosuch") [] [Inputs.line "exit"] Inputs.w0);
    try reflexivity; try discriminate.
  vm_compute. lia.
Defined.

(** ** A double quote at the end of the command *)

Module QuoteFacts.
Import Utils.

Lemma step_quote (fuel max_tokens : nat) (buf : list ascii) (tokens : list slot)
    (count p : nat) :
  rd buf p = Ok DQUOTE -> (count <? max_tokens)%nat = true ->
  tok_loop (S fuel) max_tokens (TokState buf tokens count false p)
  = tok_loop fuel max_tokens (TokState buf tokens count true (S (S p))).
Proof.
  intros Hrd Hlt. rewrite TokenizerFacts.tok_loop_S. rewrite Hrd. cbn [mbind res_bind].
  rewrite Hlt. reflexivity.
Qed.

Lemma step_fail (fuel max_tokens : nat) (st : tok_state) (f : fault) :
  rd (ts_buf st) (ts_p st) = Fail f -> tok_loop (S fuel) max_tokens st = Fail f.
Proof.
  intros Hrd. rewrite TokenizerFacts.tok_loop_S. destruct st. simpl in Hrd.
  now rewrite Hrd.
Qed.

(** The main loop on a text without double quotes that is followed by a
    double quote and the terminator: the quote makes the loop step over
    the terminator. *)
Lemma tok_quote (max_tokens : nat) (n : nat) :
  forall (w r pre : list ascii) (tokens : list slot) (count fuel : nat),
    (length (w ++ r) <= n)%nat ->
    none_of [NUL; DQUOTE; " "; "009"] w = true ->
    none_of [NUL; DQUOTE] r = true ->
    is_blank (hd " " r) = true ->
    (length (w ++ r) + 1 < fuel)%nat ->
    (count + length (w ++ r) < max_tokens)%nat -> (max_tokens <= length tokens)%nat ->
    tok_loop fuel max_tokens
             (TokState (pre ++ w ++ r ++ [DQUOTE; NUL]) tokens count false (length pre))
    = Fail (OutOfBounds (Z.of_nat (length pre + length (w ++ r) + 2))).
Proof.
  induction n as [n IH] using lt_wf_ind.
  intros w r pre tokens count fuel Hlen Hw Hr Hhd Hfuel Hcount Htokens.
  destruct fuel as [|fuel]; [lia|].
  assert (Hlt : (count <? max_tokens)%nat = true) by (apply Nat.ltb_lt; lia).
  destruct w as [|c w].
  - destruct r as [|b r].
    + (* at the quote *)
      destruct fuel as [|fuel]; [simpl in Hfuel; lia|].
      cbn [app]. rewrite step_quote by (apply WordFacts.rd_at || exact Hlt).
      apply step_fail. cbn [ts_buf ts_p]. unfold rd.
      rewrite lookup_ge_None_2 by (rewrite length_app; simpl; lia).
      do 3 f_equal. simpl. lia.
    + (* at the blank that ends a word *)
      simpl in Hhd. apply WordFacts.plain_char in Hr as (_ & _ & Hr).
      destruct (WordFacts.blank_run r) as (bl & r2 & -> & Hbl & Hr2).
      apply DecoderFacts.none_of_app in Hr as [_ Hr2p].
      destruct (WordFacts.word_run r2 Hr2p) as (w2 & r3 & -> & Hw2 & Hr3 & Hhd3).
      set (pre' := pre ++ NUL :: bl).
      set (x := w2 ++ r3 ++ [DQUOTE; NUL]).
      assert (Hx : x <> []) by (unfold x; destruct w2; [destruct r3|]; discriminate).
      assert (Hc1 : Ascii.eqb (hd NUL x) NUL = false /\ is_blank (hd NUL x) = false).
      { unfold x. destruct w2 as [|c2 w2].
        - destruct r3 as [|c3 r3]; [now split|]. simpl in *. congruence.
        - apply WordFacts.word_char in Hw2 as (Hn2 & _ & Hb2 & _). now split. }
      destruct Hc1 as [Hn1 Hb1].
      assert (Hbuf : pre ++ [] ++ (b :: bl ++ w2 ++ r3) ++ [DQUOTE; NUL]
                     = pre ++ b :: (bl ++ x)).
      { unfold x. simpl. now rewrite <- !app_assoc. }
      assert (Hbuf1 : pre ++ NUL :: (bl ++ x) = pre' ++ w2 ++ r3 ++ [DQUOTE; NUL]).
      { unfold pre', x. now rewrite <- !app_assoc. }
      assert (Hskip : skip_blank (pre ++ NUL :: (bl ++ x)) (S (length pre))
                      = Ok (length pre')).
      { replace (pre ++ NUL :: (bl ++ x)) with ((pre ++ [NUL]) ++ bl ++ x)
          by (now rewrite <- !app_assoc).
        replace (S (length pre)) with (length (pre ++ [NUL]))
          by (rewrite length_app; simpl; lia).
        rewrite WordFacts.skip_blank_run; [|exact Hbl|exact Hx|now rewrite Hn1, Hb1].
        f_equal. unfold pre'. rewrite !length_app. simpl. lia. }
      assert (Hrd1 : rd (pre ++ NUL :: (bl ++ x)) (length pre') = Ok (hd NUL x)).
      { replace (pre ++ NUL :: (bl ++ x)) with (pre' ++ x)
          by (unfold pre'; now rewrite <- !app_assoc).
        now apply WordFacts.rd_middle. }
      rewrite Hbuf.
      rewrite (WordFacts.step_blank _ _ _ _ _ _ _ _ b _ (WordFacts.rd_at _ _ _) Hlt Hhd
                 (WordFacts.wr_at _ _ _ _) Hskip Hrd1).
      rewrite Hn1. cbn [negb]. cbv iota.
      unfold store. rewrite decide_True by lia. cbn [mbind res_bind].
      rewrite Hbuf1. simpl in Hlen, Hfuel, Hcount. rewrite !length_app in Hlen, Hfuel, Hcount.
      rewrite (IH (length (w2 ++ r3))); [|rewrite length_app; lia|lia|exact Hw2|exact Hr3
                                         |exact Hhd3|rewrite length_app; lia
                                         |rewrite length_app; lia
                                         |rewrite length_insert; lia].
      do 3 f_equal. unfold pre'. rewrite !length_app. simpl. rewrite !length_app. lia.
  - (* inside a word *)
    pose proof (WordFacts.word_char _ _ Hw) as (Hn & Hq & Hb & Hw').
    change (pre ++ (c :: w) ++ r ++ [DQUOTE; NUL])
      with (pre ++ c :: (w ++ r ++ [DQUOTE; NUL])).
    rewrite (WordFacts.step_word _ _ _ _ _ _ c (WordFacts.rd_at _ _ _) Hn Hlt Hq Hb).
    replace (pre ++ c :: w ++ r ++ [DQUOTE; NUL])
      with ((pre ++ [c]) ++ w ++ r ++ [DQUOTE; NUL]) by (now rewrite <- app_assoc).
    replace (S (length pre)) with (length (pre ++ [c])) by (rewrite length_app; simpl; lia).
    simpl in Hlen, Hfuel, Hcount.
    rewrite (IH (length (w ++ r))); [|lia|lia|exact Hw'|exact Hr|exact Hhd|lia|lia|exact Htokens].
    do 3 f_equal. rewrite length_app. simpl. lia.
Qed.

End QuoteFacts.

(** X27.  A command of fewer than 999 characters that ends with its only
    double quote makes the tokenizer read past the end of its copy of the
    command: the quote advances the pointer twice, over the terminator, and
    the next test of the loop reads the byte after it. *)
Theorem final_quote_reads_past_the_end (s : list ascii) :
  none_of [NUL; DQUOTE] s = true -> (length s < 999)%nat ->
  Shell.getArgs (s ++ [DQUOTE]) = Fail (OutOfBounds (Z.of_nat (length s) + 2)) /\
  length (Utils.buffer_of (s ++ [DQUOTE])) = (length s + 2)%nat.
Proof.
  intros Hs Hlen.
  assert (Hbuf : Utils.buffer_of (s ++ [DQUOTE]) = s ++ [DQUOTE; NUL]).
  { unfold Utils.buffer_of.
    rewrite DecoderFacts.c_str_app_nonul by (now apply DecoderFacts.none_of_no_nul in Hs).
    now rewrite <- app_assoc. }
  split; [|rewrite Hbuf, length_app; simpl; lia].
  unfold Shell.getArgs, Utils.getTokens. rewrite Hbuf. clear Hbuf.
  destruct (WordFacts.blank_run s) as (bl & r2 & -> & Hbl & Hr2).
  apply DecoderFacts.none_of_app in Hs as [_ Hr2p].
  destruct (WordFacts.word_run r2 Hr2p) as (w & r3 & -> & Hw & Hr3 & Hhd3).
  set (x := w ++ r3 ++ [DQUOTE; NUL]).
  assert (Hx : x <> []) by (unfold x; destruct w; [destruct r3|]; discriminate).
  assert (Hc1 : Ascii.eqb (hd NUL x) NUL = false /\ Utils.is_blank (hd NUL x) = false).
  { unfold x. destruct w as [|c w].
    - destruct r3 as [|c3 r3]; [now split|]. simpl in *. congruence.
    - apply WordFacts.word_char in Hw as (Hn & _ & Hb & _). now split. }
  destruct Hc1 as [Hn1 Hb1].
  replace ((bl ++ w ++ r3) ++ [DQUOTE; NUL]) with (bl ++ x)
    by (unfold x; now rewrite <- !app_assoc).
  assert (Hskip : Utils.skip_blank (bl ++ x) 0 = Ok (length bl)).
  { change (bl ++ x) with ([] ++ bl ++ x). change 0%nat with (length (@nil ascii)).
    rewrite WordFacts.skip_blank_run; [reflexivity|exact Hbl|exact Hx|now rewrite Hn1, Hb1]. }
  unfold Utils.parse_quoted_tokens. rewrite Hskip. cbn [mbind res_bind].
  rewrite WordFacts.rd_middle by exact Hx. cbn [mbind res_bind].
  rewrite Hn1. cbn [negb]. cbv iota.
  assert (Hstore : Utils.store (replicate Utils.TOKEN_LIMIT Utils.Uninit) 0
                               (Utils.Ptr (length bl))
                   = Ok (<[0%nat:=Utils.Ptr (length bl)]>
                           (replicate Utils.TOKEN_LIMIT Utils.Uninit))).
  { unfold Utils.store. rewrite decide_True; [reflexivity|].
    rewrite length_replicate. unfold Utils.TOKEN_LIMIT. lia. }
  rewrite Hstore. cbn [mbind res_bind]. unfold x.
  rewrite !length_app in Hlen.
  rewrite (QuoteFacts.tok_quote Utils.TOKEN_LIMIT (length (w ++ r3)));
    [|lia|exact Hw|exact Hr3|exact Hhd3|rewrite !length_app; simpl; lia
     |rewrite length_app; unfold Utils.TOKEN_LIMIT; lia
     |rewrite length_insert, length_replicate; lia].
  cbn [mbind res_bind]. do 2 f_equal. rewrite !length_app. lia.
Qed.

Lemma final_quote_reads_past_the_end_witness :
  Shell.getArgs (lit "echo a" ++ [DQUOTE])
  = Fail (OutOfBounds (Z.of_nat (length (lit "echo a")) + 2)) /\
  length (Utils.buffer_of (lit "echo a" ++ [DQUOTE])) = (length (lit "echo a") + 2)%nat.
Proof.
  apply (final_quote_reads_past_the_end (lit "echo a")); [reflexivity|simpl; lia].
Defined.

(** ** The tokenizer on commands with double quotes *)

Module QuotedFacts.
Import Utils.

Lemma quotes_ok_plain (q : bool) (c : ascii) (s : list ascii) :
  Ascii.eqb c NUL = false -> Ascii.eqb c DQUOTE = false ->
  quotes_ok q (c :: s) = quotes_ok q s.
Proof. intros Hn Hq. cbn [quotes_ok]. now rewrite Hn, Hq. Qed.

Lemma quotes_ok_quote (q : bool) (s : list ascii) :
  quotes_ok q (DQUOTE :: s) = true ->
  exists (d : ascii) (rest : list ascii),
    s = d :: rest /\ Ascii.eqb d NUL = false /\ Ascii.eqb d DQUOTE = false /\
    quotes_ok (negb q) rest = true.
Proof.
  cbn [quotes_ok]. change (Ascii.eqb DQUOTE NUL) with false.
  change (Ascii.eqb DQUOTE DQUOTE) with true. cbn [negb andb]. cbv iota.
  destruct s as [|d rest]; [discriminate|].
  intros [Hd H]%andb_true_iff. apply negb_true_iff in Hd.
  exists d, rest. split; [reflexivity|].
  cbn [quotes_ok] in H. rewrite Hd in H. apply andb_true_iff in H as [Hn H].
  apply negb_true_iff in Hn. now repeat split.
Qed.

Lemma quotes_ok_blanks (q : bool) (bl s : list ascii) :
  forallb is_blank bl = true -> quotes_ok q (bl ++ s) = quotes_ok q s.
Proof.
  induction bl as [|b bl IH]; [reflexivity|]. simpl forallb.
  intros [Hb Hbl]%andb_true_iff. destruct (WordFacts.is_blank_char b Hb) as [Hn Hq].
  cbn [app]. rewrite quotes_ok_plain by assumption. now apply IH.
Qed.

Lemma quotes_ok_no_nul (s : list ascii) :
  forall q : bool, quotes_ok q s = true -> c_str s = s.
Proof.
  induction s as [|c s IH]; intros q Hs; [reflexivity|].
  cbn [quotes_ok] in Hs. apply andb_true_iff in Hs as [Hn Hs].
  apply negb_true_iff in Hn. cbn [c_str]. rewrite Hn. f_equal.
  destruct (Ascii.eqb c DQUOTE).
  - destruct s as [|d s']; [discriminate|].
    apply andb_true_iff in Hs as [_ Hs]. now apply (IH (negb q)).
  - now apply (IH q).
Qed.

Lemma qwords_blanks (bl s : list ascii) :
  forallb is_blank bl = true -> qwords (bl ++ s) = qwords s.
Proof.
  induction bl as [|b bl IH]; [reflexivity|]. simpl forallb.
  intros [Hb Hbl]%andb_true_iff. destruct (WordFacts.is_blank_char b Hb) as [_ Hq].
  unfold qwords in *. cbn [app qwords_from]. rewrite Hq, Hb. cbn [negb andb].
  now apply IH.
Qed.

(** Where a token ends, the word read so far is complete. *)
Lemma qwords_emit (cur r : list ascii) :
  is_blank (hd " " r) = true ->
  qwords_from false cur r = match cur with [] => [] | _ :: _ => [cur] end ++ qwords r.
Proof.
  destruct r as [|b r]; cbn [hd]; intros Hb.
  - cbn [qwords_from]. unfold qwords. cbn [qwords_from]. now rewrite app_nil_r.
  - destruct (WordFacts.is_blank_char b Hb) as [_ Hq].
    unfold qwords. cbn [qwords_from]. rewrite Hq, Hb. cbn [negb andb].
    now destruct cur.
Qed.

(** A well-quoted string is the rest of a token followed by a rest that
    is empty or starts with a blank. *)
Lemma qword_run (n : nat) :
  forall (q : bool) (s : list ascii),
    (length s <= n)%nat -> quotes_ok q s = true ->
    exists w r : list ascii,
      s = w ++ r /\ token_rest r q w /\ quotes_ok false r = true /\
      is_blank (hd " " r) = true /\ c_str w = w /\
      (forall cur : list ascii, qwords_from q cur s = qwords_from false (cur ++ w) r).
Proof.
  induction n as [n IH] using lt_wf_ind. intros q s Hlen Hs.
  destruct s as [|c rest].
  - destruct q; [discriminate Hs|]. exists [], [].
    split; [reflexivity|]. split; [apply tr_nil|]. split; [reflexivity|].
    split; [reflexivity|]. split; [reflexivity|]. intros cur. now rewrite app_nil_r.
  - destruct (Ascii.eqb c NUL) eqn:Hn;
      [cbn [quotes_ok] in Hs; rewrite Hn in Hs; discriminate|].
    cbn [length] in Hlen.
    destruct (Ascii.eqb c DQUOTE) eqn:Hq.
    + apply Ascii.eqb_eq in Hq. subst c.
      destruct (quotes_ok_quote _ _ Hs) as (d & rest' & -> & Hdn & Hdq & Hrest).
      cbn [length] in Hlen.
      destruct q; cbn [negb] in Hrest.
      * (* a closing quote *)
        destruct (is_blank d) eqn:Hdb.
        -- exists [DQUOTE], (d :: rest').
           split; [reflexivity|]. split; [apply tr_close_end; exact Hdb|].
           split; [now rewrite quotes_ok_plain|]. split; [exact Hdb|].
           split; [reflexivity|]. intros cur. reflexivity.
        -- destruct (IH (length rest') ltac:(lia) false rest' (le_n _) Hrest)
             as (w & r & -> & Htr & Hr & Hhd & Hw & Hqw).
           exists (DQUOTE :: d :: w), r.
           split; [reflexivity|]. split; [now apply tr_close|]. split; [exact Hr|].
           split; [exact Hhd|]. split.
           ++ cbn [c_str]. change (Ascii.eqb DQUOTE NUL) with false. rewrite Hdn.
              cbv iota. now rewrite Hw.
           ++ intros cur. cbn [qwords_from app].
              change (Ascii.eqb DQUOTE DQUOTE) with true. cbv iota. cbn [negb].
              rewrite Hdq. cbn [negb andb]. rewrite Hdb. rewrite Hqw.
              now rewrite <- !app_assoc.
      * (* an opening quote *)
        destruct (IH (length rest') ltac:(lia) true rest' (le_n _) Hrest)
          as (w & r & -> & Htr & Hr & Hhd & Hw & Hqw).
        exists (DQUOTE :: d :: w), r.
        split; [reflexivity|]. split; [now apply tr_open|]. split; [exact Hr|].
        split; [exact Hhd|]. split.
        -- cbn [c_str]. change (Ascii.eqb DQUOTE NUL) with false. rewrite Hdn.
           cbv iota. now rewrite Hw.
        -- intros cur. cbn [qwords_from app].
           change (Ascii.eqb DQUOTE DQUOTE) with true. cbv iota. cbn [negb].
           rewrite Hdq. cbn [negb andb]. rewrite Hqw. now rewrite <- !app_assoc.
    + rewrite quotes_ok_plain in Hs by assumption.
      destruct q.
      * (* inside a quoted span *)
        destruct (IH (length rest) ltac:(lia) true rest (le_n _) Hs)
          as (w & r & -> & Htr & Hr & Hhd & Hw & Hqw).
        exists (c :: w), r.
        split; [reflexivity|]. split; [now apply tr_inside|]. split; [exact Hr|].
        split; [exact Hhd|]. split.
        -- cbn [c_str]. rewrite Hn. now rewrite Hw.
        -- intros cur. cbn [qwords_from app]. rewrite Hq. cbn [negb andb].
           rewrite Hqw. now rewrite <- !app_assoc.
      * destruct (is_blank c) eqn:Hb.
        -- (* the blank that ends the token *)
           exists [], (c :: rest).
           split; [reflexivity|]. split; [apply tr_nil|].
           split; [now rewrite quotes_ok_plain|]. split; [exact Hb|].
           split; [reflexivity|]. intros cur. now rewrite app_nil_r.
        -- destruct (IH (length rest) ltac:(lia) false rest (le_n _) Hs)
             as (w & r & -> & Htr & Hr & Hhd & Hw & Hqw).
           exists (c :: w), r.
           split; [reflexivity|]. split; [now apply tr_plain|]. split; [exact Hr|].
           split; [exact Hhd|]. split.
           ++ cbn [c_str]. rewrite Hn. now rewrite Hw.
           ++ intros cur. cbn [qwords_from app]. rewrite Hq, Hb. cbn [negb andb].
              rewrite Hqw. now rewrite <- !app_assoc.
Qed.

(** The words of a token rest followed by its rest. *)
Lemma qwords_run (w r : list ascii) :
  (forall cur : list ascii, qwords_from false cur (w ++ r) = qwords_from false (cur ++ w) r) ->
  is_blank (hd " " r) = true ->
  qwords (w ++ r) = match w with [] => [] | _ :: _ => [w] end ++ qwords r.
Proof.
  intros Hqw Hhd. unfold qwords at 1. rewrite Hqw. cbn [app]. now apply qwords_emit.
Qed.

Lemma step_inside (fuel max_tokens : nat) (buf : list ascii) (tokens : list slot)
    (count p : nat) (c : ascii) :
  rd buf p = Ok c -> Ascii.eqb c NUL = false -> (count <? max_tokens)%nat = true ->
  Ascii.eqb c DQUOTE = false ->
  tok_loop (S fuel) max_tokens (TokState buf tokens count true p)
  = tok_loop fuel max_tokens (TokState buf tokens count true (S p)).
Proof.
  intros Hrd Hn Hlt Hq. rewrite TokenizerFacts.tok_loop_S. rewrite Hrd.
  cbn [mbind res_bind]. rewrite Hn, Hlt. cbn [orb negb].
  change (Ascii.eqb c "034") with (Ascii.eqb c DQUOTE). now rewrite Hq.
Qed.

Lemma step_close (fuel max_tokens : nat) (buf : list ascii) (tokens : list slot)
    (count p : nat) (d : ascii) :
  rd buf p = Ok DQUOTE -> (count <? max_tokens)%nat = true ->
  rd buf (S p) = Ok d -> is_blank d = false ->
  tok_loop (S fuel) max_tokens (TokState buf tokens count true p)
  = tok_loop fuel max_tokens (TokState buf tokens count false (S (S p))).
Proof.
  intros Hrd Hlt Hrd1 Hb. rewrite TokenizerFacts.tok_loop_S. rewrite Hrd.
  cbn [mbind res_bind]. rewrite Hlt. change (Ascii.eqb DQUOTE NUL) with false.
  cbn [orb negb]. change (Ascii.eqb DQUOTE "034") with true. cbv iota. cbn [negb].
  rewrite Hrd1. cbn [mbind res_bind]. now rewrite Hb.
Qed.

(** A closing quote before a blank: the iteration goes on as one at the
    blank would. *)
Lemma step_close_blank (fuel max_tokens : nat) (buf : list ascii) (tokens : list slot)
    (count p : nat) (b : ascii) :
  rd buf p = Ok DQUOTE -> (count <? max_tokens)%nat = true ->
  rd buf (S p) = Ok b -> is_blank b = true ->
  tok_loop (S fuel) max_tokens (TokState buf tokens count true p)
  = tok_loop (S fuel) max_tokens (TokState buf tokens count false (S p)).
Proof.
  intros Hrd Hlt Hrd1 Hb. destruct (WordFacts.is_blank_char b Hb) as [Hn Hq].
  rewrite !TokenizerFacts.tok_loop_S. rewrite Hrd, Hrd1.
  cbn [mbind res_bind]. rewrite Hlt, Hn. change (Ascii.eqb DQUOTE NUL) with false.
  cbn [orb negb]. change (Ascii.eqb DQUOTE "034") with true.
  change (Ascii.eqb b "034") with (Ascii.eqb b DQUOTE). rewrite Hq. cbv iota. cbn [negb].
  rewrite Hrd1. reflexivity.
Qed.

(** The main loop, started inside the token whose rest is [w], followed
    by [r]: it ends that token with a NUL and finds the words of [r]. *)
Lemma tok_qrun (max_tokens : nat) (n : nat) :
  forall (q : bool) (w r pre : list ascii) (tokens : list slot) (count fuel : nat),
    (length (w ++ r) <= n)%nat ->
    token_rest r q w ->
    quotes_ok false r = true ->
    is_blank (hd " " r) = true ->
    (length (w ++ r) < fuel)%nat ->
    (count + length (qwords r) < max_tokens)%nat -> (max_tokens <= length tokens)%nat ->
    exists (buf' : list ascii) (tokens' : list slot) (p' : nat),
      tok_loop fuel max_tokens
               (TokState (pre ++ w ++ r ++ [NUL]) tokens count q (length pre))
      = Ok (TokState buf' tokens' (count + length (qwords r)) false p') /\
      length tokens' = length tokens /\
      (forall j : nat, (j < count)%nat -> tokens' !! j = tokens !! j) /\
      (exists tail : list ascii, buf' = pre ++ w ++ NUL :: tail) /\
      (forall (j : nat) (word : list ascii),
         qwords r !! j = Some word ->
         exists a : nat,
           tokens' !! (count + j)%nat = Some (Ptr a) /\ c_str (drop a buf') = word).
Proof.
  induction n as [n IH] using lt_wf_ind.
  intros q w r pre tokens count fuel Hlen Htr Hr Hhd Hfuel Hcount Htokens.
  destruct fuel as [|fuel]; [lia|].
  assert (Hlt : (count <? max_tokens)%nat = true) by (apply Nat.ltb_lt; lia).
  destruct Htr as [|c w Hn Hq Hb Htr|c w Hn Hq Htr|d w Hdn Htr|d w Hdn Hdb Htr|Hb].
  - destruct r as [|b r].
    + (* at the terminator *)
      exists (pre ++ [NUL]), tokens, (length pre).
      change (pre ++ [] ++ [] ++ [NUL]) with (pre ++ [NUL]).
      change (length (qwords [])) with 0%nat.
      rewrite (WordFacts.step_stop _ _ _ _ _ _ _ NUL) by (apply WordFacts.rd_at || reflexivity).
      rewrite Nat.add_0_r.
      split; [reflexivity|]. split; [reflexivity|]. split; [reflexivity|].
      split; [now exists []|]. intros j word Hj. discriminate Hj.
    + (* at the blank that ends a token *)
      cbn [hd] in Hhd. destruct (WordFacts.is_blank_char b Hhd) as [Hbn Hbq].
      rewrite quotes_ok_plain in Hr by assumption.
      destruct (WordFacts.blank_run r) as (bl & r2 & -> & Hbl & Hr2).
      rewrite quotes_ok_blanks in Hr by exact Hbl.
      assert (Hhd2 : negb (Ascii.eqb (hd NUL (r2 ++ [NUL])) NUL)
                     && is_blank (hd NUL (r2 ++ [NUL])) = false).
      { destruct r2 as [|c2 r2]; [reflexivity|]. cbn [app hd] in *. rewrite Hr2.
        apply andb_false_r. }
      destruct (qword_run (length r2) false r2 (le_n _) Hr)
        as (w2 & r3 & E & Htr2 & Hr3 & Hhd3 & Hw2 & Hqw).
      assert (Hwords : qwords (b :: bl ++ r2)
                       = match w2 with [] => [] | _ :: _ => [w2] end ++ qwords r3).
      { change (b :: bl ++ r2) with ((b :: bl) ++ r2).
        rewrite qwords_blanks by (simpl; now rewrite Hhd, Hbl).
        rewrite E. apply qwords_run; [|exact Hhd3]. now rewrite <- E. }
      clear Hqw. subst r2.
      set (pre' := pre ++ NUL :: bl).
      assert (Hbuf1 : pre ++ NUL :: (bl ++ w2 ++ r3) ++ [NUL]
                      = pre' ++ w2 ++ r3 ++ [NUL]).
      { unfold pre'. now rewrite <- !app_assoc. }
      assert (Hskip : skip_blank (pre ++ NUL :: (bl ++ w2 ++ r3) ++ [NUL]) (S (length pre))
                      = Ok (length pre')).
      { replace (pre ++ NUL :: (bl ++ w2 ++ r3) ++ [NUL])
          with ((pre ++ [NUL]) ++ bl ++ ((w2 ++ r3) ++ [NUL]))
          by (now rewrite <- !app_assoc).
        replace (S (length pre)) with (length (pre ++ [NUL]))
          by (rewrite length_app; simpl; lia).
        rewrite WordFacts.skip_blank_run.
        - f_equal. unfold pre'. rewrite !length_app. simpl. lia.
        - exact Hbl.
        - destruct (w2 ++ r3); discriminate.
        - exact Hhd2. }
      rewrite Hwords in Hcount |- *. clear Hwords.
      cbn [app length] in Hlen, Hfuel. rewrite !length_app in Hlen, Hfuel.
      destruct w2 as [|c2 w2].
      * (* only blanks were left *)
        assert (r3 = []) as ->.
        { destruct r3 as [|c3 r3]; [reflexivity|]. cbn [app hd] in *. congruence. }
        destruct (IH (length (@nil ascii ++ [])) ltac:(simpl; lia) false [] [] pre' tokens
                     count fuel)
          as (buf' & tokens' & p' & Hrun & Hl & Hold & (tail & Htail) & _);
          [simpl; lia|apply tr_nil|reflexivity|reflexivity|simpl in *; lia
          |simpl in *; lia|lia|].
        exists buf', tokens', p'.
        rewrite (WordFacts.step_blank _ _ _ _ _ _ _ _ b NUL (WordFacts.rd_at _ _ _)
                   Hlt Hhd (WordFacts.wr_at _ _ _ _) Hskip)
          by (rewrite Hbuf1; apply WordFacts.rd_at).
        change (Ascii.eqb NUL NUL) with true. cbn [negb]. cbv beta iota.
        rewrite Hbuf1. cbn [app] in Hrun |- *. rewrite Hrun.
        split; [reflexivity|]. split; [exact Hl|]. split; [exact Hold|]. split.
        -- exists (bl ++ NUL :: tail). rewrite Htail. unfold pre'.
           cbn [app]. now rewrite <- !app_assoc.
        -- intros j word Hj. discriminate Hj.
      * (* a new token starts *)
        assert (Hn2 : Ascii.eqb c2 NUL = false).
        { cbn [c_str] in Hw2. destruct (Ascii.eqb c2 NUL); [discriminate|reflexivity]. }
        cbn [app length] in Hcount.
        assert (Hstore : store tokens count (Ptr (length pre'))
                         = Ok (<[count:=Ptr (length pre')]> tokens)).
        { unfold store. now rewrite decide_True by lia. }
        destruct (IH (length ((c2 :: w2) ++ r3))
                     ltac:(rewrite length_app; cbn [length] in *; lia)
                     false (c2 :: w2) r3 pre' (<[count:=Ptr (length pre')]> tokens)
                     (S count) fuel)
          as (buf' & tokens' & p' & Hrun & Hl & Hold & (tail & Htail) & Htok);
          [lia|exact Htr2|exact Hr3|exact Hhd3
          |rewrite length_app; cbn [length] in *; lia|lia|rewrite length_insert; lia|].
        rewrite length_insert in Hl.
        exists buf', tokens', p'.
        rewrite (WordFacts.step_blank _ _ _ _ _ _ _ _ b c2 (WordFacts.rd_at _ _ _)
                   Hlt Hhd (WordFacts.wr_at _ _ _ _) Hskip)
          by (rewrite Hbuf1; apply WordFacts.rd_at).
        rewrite Hn2. cbn [negb]. cbv iota. rewrite Hstore. cbn [mbind res_bind].
        rewrite Hbuf1, Hrun. cbn [app length].
        replace (count + S (length (qwords r3)))%nat
          with (S count + length (qwords r3))%nat by lia.
        split; [reflexivity|]. split; [exact Hl|]. split.
        -- intros j Hj. rewrite Hold by lia. apply list_lookup_insert_ne. lia.
        -- split.
           ++ exists (bl ++ (c2 :: w2) ++ NUL :: tail). rewrite Htail. unfold pre'.
              cbn [app]. now rewrite <- !app_assoc.
           ++ intros [|j] word Hj.
              ** injection Hj as <-. exists (length pre').
                 rewrite Nat.add_0_r. split.
                 --- rewrite Hold by lia. apply list_lookup_insert_eq. lia.
                 --- rewrite Htail, drop_app_length.
                     rewrite DecoderFacts.c_str_app_nonul by exact Hw2.
                     cbn [c_str]. change (Ascii.eqb NUL NUL) with true. cbv iota.
                     now rewrite app_nil_r.
              ** destruct (Htok j word Hj) as (a & Ha & Htext). exists a.
                 split; [|exact Htext]. rewrite <- Ha. f_equal. lia.
  - (* a character outside quotes *)
    cbn [app length] in Hlen, Hfuel.
    destruct (IH (length (w ++ r)) ltac:(lia) false w r (pre ++ [c]) tokens count fuel)
      as (buf' & tokens' & p' & Hrun & Hl & Hold & (tail & Htail) & Htok);
      [lia|exact Htr|exact Hr|exact Hhd|lia|lia|lia|].
    exists buf', tokens', p'.
    change (pre ++ (c :: w) ++ r ++ [NUL]) with (pre ++ c :: (w ++ r ++ [NUL])).
    rewrite (WordFacts.step_word _ _ _ _ _ _ c (WordFacts.rd_at _ _ _) Hn Hlt Hq Hb).
    replace (pre ++ c :: w ++ r ++ [NUL]) with ((pre ++ [c]) ++ w ++ r ++ [NUL])
      by (now rewrite <- app_assoc).
    replace (S (length pre)) with (length (pre ++ [c]))
      by (rewrite length_app; simpl; lia).
    rewrite Hrun. split; [reflexivity|]. split; [exact Hl|]. split; [exact Hold|].
    split; [|exact Htok]. exists tail. rewrite Htail. now rewrite <- !app_assoc.
  - (* a character inside quotes *)
    cbn [app length] in Hlen, Hfuel.
    destruct (IH (length (w ++ r)) ltac:(lia) true w r (pre ++ [c]) tokens count fuel)
      as (buf' & tokens' & p' & Hrun & Hl & Hold & (tail & Htail) & Htok);
      [lia|exact Htr|exact Hr|exact Hhd|lia|lia|lia|].
    exists buf', tokens', p'.
    change (pre ++ (c :: w) ++ r ++ [NUL]) with (pre ++ c :: (w ++ r ++ [NUL])).
    rewrite (step_inside _ _ _ _ _ _ c (WordFacts.rd_at _ _ _) Hn Hlt Hq).
    replace (pre ++ c :: w ++ r ++ [NUL]) with ((pre ++ [c]) ++ w ++ r ++ [NUL])
      by (now rewrite <- app_assoc).
    replace (S (length pre)) with (length (pre ++ [c]))
      by (rewrite length_app; simpl; lia).
    rewrite Hrun. split; [reflexivity|]. split; [exact Hl|]. split; [exact Hold|].
    split; [|exact Htok]. exists tail. rewrite Htail. now rewrite <- !app_assoc.
  - (* an opening quote and the character after it *)
    cbn [app length] in Hlen, Hfuel.
    destruct (IH (length (w ++ r)) ltac:(lia) true w r (pre ++ [DQUOTE; d]) tokens count fuel)
      as (buf' & tokens' & p' & Hrun & Hl & Hold & (tail & Htail) & Htok);
      [lia|exact Htr|exact Hr|exact Hhd|lia|lia|lia|].
    exists buf', tokens', p'.
    change (pre ++ (DQUOTE :: d :: w) ++ r ++ [NUL])
      with (pre ++ DQUOTE :: (d :: w ++ r ++ [NUL])).
    rewrite (QuoteFacts.step_quote _ _ _ _ _ _ (WordFacts.rd_at _ _ _) Hlt).
    replace (pre ++ DQUOTE :: d :: w ++ r ++ [NUL])
      with ((pre ++ [DQUOTE; d]) ++ w ++ r ++ [NUL]) by (now rewrite <- app_assoc).
    replace (S (S (length pre))) with (length (pre ++ [DQUOTE; d]))
      by (rewrite length_app; simpl; lia).
    rewrite Hrun. split; [reflexivity|]. split; [exact Hl|]. split; [exact Hold|].
    split; [|exact Htok]. exists tail. rewrite Htail. now rewrite <- !app_assoc.
  - (* a closing quote and the character after it *)
    cbn [app length] in Hlen, Hfuel.
    destruct (IH (length (w ++ r)) ltac:(lia) false w r (pre ++ [DQUOTE; d]) tokens count fuel)
      as (buf' & tokens' & p' & Hrun & Hl & Hold & (tail & Htail) & Htok);
      [lia|exact Htr|exact Hr|exact Hhd|lia|lia|lia|].
    exists buf', tokens', p'.
    change (pre ++ (DQUOTE :: d :: w) ++ r ++ [NUL])
      with (pre ++ DQUOTE :: (d :: w ++ r ++ [NUL])).
    assert (Hrd1 : rd (pre ++ DQUOTE :: d :: w ++ r ++ [NUL]) (S (length pre)) = Ok d).
    { replace (pre ++ DQUOTE :: d :: w ++ r ++ [NUL])
        with ((pre ++ [DQUOTE]) ++ d :: (w ++ r ++ [NUL])) by (now rewrite <- app_assoc).
      replace (S (length pre)) with (length (pre ++ [DQUOTE]))
        by (rewrite length_app; simpl; lia).
      apply WordFacts.rd_at. }
    rewrite (step_close _ _ _ _ _ _ d (WordFacts.rd_at _ _ _) Hlt Hrd1 Hdb).
    replace (pre ++ DQUOTE :: d :: w ++ r ++ [NUL])
      with ((pre ++ [DQUOTE; d]) ++ w ++ r ++ [NUL]) by (now rewrite <- app_assoc).
    replace (S (S (length pre))) with (length (pre ++ [DQUOTE; d]))
      by (rewrite length_app; simpl; lia).
    rewrite Hrun. split; [reflexivity|]. split; [exact Hl|]. split; [exact Hold|].
    split; [|exact Htok]. exists tail. rewrite Htail. now rewrite <- !app_assoc.
  - (* a closing quote before the blank that ends the token *)
    destruct r as [|b r]; [discriminate Hb|]. cbn [hd] in Hb.
    cbn [app length] in Hlen, Hfuel.
    destruct (IH (length (@nil ascii ++ b :: r)) ltac:(cbn [app length]; lia) false []
                 (b :: r) (pre ++ [DQUOTE]) tokens count (S fuel))
      as (buf' & tokens' & p' & Hrun & Hl & Hold & (tail & Htail) & Htok);
      [lia|apply tr_nil|exact Hr|exact Hhd|cbn [app length]; lia|lia|lia|].
    exists buf', tokens', p'.
    change (pre ++ [DQUOTE] ++ (b :: r) ++ [NUL])
      with (pre ++ DQUOTE :: (b :: r ++ [NUL])).
    assert (Hrd1 : rd (pre ++ DQUOTE :: b :: r ++ [NUL]) (S (length pre)) = Ok b).
    { replace (pre ++ DQUOTE :: b :: r ++ [NUL])
        with ((pre ++ [DQUOTE]) ++ b :: (r ++ [NUL])) by (now rewrite <- app_assoc).
      replace (S (length pre)) with (length (pre ++ [DQUOTE]))
        by (rewrite length_app; simpl; lia).
      apply WordFacts.rd_at. }
    rewrite (step_close_blank _ _ _ _ _ _ b (WordFacts.rd_at _ _ _) Hlt Hrd1 Hb).
    replace (pre ++ DQUOTE :: b :: r ++ [NUL])
      with ((pre ++ [DQUOTE]) ++ [] ++ (b :: r) ++ [NUL]) by (now rewrite <- app_assoc).
    replace (S (length pre)) with (length (pre ++ [DQUOTE]))
      by (rewrite length_app; simpl; lia).
    rewrite Hrun. split; [reflexivity|]. split; [exact Hl|]. split; [exact Hold|].
    split; [|exact Htok]. exists tail. rewrite Htail. now rewrite <- !app_assoc.
Qed.

(** [parse_quoted_tokens] on the copy of a well-quoted command. *)
Lemma parse_quoted (s : list ascii) (tokens : list slot) (max_tokens : nat) :
  quotes_ok false s = true -> (length (qwords s) < max_tokens <= length tokens)%nat ->
  exists (buf' : list ascii) (tokens' : list slot),
    parse_quoted_tokens (buffer_of s) tokens max_tokens
    = Ok (length (qwords s), buf', tokens') /\
    length tokens' = length tokens /\
    (forall (j : nat) (word : list ascii),
       qwords s !! j = Some word ->
       exists a : nat, tokens' !! j = Some (Ptr a) /\ c_str (drop a buf') = word).
Proof.
  intros Hs Hmax. unfold buffer_of. rewrite (quotes_ok_no_nul _ _ Hs).
  destruct (WordFacts.blank_run s) as (bl & r2 & -> & Hbl & Hr2).
  rewrite quotes_ok_blanks in Hs by exact Hbl.
  rewrite qwords_blanks in * by exact Hbl.
  assert (Hhd2 : negb (Ascii.eqb (hd NUL (r2 ++ [NUL])) NUL)
                 && is_blank (hd NUL (r2 ++ [NUL])) = false).
  { destruct r2 as [|c2 r2]; [reflexivity|]. cbn [app hd] in *. rewrite Hr2.
    apply andb_false_r. }
  destruct (qword_run (length r2) false r2 (le_n _) Hs)
    as (w & r3 & E & Htr & Hr3 & Hhd3 & Hw & Hqw).
  assert (Hwords : qwords r2 = match w with [] => [] | _ :: _ => [w] end ++ qwords r3).
  { rewrite E. apply qwords_run; [|exact Hhd3]. now rewrite <- E. }
  clear Hqw. rewrite Hwords in *. clear Hwords. subst r2.
  replace ((bl ++ w ++ r3) ++ [NUL]) with (bl ++ w ++ r3 ++ [NUL])
    by (now rewrite <- !app_assoc).
  assert (Hskip : skip_blank (bl ++ w ++ r3 ++ [NUL]) 0 = Ok (length bl)).
  { replace (bl ++ w ++ r3 ++ [NUL]) with ([] ++ bl ++ ((w ++ r3) ++ [NUL]))
      by (now rewrite <- !app_assoc).
    change 0%nat with (length (@nil ascii)). rewrite WordFacts.skip_blank_run.
    - reflexivity.
    - exact Hbl.
    - destruct (w ++ r3); discriminate.
    - exact Hhd2. }
  assert (Hrd : rd (bl ++ w ++ r3 ++ [NUL]) (length bl) = Ok (hd NUL (w ++ r3 ++ [NUL]))).
  { apply WordFacts.rd_middle. destruct w; [destruct r3|]; discriminate. }
  unfold parse_quoted_tokens. rewrite Hskip. cbn [mbind res_bind].
  rewrite Hrd. cbn [mbind res_bind].
  destruct w as [|c w].
  - assert (r3 = []) as ->.
    { destruct r3 as [|c3 r3]; [reflexivity|]. cbn [app hd] in *. congruence. }
    destruct (tok_qrun max_tokens 0 false [] [] bl tokens 0
                       (S (length (bl ++ [] ++ [] ++ [NUL]))))
      as (buf' & tokens' & p' & Hrun & Hl & _ & _ & _);
      [simpl; lia|apply tr_nil|reflexivity|reflexivity|simpl; lia|simpl in *; lia|lia|].
    exists buf', tokens'.
    change (hd NUL ([] ++ [] ++ [NUL])) with NUL.
    change (negb (Ascii.eqb NUL NUL)) with false. cbv iota. cbn [mbind res_bind].
    rewrite Hrun. cbn [mbind res_bind].
    split; [reflexivity|]. split; [exact Hl|].
    intros j word Hj. discriminate Hj.
  - assert (Hn : Ascii.eqb c NUL = false).
    { cbn [c_str] in Hw. destruct (Ascii.eqb c NUL); [discriminate|reflexivity]. }
    cbn [app length] in Hmax.
    assert (Hstore : store tokens 0 (Ptr (length bl)) = Ok (<[0%nat:=Ptr (length bl)]> tokens)).
    { unfold store. now rewrite decide_True by lia. }
    destruct (tok_qrun max_tokens (length ((c :: w) ++ r3)) false (c :: w) r3 bl
                       (<[0%nat:=Ptr (length bl)]> tokens) 1
                       (S (length (bl ++ (c :: w) ++ r3 ++ [NUL]))))
      as (buf' & tokens' & p' & Hrun & Hl & Hold & (tail & Htail) & Htok);
      [lia|exact Htr|exact Hr3|exact Hhd3|rewrite !length_app; simpl; lia
      |lia|rewrite length_insert; lia|].
    rewrite length_insert in Hl.
    exists buf', tokens'.
    change (hd NUL ((c :: w) ++ r3 ++ [NUL])) with c. rewrite Hn. cbn [negb]. cbv iota.
    rewrite Hstore. cbn [mbind res_bind].
    rewrite Hrun. cbn [mbind res_bind app length].
    split; [reflexivity|]. split; [exact Hl|].
    intros [|j] word Hj.
    + injection Hj as <-. exists (length bl). split.
      * rewrite Hold by lia. apply list_lookup_insert_eq. lia.
      * rewrite Htail, drop_app_length.
        rewrite DecoderFacts.c_str_app_nonul by exact Hw.
        cbn [c_str]. change (Ascii.eqb NUL NUL) with true. cbv iota.
        now rewrite app_nil_r.
    + destruct (Htok j word Hj) as (a & Ha & Htext). exists a. split; [exact Ha|exact Htext].
Qed.

End QuotedFacts.

(** X28.  When every double quote of a command is followed by a character
    other than a double quote, the quotes come in pairs, and the command
    has fewer than a thousand tokens, [getTokens] splits it at the spaces
    and tabs outside the quotes only: a blank between double quotes stays
    in its token, the quotes themselves stay in the token too, and a NULL
    entry follows the last token. *)
Theorem quoted_blanks_stay_in_the_token (command : list ascii) :
  quotes_ok false command = true ->
  (length (qwords command) < 1000)%nat ->
  exists (result : list Utils.slot) (buf : list ascii),
    Utils.getTokens (Utils.buffer_of command) = Ok (result, length (qwords command), buf) /\
    Utils.token_texts buf result (length (qwords command)) = map Some (qwords command) /\
    result !! length (qwords command) = Some Utils.PNull.
Proof.
  intros Hs Hlen.
  destruct (QuotedFacts.parse_quoted command (replicate Utils.TOKEN_LIMIT Utils.Uninit)
              Utils.TOKEN_LIMIT Hs)
    as (buf & tokens & Hparse & Hl & Htok).
  { rewrite length_replicate. unfold Utils.TOKEN_LIMIT. lia. }
  rewrite length_replicate in Hl.
  exists (<[length (qwords command):=Utils.PNull]> tokens), buf.
  unfold Utils.getTokens. rewrite Hparse. cbn [mbind res_bind].
  unfold Utils.store. rewrite decide_True by (rewrite Hl; unfold Utils.TOKEN_LIMIT; lia).
  cbn [mbind res_bind]. split; [reflexivity|]. split.
  - apply WordFacts.token_texts_words. intros j word Hj.
    destruct (Htok j word Hj) as (a & Ha & Htext). exists a. split.
    + rewrite list_lookup_insert_ne; [exact Ha|]. apply lookup_lt_Some in Hj. lia.
    + simpl. now rewrite Htext.
  - apply list_lookup_insert_eq. rewrite Hl. unfold Utils.TOKEN_LIMIT. lia.
Qed.

Lemma quoted_blanks_stay_in_the_token_witness :
  qwords (lit "echo " ++ [DQUOTE] ++ lit "a  b" ++ [DQUOTE] ++ lit " c")
  = [lit "echo"; [DQUOTE] ++ lit "a  b" ++ [DQUOTE]; lit "c"] /\
  exists (result : list Utils.slot) (buf : list ascii),
    Utils.getTokens
      (Utils.buffer_of (lit "echo " ++ [DQUOTE] ++ lit "a  b" ++ [DQUOTE] ++ lit " c"))
    = Ok (result,
          length (qwords (lit "echo " ++ [DQUOTE] ++ lit "a  b" ++ [DQUOTE] ++ lit " c")),
          buf) /\
    Utils.token_texts buf result
      (length (qwords (lit "echo " ++ [DQUOTE] ++ lit "a  b" ++ [DQUOTE] ++ lit " c")))
    = map Some (qwords (lit "echo " ++ [DQUOTE] ++ lit "a  b" ++ [DQUOTE] ++ lit " c")) /\
    result !! length (qwords (lit "echo " ++ [DQUOTE] ++ lit "a  b" ++ [DQUOTE] ++ lit " c"))
    = Some Utils.PNull.
Proof.
  split; [reflexivity|].
  apply (quoted_blanks_stay_in_the_token
           (lit "echo " ++ [DQUOTE] ++ lit "a  b" ++ [DQUOTE] ++ lit " c"));
    [reflexivity|vm_compute; lia].
Defined.

(** ** Backslashes inside a quoted span *)

Module SpanFacts.
Import Utils.

Lemma quoted_body_no_nul (q : ascii) (n : nat) :
  forall body : list ascii,
    (length body <= n)%nat -> quoted_body q body = true -> c_str body = body.
Proof.
  induction n as [n IH] using lt_wf_ind. intros body Hn Hb.
  destruct body as [|c rest]; [reflexivity|].
  cbn [quoted_body] in Hb. apply andb_true_iff in Hb as [Hc Hb].
  apply negb_true_iff in Hc. cbn [c_str]. rewrite Hc. f_equal. cbn [length] in Hn.
  destruct (Ascii.eqb c BACKSLASH).
  - destruct rest as [|d rest']; [discriminate|].
    apply andb_true_iff in Hb as [Hd Hb]. apply negb_true_iff in Hd.
    cbn [c_str]. rewrite Hd. f_equal. cbn [length] in Hn.
    apply (IH (length rest')); [lia|lia|exact Hb].
  - apply andb_true_iff in Hb as [_ Hb]. apply (IH (length rest)); [lia|lia|exact Hb].
Qed.

(** The scanning loop inside a quoted span, over a whole body. *)
Lemma scan_body (q : ascii) (n : nat) :
  forall body rest out : list ascii,
    (length body <= n)%nat -> is_set q = true -> quoted_body q body = true ->
    scan (body ++ rest) q out = scan rest q (out ++ quoted_text q body).
Proof.
  induction n as [n IH] using lt_wf_ind. intros body rest out Hn Hq Hb.
  destruct body as [|c body]; [cbn [app quoted_text]; now rewrite app_nil_r|].
  cbn [quoted_body] in Hb. apply andb_true_iff in Hb as [_ Hb].
  cbn [length] in Hn. cbn [app scan quoted_text]. rewrite Hq. cbn [negb andb].
  change (Ascii.eqb c "\") with (Ascii.eqb c BACKSLASH).
  destruct (Ascii.eqb c BACKSLASH) eqn:Hc.
  - destruct body as [|d body]; [discriminate Hb|].
    apply andb_true_iff in Hb as [_ Hb]. cbn [length] in Hn. cbn [app].
    apply Ascii.eqb_eq in Hc. subst c.
    destruct (Ascii.eqb d q) eqn:Hd; cbn [negb].
    + rewrite (IH (length body)) by (lia || assumption). now rewrite <- app_assoc.
    + rewrite (IH (length body)) by (lia || assumption). now rewrite <- !app_assoc.
  - apply andb_true_iff in Hb as [Hcq Hb]. apply negb_true_iff in Hcq.
    cbv iota. rewrite Hcq.
    rewrite (IH (length body)) by (lia || assumption). now rewrite <- app_assoc.
Qed.

End SpanFacts.

(** C5, amended.  Inside a quoted span (opened by ['] or by the double
    quote) a backslash escapes only the matching quote character, which
    is copied without the backslash; before any other character, a second
    backslash included, the backslash is copied followed by that
    character; a backslash at the end of the input makes [unescape] fail
    with its escape-sequence diagnostic.  So a span whose body is well
    formed decodes to the text of its body, between what precedes and
    what follows it. *)
Theorem backslash_in_quotes (q : ascii) (pre body : list ascii) :
  q = SQUOTE \/ q = DQUOTE ->
  none_of [NUL; BACKSLASH; SQUOTE; DQUOTE] pre = true ->
  quoted_body q body = true ->
  (forall post : list ascii,
     none_of [NUL; BACKSLASH; SQUOTE; DQUOTE] post = true ->
     Utils.unescape (pre ++ q :: body ++ q :: post)
     = ([], Some (pre ++ quoted_text q body ++ post))) /\
  Utils.unescape (pre ++ q :: body ++ [BACKSLASH])
  = (["shell error: invalid escape sequence\n"%string], None) /\
  (forall rest : list ascii,
     quoted_text q (BACKSLASH :: q :: rest) = q :: quoted_text q rest) /\
  (forall (c : ascii) (rest : list ascii),
     c <> q -> quoted_text q (BACKSLASH :: c :: rest) = BACKSLASH :: c :: quoted_text q rest) /\
  (forall (c : ascii) (rest : list ascii),
     c <> BACKSLASH -> quoted_text q (c :: rest) = c :: quoted_text q rest).
Proof.
  intros Hq Hpre Hbody.
  assert (Hset : Utils.is_set q = true) by now apply DecoderFacts.quote_is_set.
  assert (Hqn : Ascii.eqb q NUL = false) by (destruct Hq; subst; reflexivity).
  assert (Hpre0 : c_str pre = pre) by (eapply DecoderFacts.none_of_no_nul; exact Hpre).
  assert (Hbody0 : c_str body = body)
    by (eapply SpanFacts.quoted_body_no_nul; [apply Nat.le_refl|exact Hbody]).
  split; [|split; [|split; [|split]]].
  - intros post Hpost. unfold Utils.unescape.
    rewrite DecoderFacts.c_str_span
      by (assumption || (eapply DecoderFacts.none_of_no_nul; eassumption)).
    rewrite DecoderFacts.scan_plain by (eapply DecoderFacts.none_of_weaken; exact Hpre).
    rewrite DecoderFacts.scan_open by exact Hq.
    rewrite (SpanFacts.scan_body q (length body)) by (assumption || apply Nat.le_refl).
    rewrite DecoderFacts.scan_close by exact Hq.
    rewrite <- (app_nil_r post) at 1.
    rewrite DecoderFacts.scan_plain by (eapply DecoderFacts.none_of_weaken; exact Hpost).
    simpl. now rewrite <- !app_assoc.
  - unfold Utils.unescape.
    rewrite DecoderFacts.c_str_app_nonul by exact Hpre0. cbn [c_str]. rewrite Hqn.
    rewrite DecoderFacts.c_str_app_nonul by exact Hbody0.
    change (c_str [BACKSLASH]) with [BACKSLASH].
    rewrite DecoderFacts.scan_plain by (eapply DecoderFacts.none_of_weaken; exact Hpre).
    rewrite DecoderFacts.scan_open by exact Hq.
    rewrite (SpanFacts.scan_body q (length body)) by (assumption || apply Nat.le_refl).
    cbn [Utils.scan]. rewrite Hset. reflexivity.
  - intros rest. cbn [quoted_text]. change (Ascii.eqb BACKSLASH BACKSLASH) with true.
    cbv iota. now rewrite Ascii.eqb_refl.
  - intros c rest Hc. cbn [quoted_text]. change (Ascii.eqb BACKSLASH BACKSLASH) with true.
    cbv iota. apply Ascii.eqb_neq in Hc. now rewrite Hc.
  - intros c rest Hc. cbn [quoted_text]. apply Ascii.eqb_neq in Hc. now rewrite Hc.
Qed.

Lemma backslash_in_quotes_witness :
  Utils.unescape (lit "say 'a\'b\\c\nd' now")
  = ([], Some (lit "say a'b\\c\nd now")) /\
  Utils.unescape (lit "say 'a\'b\")
  = (["shell error: invalid escape sequence\n"%string], None).
Proof.
  destruct (backslash_in_quotes SQUOTE (lit "say ") (lit "a\'b\\c\nd"))
    as (H1 & _); [left; reflexivity|reflexivity|reflexivity|].
  destruct (backslash_in_quotes SQUOTE (lit "say ") (lit "a\'b"))
    as (_ & H2 & _); [left; reflexivity|reflexivity|reflexivity|].
  split; [exact (H1 (lit " now") eq_refl)|exact H2].
Defined.

(** ** Double quotes in the tokens *)

Module CountFacts.
Import Utils.



End CountFacts.



(** ** The sentinel of [getTokens] *)



